(** * PricePilot: ingestion pipeline, price ledger and analytics

    A shallow embedding of the Python sources
      - backend/app/models.py          (the SQLAlchemy rows),
      - backend/app/price_service.py   (PriceService),
      - backend/app/pricing_engine.py  (PricingEngine),
      - backend/run_scrapers.py        (ProductMatcher, ScraperPipeline),
      - scrapers/base.py               (BaseScraper.normalize_price),
    followed by the properties of the price ledger, the matcher, the run
    loop and the analytics that the specification states.

    Modelling conventions.
      - [Decimal] and [float] values are exact rationals ([Q]); the 28 digit
        context precision of [Decimal] and binary rounding of [float] are
        not modelled.  [round(d, 2)] is half-even rounding to two places.
      - A [datetime] is a number of microseconds ([Z]); so is a [timedelta].
      - A [str] is a [string]; the methods of [str] and the classes of
        [re] are modelled for ASCII text.
      - A table is the list of its rows in insertion order; an ORM object is
        the row at a position of that list, so that mutating the object is
        an update at that position.
      - A Python exception is the [Raise] result of the [Exc] monad.
      - [uuid4()] and [datetime.utcnow()] are oracles indexed by a tick that
        the world state carries. *)

From Stdlib Require Import ZArith QArith Qround Qabs List String Ascii Bool Lia Lqa Arith.
From Stdlib Require Import Sorted Permutation.
Import ListNotations.

Set Implicit Arguments.

Local Open Scope string_scope.
Local Open Scope list_scope.

(* ================================================================== *)
(** ** Python values                                                   *)
(* ================================================================== *)

Module Py.

(** Exceptions: a computation returns a value or raises. *)
Inductive Exc (A : Type) : Type :=
| Ok (a : A)
| Raise (e : string).
Arguments Ok {A} a.
Arguments Raise {A} e.

Definition bind {A B : Type} (m : Exc A) (f : A -> Exc B) : Exc B :=
  match m with
  | Ok a => f a
  | Raise e => Raise e
  end.

Definition is_ok {A : Type} (m : Exc A) : bool :=
  match m with Ok _ => true | Raise _ => false end.

(** JSON values, as stored in the [JSON] columns. *)
#[local] Unset Elimination Schemes.
Inductive json : Type :=
| JNull
| JStr (s : string)
| JNum (n : Z)
| JList (l : list json)
| JDict (l : list (string * json)).
#[local] Set Elimination Schemes.

(** [dict.get(key, default)] on a key that may be absent. *)
Definition get {A : Type} (v : option A) (default : A) : A :=
  match v with Some a => a | None => default end.

(** Strict comparison and truth value of a number. *)
Definition Qltb (a b : Q) : bool := negb (Qle_bool b a).
Definition truthy (d : Q) : bool := negb (Qeq_bool d 0).

(** Truth value of an [Optional[Decimal]]: [None] and zero are false. *)
Definition truthy_opt (d : option Q) : bool :=
  match d with Some q => truthy q | None => false end.

(** Rounding to the nearest integer, ties to even. *)
Definition round_half_even (x : Q) : Z :=
  let f := Qfloor x in
  let r := x - inject_Z f in
  if Qltb r (1 # 2) then f
  else if Qltb (1 # 2) r then (f + 1)%Z
  else if Z.even f then f else (f + 1)%Z.

(** [round(x, ndigits)] for [ndigits] = 2 and 1. *)
Definition round2 (x : Q) : Q := inject_Z (round_half_even (x * 100)) / 100.
Definition round1 (x : Q) : Q := inject_Z (round_half_even (x * 10)) / 10.

(** In-place update of the element at a position of a list. *)
Fixpoint update_at {A : Type} (i : nat) (f : A -> A) (l : list A) : list A :=
  match l, i with
  | [], _ => []
  | x :: t, O => f x :: t
  | x :: t, S j => x :: update_at j f t
  end.

(** Position and value of the first element satisfying [p]
    ([query.filter(...).first()]). *)
Fixpoint find_index {A : Type} (p : A -> bool) (l : list A) : option (nat * A) :=
  match l with
  | [] => None
  | x :: t =>
      if p x then Some (O, x)
      else match find_index p t with
           | Some (i, y) => Some (S i, y)
           | None => None
           end
  end.

(** *** Strings ([str] methods, for ASCII text) *)

Definition is_digit (c : ascii) : bool :=
  let n := nat_of_ascii c in (48 <=? n)%nat && (n <=? 57)%nat.

(** White space of [str.strip], [str.split] and of the class [\s]. *)
Definition is_space (c : ascii) : bool :=
  let n := nat_of_ascii c in
  ((9 <=? n)%nat && (n <=? 13)%nat) || ((28 <=? n)%nat && (n <=? 32)%nat).

Definition lower_char (c : ascii) : ascii :=
  let n := nat_of_ascii c in
  if (65 <=? n)%nat && (n <=? 90)%nat then ascii_of_nat (n + 32) else c.

Fixpoint lower (s : string) : string :=
  match s with
  | EmptyString => EmptyString
  | String c t => String (lower_char c) (lower t)
  end.

(** [sub in s] *)
Fixpoint contains (sub s : string) : bool :=
  match s with
  | EmptyString => String.prefix sub s
  | String _ t => String.prefix sub s || contains sub t
  end.

Fixpoint filter_chars (p : ascii -> bool) (s : string) : string :=
  match s with
  | EmptyString => EmptyString
  | String c t => if p c then String c (filter_chars p t) else filter_chars p t
  end.

Fixpoint exists_char (p : ascii -> bool) (s : string) : bool :=
  match s with
  | EmptyString => false
  | String c t => p c || exists_char p t
  end.

Fixpoint forall_char (p : ascii -> bool) (s : string) : bool :=
  match s with
  | EmptyString => true
  | String c t => p c && forall_char p t
  end.

Fixpoint lstrip (s : string) : string :=
  match s with
  | EmptyString => EmptyString
  | String c t => if is_space c then lstrip t else s
  end.

Fixpoint rstrip (s : string) : string :=
  match s with
  | EmptyString => EmptyString
  | String c t =>
      match rstrip t with
      | EmptyString => if is_space c then EmptyString else String c EmptyString
      | t' => String c t'
      end
  end.

Definition strip (s : string) : string := rstrip (lstrip s).

(** [s.split()]: the maximal runs of characters that are not white space.
    [cur] is the run being read, reversed. *)
Fixpoint rev_string (acc s : string) : string :=
  match s with
  | EmptyString => acc
  | String c t => rev_string (String c acc) t
  end.

Fixpoint split_aux (cur : string) (s : string) : list string :=
  match s with
  | EmptyString =>
      match cur with EmptyString => [] | _ => [rev_string EmptyString cur] end
  | String c t =>
      if is_space c
      then match cur with
           | EmptyString => split_aux EmptyString t
           | _ => rev_string EmptyString cur :: split_aux EmptyString t
           end
      else split_aux (String c cur) t
  end.

Definition split (s : string) : list string := split_aux EmptyString s.

(** *** Regular expressions ([re]), with the backtracking order of the
    library: alternatives left to right, repetitions greedy. *)

Inductive regex : Type :=
| Eps
| Chr (p : ascii -> bool)
| Seq (r1 r2 : regex)
| Alt (r1 r2 : regex)
| Opt (r : regex)
| Star (r : regex).

Definition Plus (r : regex) : regex := Seq r (Star r).

Fixpoint Lit (s : string) : regex :=
  match s with
  | EmptyString => Eps
  | String c t => Seq (Chr (Ascii.eqb c)) (Lit t)
  end.

(** [rmatch r s k]: match [r] at the start of [s] and hand the rest of the
    text to the continuation [k]; the first success in backtracking order
    wins.  A repetition stops when an iteration consumes nothing. *)
Fixpoint rmatch (r : regex) (s : string) (k : string -> option string)
    {struct r} : option string :=
  match r with
  | Eps => k s
  | Chr p =>
      match s with
      | String c t => if p c then k t else None
      | EmptyString => None
      end
  | Seq r1 r2 => rmatch r1 s (fun s' => rmatch r2 s' k)
  | Alt r1 r2 =>
      match rmatch r1 s k with
      | Some x => Some x
      | None => rmatch r2 s k
      end
  | Opt r1 =>
      match rmatch r1 s k with
      | Some x => Some x
      | None => k s
      end
  | Star r1 =>
      (fix loop (n : nat) (s : string) {struct n} : option string :=
         match n with
         | O => k s
         | S n' =>
             match rmatch r1 s
                     (fun s' => if (String.length s' <? String.length s)%nat
                                then loop n' s' else None) with
             | Some x => Some x
             | None => k s
             end
         end) (String.length s) s
  end.

(** The match of [r] at the start of [s]: matched text and the rest. *)
Definition match_at (r : regex) (s : string) : option (string * string) :=
  match rmatch r s Some with
  | Some rest =>
      Some (String.substring 0 (String.length s - String.length rest) s, rest)
  | None => None
  end.

(** [re.search(r, s).group(1)] for a pattern that is one group. *)
Fixpoint search (r : regex) (s : string) : option string :=
  match match_at r s with
  | Some (m, _) => Some m
  | None =>
      match s with
      | EmptyString => None
      | String _ t => search r t
      end
  end.

(** [re.findall(r, s)] for a pattern that is one group: the matches from
    left to right, without overlap.  [skip] counts the characters of the
    last match still to pass. *)
Fixpoint findall_from (r : regex) (s : string) (skip : nat) : list string :=
  match s with
  | EmptyString =>
      match skip with
      | O => match match_at r s with Some (m, _) => [m] | None => [] end
      | S _ => []
      end
  | String _ t =>
      match skip with
      | S n => findall_from r t n
      | O =>
          match match_at r s with
          | Some (m, _) => m :: findall_from r t (String.length m - 1)
          | None => findall_from r t 0
          end
      end
  end.

Definition findall (r : regex) (s : string) : list string := findall_from r s 0.

(** The texts a pattern can match. *)
Inductive lang : regex -> string -> Prop :=
| lang_eps : lang Eps EmptyString
| lang_chr (p : ascii -> bool) (c : ascii) :
    p c = true -> lang (Chr p) (String c EmptyString)
| lang_seq (r1 r2 : regex) (a b : string) :
    lang r1 a -> lang r2 b -> lang (Seq r1 r2) (a ++ b)%string
| lang_alt_l (r1 r2 : regex) (a : string) : lang r1 a -> lang (Alt r1 r2) a
| lang_alt_r (r1 r2 : regex) (a : string) : lang r2 a -> lang (Alt r1 r2) a
| lang_opt_none (r : regex) : lang (Opt r) EmptyString
| lang_opt_some (r : regex) (a : string) : lang r a -> lang (Opt r) a
| lang_star_nil (r : regex) : lang (Star r) EmptyString
| lang_star_cons (r : regex) (a b : string) :
    lang r a -> lang (Star r) b -> lang (Star r) (a ++ b)%string.

(** A pattern that cannot match but at a digit. *)
Definition leading_digit (r : regex) : Prop :=
  forall s k,
    match s with String c _ => is_digit c = false | EmptyString => True end ->
    rmatch r s k = None.

(** *** [Decimal(str)] for the literals [digits], [digits.], [digits.digits]
    and [.digits] with an optional sign; any other text raises
    (exponents and the special values are not modelled). *)

Definition digit_value (c : ascii) : Z := Z.of_nat (nat_of_ascii c - 48).

Fixpoint digits_value (acc : Z) (s : string) : Z :=
  match s with
  | EmptyString => acc
  | String c t => digits_value (10 * acc + digit_value c)%Z t
  end.

(** The text before the first ['.'] and the text after it, if any. *)
Fixpoint split_point (s : string) : string * option string :=
  match s with
  | EmptyString => (EmptyString, None)
  | String c t =>
      if Ascii.eqb c "."%char then (EmptyString, Some t)
      else let '(i, f) := split_point t in (String c i, f)
  end.

Definition unsigned_decimal (s : string) : Exc Q :=
  let '(i, f) := split_point s in
  let f := match f with Some f => f | None => EmptyString end in
  if forall_char is_digit i && forall_char is_digit f
     && negb (String.eqb (i ++ f)%string EmptyString)
  then Ok (inject_Z (digits_value 0 (i ++ f)%string)
           / inject_Z (10 ^ Z.of_nat (String.length f)))
  else Raise "InvalidOperation".

Definition Decimal (s : string) : Exc Q :=
  match s with
  | String c t =>
      if Ascii.eqb c "-"%char
      then match unsigned_decimal t with Ok q => Ok (- q) | Raise e => Raise e end
      else if Ascii.eqb c "+"%char then unsigned_decimal t
      else unsigned_decimal s
  | EmptyString => unsigned_decimal s
  end.

End Py.

Import Py.

Declare Scope exc_scope.
Delimit Scope exc_scope with exc.
Notation "x <- m ;; k" := (Py.bind m (fun x => k))
  (at level 61, m at next level, right associativity) : exc_scope.

(* ================================================================== *)
(** ** backend/app/models.py                                           *)
(* ================================================================== *)

Module Models.

Definition datetime := Z.

(** One hour, in microseconds. *)
Definition hour : Z := 3600000000%Z.

Record Category : Type := mkCategory {
  category_id : string;
  category_name : string
}.

Record Vendor : Type := mkVendor {
  vendor_id : string;
  vendor_name : string
}.

Record Product : Type := mkProduct {
  product_id : string;
  product_name : string;
  product_brand : string;
  product_category_id : option string;
  product_image_url : option string;
  popularity_score : Z
}.

Record Price : Type := mkPrice {
  price_id : string;
  price_product_id : string;
  price_vendor_id : string;
  price : Q;
  original_price : option Q;
  discount_percentage : option Q;
  stock_status : string;
  product_url : string;
  variation_details : json;
  last_updated_at : datetime
}.

Record PriceHistory : Type := mkPriceHistory {
  h_price_id : string;
  h_product_id : string;
  h_vendor_id : string;
  h_price : Q;
  h_original_price : option Q;
  h_discount_percentage : option Q;
  h_stock_status : string;
  h_product_url : string;
  h_variation_details : json;
  recorded_at : datetime
}.

Record ScraperRun : Type := mkScraperRun {
  run_id : string;
  run_vendor_id : string;
  status : string;
  products_scraped : Z;
  errors_count : Z;
  duration_seconds : option Z;
  error_details : option string;
  started_at : option datetime;
  completed_at : option datetime
}.

(** The session: one list of rows per table. *)
Record DB : Type := mkDB {
  categories : list Category;
  products : list Product;
  prices : list Price;
  price_history : list PriceHistory;
  scraper_runs : list ScraperRun
}.

Definition set_products (d : DB) (ps : list Product) : DB :=
  mkDB (categories d) ps (prices d) (price_history d) (scraper_runs d).
Definition set_prices (d : DB) (ps : list Price) : DB :=
  mkDB (categories d) (products d) ps (price_history d) (scraper_runs d).
Definition set_price_history (d : DB) (hs : list PriceHistory) : DB :=
  mkDB (categories d) (products d) (prices d) hs (scraper_runs d).
Definition set_scraper_runs (d : DB) (rs : list ScraperRun) : DB :=
  mkDB (categories d) (products d) (prices d) (price_history d) rs.

(** The filter [Price.product_id == pid and Price.vendor_id == vid]. *)
Definition price_of (pid vid : string) (p : Price) : bool :=
  String.eqb (price_product_id p) pid && String.eqb (price_vendor_id p) vid.

(** Oracles of one execution and the state they advance. *)
Record Env : Type := mkEnv {
  uuid4 : nat -> string;
  utcnow : nat -> datetime
}.

Record World : Type := mkWorld {
  db : DB;
  tick : nat
}.

End Models.

Import Models.

(* ================================================================== *)
(** ** backend/app/price_service.py                                    *)
(* ================================================================== *)

Module PriceService.

(** The [scraped_data] dictionary; [None] is an absent key. *)
Record scraped_data : Type := mkScraped {
  sd_price : option Q;
  sd_original_price : option Q;
  sd_stock_status : option string;
  sd_product_url : option string;
  sd_variations : option json
}.

(** [_archive_price_to_history]: the snapshot of a price row. *)
Definition _archive_price_to_history (price_record : Price) : PriceHistory :=
  mkPriceHistory
    (price_id price_record)
    (price_product_id price_record)
    (price_vendor_id price_record)
    (price price_record)
    (original_price price_record)
    (discount_percentage price_record)
    (stock_status price_record)
    (product_url price_record)
    (variation_details price_record)
    (last_updated_at price_record).

(** The discount of lines 44-49. *)
Definition calc_discount (new_price : Q) (new_original_price : option Q) : option Q :=
  match new_original_price with
  | Some o =>
      if truthy o && Qltb new_price o
      then Some (((o - new_price) / o) * 100)
      else None
  | None => None
  end.

(** [update_or_create_price].  A missing ['price'] key raises before any
    row is touched, and the handler rolls the session back. *)
Definition update_or_create_price (env : Env) (product_id vendor_id : string)
    (data : scraped_data) (w : World) : Exc (Price * World) :=
  let existing_price := find_index (price_of product_id vendor_id) (prices (db w)) in
  match sd_price data with
  | None => Raise "KeyError: 'price'"
  | Some new_price =>
      let new_original_price :=
        if truthy_opt (sd_original_price data) then sd_original_price data else None in
      let discount_percentage := calc_discount new_price new_original_price in
      match existing_price with
      | Some (i, existing) =>
          let price_changed := Qltb (1 # 100) (Qabs (price existing - new_price)) in
          let history :=
            if price_changed
            then price_history (db w) ++ [_archive_price_to_history existing]
            else price_history (db w) in
          let updated :=
            mkPrice (price_id existing) (price_product_id existing)
              (price_vendor_id existing)
              new_price new_original_price discount_percentage
              (get (sd_stock_status data) "in_stock")
              (get (sd_product_url data) (product_url existing))
              (get (sd_variations data) (JDict []))
              (utcnow env (tick w)) in
          let d := set_price_history (db w) history in
          let d := set_prices d (update_at i (fun _ => updated) (prices d)) in
          Ok (updated, mkWorld d (S (tick w)))
      | None =>
          let new_price_record :=
            mkPrice (uuid4 env (S (tick w))) product_id vendor_id
              new_price new_original_price discount_percentage
              (get (sd_stock_status data) "in_stock")
              (get (sd_product_url data) EmptyString)
              (get (sd_variations data) (JDict []))
              (utcnow env (tick w)) in
          let d := set_prices (db w) (prices (db w) ++ [new_price_record]) in
          Ok (new_price_record, mkWorld d (S (S (tick w))))
      end
  end.

(** [get_data_freshness_info]: age in hours and its class, per price. *)
Definition hours_old (now : datetime) (p : Price) : Q :=
  inject_Z (now - last_updated_at p) / inject_Z 1000000 / 3600.

Definition freshness_status (hours_old : Q) : string :=
  if Qltb 24 hours_old then "stale"
  else if Qltb 12 hours_old then "aging"
  else "fresh".

Record freshness_item : Type := mkFreshness {
  f_last_updated : datetime;
  f_hours_old : Q;
  f_freshness_status : string
}.

Definition freshness_data (now : datetime) (ps : list Price) : list freshness_item :=
  map (fun p => mkFreshness (last_updated_at p) (round1 (hours_old now p))
                  (freshness_status (hours_old now p))) ps.

End PriceService.

(* ================================================================== *)
(** ** backend/app/pricing_engine.py                                   *)
(* ================================================================== *)

Module PricingEngine.

(** One entry of the list that [get_price_history] returns. *)
Record history_point : Type := mkPoint {
  hp_vendor_id : string;
  hp_price : Q;
  hp_original_price : option Q;
  hp_timestamp : datetime;
  hp_stock_status : string
}.

(** Stable insertion sort by an integer key, ascending
    ([list.sort(key=...)]) and descending ([order_by(... .desc())]). *)
Section Sorting.
Variable A : Type.
Variable key : A -> Z.

Fixpoint insert_asc (x : A) (l : list A) : list A :=
  match l with
  | [] => [x]
  | y :: t => if (key x <=? key y)%Z then x :: y :: t else y :: insert_asc x t
  end.

Fixpoint insert_desc (x : A) (l : list A) : list A :=
  match l with
  | [] => [x]
  | y :: t => if (key y <=? key x)%Z then x :: y :: t else y :: insert_desc x t
  end.

Definition sort_asc (l : list A) : list A := fold_right insert_asc [] l.
Definition sort_desc (l : list A) : list A := fold_right insert_desc [] l.
End Sorting.

Definition days (n : Z) : Z := (n * 86400 * 1000000)%Z.

(** [get_price_history]: the current prices of the product updated within
    the last [days_] days, most recently updated first. *)
Definition get_price_history (now : datetime) (d : DB) (product_id : string)
    (days_ : Z) : list history_point :=
  let cutoff_date := (now - days days_)%Z in
  let rows :=
    filter (fun p => String.eqb (price_product_id p) product_id
                     && (cutoff_date <=? last_updated_at p)%Z) (prices d) in
  map (fun p => mkPoint (price_vendor_id p) (price p)
                  (if truthy_opt (original_price p) then original_price p else None)
                  (last_updated_at p) (stock_status p))
      (sort_desc last_updated_at rows).

(** [statistics.mean] of a non-empty list. *)
Definition mean (l : list Q) : Q :=
  fold_right Qplus 0 l / inject_Z (Z.of_nat (List.length l)).

(** The slices [l[-n:]] and [l[:n]]. *)
Definition last_n {A : Type} (n : nat) (l : list A) : list A :=
  skipn (List.length l - n) l.
Definition first_n {A : Type} (n : nat) (l : list A) : list A := firstn n l.

Record vendor_trend : Type := mkVendorTrend {
  vt_trend : string;
  vt_price_change : Q;
  vt_percentage_change : Q;
  vt_current_price : Q;
  vt_previous_price : Q;
  vt_data_points : nat
}.

Record market_trend : Type := mkMarketTrend {
  direction : string;
  percentage_change : Q;
  recent_average : Q;
  historical_average : Q
}.

Inductive trends : Type :=
| InsufficientData
| Trends (vendor_trends : list (string * vendor_trend))
         (overall_market_trend : market_trend).

(** The trend of one vendor (lines 109-134): newest against oldest. *)
Definition vendor_direction (percentage_change : Q) : string :=
  if Qltb (Qabs percentage_change) 2 then "stable"
  else if Qltb 0 percentage_change then "increasing"
  else "decreasing".

Definition vendor_trend_of (price_history : list history_point) (vendor_id : string)
    : Exc (option vendor_trend) :=
  let vendor_history :=
    sort_asc hp_timestamp
      (filter (fun h => String.eqb (hp_vendor_id h) vendor_id) price_history) in
  match vendor_history with
  | [] | [_] => Ok None
  | first :: _ =>
      let recent_price := hp_price (last vendor_history first) in
      let older_price := hp_price first in
      let price_change := recent_price - older_price in
      if Qeq_bool older_price 0 then Raise "ZeroDivisionError"
      else
        let percentage_change := (price_change / older_price) * 100 in
        Ok (Some (mkVendorTrend (vendor_direction percentage_change) price_change
                    (round2 percentage_change) recent_price older_price
                    (List.length vendor_history)))
  end.

Fixpoint vendor_trends_of (price_history : list history_point)
    (vendor_ids : list string) : Exc (list (string * vendor_trend)) :=
  match vendor_ids with
  | [] => Ok []
  | v :: rest =>
      (t <- vendor_trend_of price_history v ;;
       ts <- vendor_trends_of price_history rest ;;
       Ok match t with
          | Some vt => (v, vt) :: ts
          | None => ts
          end)%exc
  end.

(** The overall market trend (lines 136-150). *)
Definition market_direction (overall_change : Q) : string :=
  if Qltb 2 overall_change then "increasing"
  else if Qltb overall_change (-2) then "decreasing"
  else "stable".

Definition all_recent_prices (price_history : list history_point) : list Q :=
  map hp_price (last_n 10 price_history).
Definition all_older_prices (price_history : list history_point) : list Q :=
  map hp_price (first_n 10 price_history).

Definition overall_change (price_history : list history_point) : Q :=
  let recent_avg := mean (all_recent_prices price_history) in
  let older_avg := mean (all_older_prices price_history) in
  ((recent_avg - older_avg) / older_avg) * 100.

Definition overall_trend_of (price_history : list history_point) : Exc market_trend :=
  let recent_avg := mean (all_recent_prices price_history) in
  let older_avg := mean (all_older_prices price_history) in
  if Qeq_bool older_avg 0 then Raise "ZeroDivisionError"
  else
    Ok (mkMarketTrend (market_direction (overall_change price_history))
          (round2 (overall_change price_history))
          (round2 recent_avg) (round2 older_avg)).

(** [calculate_price_trends]. *)
Definition calculate_price_trends (price_history : list history_point) : Exc trends :=
  if (List.length price_history <? 2)%nat then Ok InsufficientData
  else
    (vts <- vendor_trends_of price_history
              (nodup string_dec (map hp_vendor_id price_history)) ;;
     overall <- overall_trend_of price_history ;;
     Ok (Trends vts overall))%exc.

End PricingEngine.

(* ================================================================== *)
(** ** scrapers/base.py                                                *)
(* ================================================================== *)

Module BaseScraper.

(** The dataclass [ScrapedProduct].  Its annotations are not enforced:
    a missing name is [None]. *)
Record ScrapedProduct : Type := mkScrapedProduct {
  sp_name : option string;
  sp_price : Q;
  sp_original_price : option Q;
  sp_stock_status : string;
  sp_product_url : string;
  sp_image_url : option string;
  sp_variations : json
}.

(** The abstract [search_product]; the first argument is the tick at
    which the request is made. *)
Record Scraper : Type := mkScraper {
  search_product : nat -> string -> Exc (list ScrapedProduct)
}.

Definition digit : regex := Chr is_digit.
Definition comma : regex := Chr (Ascii.eqb ","%char).
Definition dot : regex := Chr (Ascii.eqb "."%char).

(** [\d{1,3}], [\d{3}], [\d{2}] *)
Definition digit_1_3 : regex := Seq digit (Opt (Seq digit (Opt digit))).
Definition digit_3 : regex := Seq digit (Seq digit digit).
Definition digit_2 : regex := Seq digit digit.

(** [\d{1,3}(?:,\d{3})*] *)
Definition grouped : regex := Seq digit_1_3 (Star (Seq comma digit_3)).

Definition price_patterns : list regex :=
  [ Seq grouped (Seq dot digit_2);        (* 1,234.56 *)
    grouped;                              (* 1,234 *)
    Seq (Plus digit) (Seq dot digit_2);   (* 123.45 *)
    Plus digit ].                         (* 123 *)

Definition is_price_char (c : ascii) : bool :=
  is_digit c || Ascii.eqb c "."%char || Ascii.eqb c ","%char.

(** [re.sub(r'[^\d.,]', '', price_text.strip())] *)
Definition clean (price_text : string) : string :=
  filter_chars is_price_char (strip price_text).

Definition remove_commas (s : string) : string :=
  filter_chars (fun c => negb (Ascii.eqb c ","%char)) s.

(** The loop over the patterns; a failing conversion moves on to the
    next pattern. *)
Fixpoint first_price (patterns : list regex) (cleaned : string) : Exc (option Q) :=
  match patterns with
  | [] => Ok None
  | pattern :: rest =>
      match search pattern cleaned with
      | Some group1 =>
          match Decimal (remove_commas group1) with
          | Ok d => Ok (Some d)
          | Raise _ => first_price rest cleaned
          end
      | None => first_price rest cleaned
      end
  end.

Definition normalize_price (price_text : string) : Exc (option Q) :=
  if String.eqb price_text EmptyString then Ok None
  else first_price price_patterns (clean price_text).

End BaseScraper.

Import BaseScraper.

(* ================================================================== *)
(** ** backend/run_scrapers.py                                         *)
(* ================================================================== *)

(** The pipeline on a database that accepts every commit: [db.commit()]
    returns, and a world holds the tables that the matcher and the stores
    write.  The session with its failing commits, the vendors table and
    [_ensure_vendors_exist] are in [Session] below, which calls the
    functions of this module. *)
Module RunScrapers.

(** The three measures of the [fuzzywuzzy] package that the matcher calls. *)
Class Fuzz : Type := mkFuzz {
  ratio : string -> string -> Z;
  token_sort_ratio : string -> string -> Z;
  partial_ratio : string -> string -> Z
}.

(** *** ProductMatcher *)

Definition brands : list string :=
  ["apple"; "samsung"; "sony"; "bose"; "dell"; "hp"; "lenovo"; "microsoft"; "jbl"].

Definition product_types : list string :=
  ["macbook"; "iphone"; "ipad"; "airpods"; "surface"; "xps"; "thinkpad";
   "headphones"; "earbuds"; "speaker"].

Definition alts (l : list string) : regex :=
  match l with
  | [] => Eps
  | x :: t => fold_left (fun r y => Alt r (Lit y)) t (Lit x)
  end.

Definition model_patterns : list regex :=
  [ (* m[1-4](?:\s+(?:pro|max|ultra))? *)
    Seq (Lit "m")
      (Seq (Chr (fun c => (49 <=? nat_of_ascii c)%nat && (nat_of_ascii c <=? 52)%nat))
         (Opt (Seq (Plus (Chr is_space)) (alts ["pro"; "max"; "ultra"]))));
    (* \d+(?:\.\d+)?[Q\-]?(?:inch)?  with Q the double quote *)
    Seq (Plus digit)
      (Seq (Opt (Seq dot (Plus digit)))
         (Seq (Opt (Chr (fun c => (nat_of_ascii c =? 34)%nat || Ascii.eqb c "-"%char)))
            (Opt (Lit "inch"))));
    (* pro|air|max|mini|plus *)
    alts ["pro"; "air"; "max"; "mini"; "plus"];
    (* \d+gb|\d+tb *)
    Alt (Seq (Plus digit) (Lit "gb")) (Seq (Plus digit) (Lit "tb")) ].

Definition _extract_product_keywords (product_name : string) : list string :=
  let name := lower product_name in
  let keywords :=
    filter (fun brand => contains brand name) brands
    ++ filter (fun ptype => contains ptype name) product_types
    ++ flat_map (fun pattern => findall pattern name) model_patterns in
  map strip (filter (fun k => negb (String.eqb (strip k) EmptyString)) keywords).

(** [len(set(a) & set(b))] *)
Definition common_count (a b : list string) : nat :=
  List.length (nodup string_dec (filter (fun k => existsb (String.eqb k) b) a)).

Definition keyword_score (a b : list string) : Q :=
  (inject_Z (Z.of_nat (common_count a b))
   / inject_Z (Z.of_nat (Nat.max (List.length a) (List.length b)))) * 100.

(** [max] of a non-empty list: the first greatest element. *)
Definition py_max (x : Q) (l : list Q) : Q :=
  fold_left (fun m y => if Qltb m y then y else m) l x.

Section Pipeline.
Context {fuzz : Fuzz}.
Variable env : Env.
Variable similarity_threshold : Z.

(** The list [scores] that the loop body builds for one product. *)
Definition measures (name : string) (product_keywords : list string)
    (product : Product) : list Q :=
  let a := lower name in
  let b := lower (product_name product) in
  let product_product_keywords := _extract_product_keywords (product_name product) in
  [inject_Z (ratio a b); inject_Z (token_sort_ratio a b); inject_Z (partial_ratio a b)]
  ++ (match product_keywords, product_product_keywords with
      | _ :: _, _ :: _ => [keyword_score product_keywords product_product_keywords]
      | _, _ => []
      end).

Definition composite_score (name : string) (product_keywords : list string)
    (product : Product) : Q :=
  match measures name product_keywords product with
  | [] => 0
  | x :: l => py_max x l
  end.

(** One iteration of the loop, on the pair [(best_match, best_score)];
    an ORM object is a row together with its position in the table. *)
Definition consider (name : string) (product_keywords : list string)
    (best : option (nat * Product) * Q) (candidate : nat * Product)
    : option (nat * Product) * Q :=
  let score := composite_score name product_keywords (snd candidate) in
  if Qltb (snd best) score && Qle_bool (inject_Z similarity_threshold) score
  then (Some candidate, score)
  else best.

Definition enumerate {A : Type} (l : list A) : list (nat * A) :=
  combine (seq 0 (List.length l)) l.

Definition best_match (name : string) (existing_products : list Product)
    : option (nat * Product) * Q :=
  fold_left (consider name (_extract_product_keywords name))
    (enumerate existing_products) (None, 0).

Definition category_keywords : list (string * list string) :=
  [ ("laptops", ["laptop"; "macbook"; "notebook"; "ultrabook"; "chromebook"]);
    ("headphones", ["headphone"; "earphone"; "earbud"; "airpods"; "headset"]);
    ("speakers", ["speaker"; "soundbar"; "bluetooth speaker"; "wireless speaker"]) ].

Definition category_named (d : DB) (n : string) : option Category :=
  find (fun c => String.eqb (category_name c) n) (categories d).

Fixpoint first_category (d : DB) (name_lower : string)
    (l : list (string * list string)) : option Category :=
  match l with
  | [] => category_named d "laptops"
  | (category_name, keywords) :: rest =>
      if existsb (fun keyword => contains keyword name_lower) keywords
      then match category_named d category_name with
           | Some c => Some c
           | None => first_category d name_lower rest
           end
      else first_category d name_lower rest
  end.

Definition _determine_category (product_name : string) (d : DB) : option Category :=
  first_category d (lower product_name) category_keywords.

Definition common_brands : list string :=
  ["Apple"; "Samsung"; "Sony"; "Bose"; "Dell"; "HP"; "Lenovo";
   "ASUS"; "Acer"; "Microsoft"; "Google"; "Amazon"; "JBL"; "Beats"].

Fixpoint brand_of_words (name_words : list string) : option string :=
  match name_words with
  | [] => None
  | word :: rest =>
      match find (fun brand => String.eqb (lower word) (lower brand)) common_brands with
      | Some brand => Some brand
      | None => brand_of_words rest
      end
  end.

Definition _extract_brand (product_name : string) : string :=
  let name_words := split product_name in
  match brand_of_words name_words with
  | Some brand => brand
  | None => match name_words with w :: _ => w | [] => "Unknown" end
  end.

(** [_create_new_product]: the new row goes last. *)
Definition _create_new_product (name : string) (scraped_product : ScrapedProduct)
    (w : World) : nat * Product * World :=
  let category := _determine_category name (db w) in
  let brand := _extract_brand name in
  let new_product :=
    mkProduct (uuid4 env (tick w)) name brand
      (match category with Some c => Some (category_id c) | None => None end)
      (sp_image_url scraped_product) 1 in
  (List.length (products (db w)), new_product,
   mkWorld (set_products (db w) (products (db w) ++ [new_product])) (S (tick w))).

(** [find_matching_product]: the matched or the newly created product.
    [None.lower()] raises. *)
Definition find_matching_product (scraped_product : ScrapedProduct) (w : World)
    : Exc (nat * Product * World) :=
  match sp_name scraped_product with
  | None => Raise "AttributeError: 'NoneType' object has no attribute 'lower'"
  | Some name =>
      match fst (best_match name (products (db w))) with
      | Some (i, product) => Ok (i, product, w)
      | None => Ok (_create_new_product name scraped_product w)
      end
  end.

(** *** ScraperPipeline *)

(** The discount of lines 318-320 and 324-326. *)
Definition discount_of (scraped_product : ScrapedProduct) : option Q :=
  match sp_original_price scraped_product with
  | Some o =>
      if truthy o && truthy (sp_price scraped_product)
      then Some (round2 (((o - sp_price scraped_product) / o) * 100))
      else None
  | None => None
  end.

Definition increment_popularity (p : Product) : Product :=
  mkProduct (product_id p) (product_name p) (product_brand p)
    (product_category_id p) (product_image_url p) (popularity_score p + 1).

Definition _store_product_data (scraped_product : ScrapedProduct) (vendor : Vendor)
    (w : World) : Exc World :=
  (r <- find_matching_product scraped_product w ;;
   let '(i, product, w) := r in
   let existing_price :=
     find_index (price_of (product_id product) (vendor_id vendor)) (prices (db w)) in
   let w :=
     match existing_price with
     | Some (j, existing) =>
         let updated :=
           mkPrice (price_id existing) (price_product_id existing)
             (price_vendor_id existing)
             (sp_price scraped_product)
             (sp_original_price scraped_product)
             (match discount_of scraped_product with
              | Some d => Some d
              | None => discount_percentage existing
              end)
             (sp_stock_status scraped_product)
             (sp_product_url scraped_product)
             (variation_details existing)
             (utcnow env (tick w)) in
         mkWorld (set_prices (db w) (update_at j (fun _ => updated) (prices (db w))))
           (S (tick w))
     | None =>
         let new_price :=
           mkPrice (uuid4 env (tick w)) (product_id product) (vendor_id vendor)
             (sp_price scraped_product)
             (sp_original_price scraped_product)
             (discount_of scraped_product)
             (sp_stock_status scraped_product)
             (sp_product_url scraped_product)
             (sp_variations scraped_product)
             (utcnow env (S (tick w))) in
         mkWorld (set_prices (db w) (prices (db w) ++ [new_price])) (S (S (tick w)))
     end in
   Ok (mkWorld (set_products (db w)
                  (update_at i increment_popularity (products (db w))))
         (tick w)))%exc.

Record vendor_results : Type := mkVendorResults {
  vr_products_scraped : Z;
  vr_errors : Z
}.

(** The inner loop of [_run_vendor_scraper]: one [try] per product. *)
Fixpoint store_loop (scraped_products : list ScrapedProduct) (vendor : Vendor)
    (acc : vendor_results) (w : World) : vendor_results * World :=
  match scraped_products with
  | [] => (acc, w)
  | scraped_product :: rest =>
      match _store_product_data scraped_product vendor w with
      | Ok w' =>
          store_loop rest vendor
            (mkVendorResults (vr_products_scraped acc + 1) (vr_errors acc)) w'
      | Raise _ =>
          store_loop rest vendor
            (mkVendorResults (vr_products_scraped acc) (vr_errors acc + 1)) w
      end
  end.

(** The outer loop: one [try] per query. *)
Fixpoint query_loop (scraper : Scraper) (vendor : Vendor) (queries : list string)
    (acc : vendor_results) (w : World) : vendor_results * World :=
  match queries with
  | [] => (acc, w)
  | query :: rest =>
      let w1 := mkWorld (db w) (S (tick w)) in
      match search_product scraper (tick w) query with
      | Ok scraped_products =>
          let '(acc, w2) := store_loop scraped_products vendor acc w1 in
          query_loop scraper vendor rest acc w2
      | Raise _ =>
          query_loop scraper vendor rest
            (mkVendorResults (vr_products_scraped acc) (vr_errors acc + 1)) w1
      end
  end.

(** What happened in each [try] block of the two loops, in order. *)
Inductive outcome : Type :=
| Stored
| StoreFailed
| QueryFailed.

Definition is_stored (o : outcome) : bool :=
  match o with Stored => true | _ => false end.
Definition is_store_failed (o : outcome) : bool :=
  match o with StoreFailed => true | _ => false end.
Definition is_query_failed (o : outcome) : bool :=
  match o with QueryFailed => true | _ => false end.

Definition count (p : outcome -> bool) (log : list outcome) : Z :=
  Z.of_nat (List.length (filter p log)).

Fixpoint store_outcomes (scraped_products : list ScrapedProduct) (vendor : Vendor)
    (w : World) : list outcome * World :=
  match scraped_products with
  | [] => ([], w)
  | scraped_product :: rest =>
      match _store_product_data scraped_product vendor w with
      | Ok w' =>
          let '(log, w2) := store_outcomes rest vendor w' in (Stored :: log, w2)
      | Raise _ =>
          let '(log, w2) := store_outcomes rest vendor w in (StoreFailed :: log, w2)
      end
  end.

Fixpoint query_outcomes (scraper : Scraper) (vendor : Vendor) (queries : list string)
    (w : World) : list outcome * World :=
  match queries with
  | [] => ([], w)
  | query :: rest =>
      let w1 := mkWorld (db w) (S (tick w)) in
      match search_product scraper (tick w) query with
      | Ok scraped_products =>
          let '(log1, w2) := store_outcomes scraped_products vendor w1 in
          let '(log2, w3) := query_outcomes scraper vendor rest w2 in
          (log1 ++ log2, w3)
      | Raise _ =>
          let '(log, w3) := query_outcomes scraper vendor rest w1 in
          (QueryFailed :: log, w3)
      end
  end.

(** [_run_vendor_scraper]: the outcome and the world it leaves. *)
Definition _run_vendor_scraper (scraper : Scraper) (vendor : Vendor)
    (queries : list string) (w : World) : Exc vendor_results * World :=
  let '(r, w) := query_loop scraper vendor queries (mkVendorResults 0 0) w in
  (Ok r, w).

(** [int(timedelta.total_seconds())] *)
Definition whole_seconds (delta : Z) : Z := Z.quot delta 1000000.

Definition duration_of (r : ScraperRun) (completed : datetime) : option Z :=
  match started_at r with
  | Some s => Some (whole_seconds (completed - s))
  | None => duration_seconds r
  end.

Definition _start_scraper_run (vendor : Vendor) (w : World) : nat * World :=
  let scraper_run :=
    mkScraperRun (uuid4 env (tick w)) (vendor_id vendor) "running" 0 0 None None
      (Some (utcnow env (S (tick w)))) None in
  (List.length (scraper_runs (db w)),
   mkWorld (set_scraper_runs (db w) (scraper_runs (db w) ++ [scraper_run]))
     (S (S (tick w)))).

Definition _complete_scraper_run (scraper_run : nat) (results : vendor_results)
    (w : World) : World :=
  let now := utcnow env (tick w) in
  let complete r :=
    mkScraperRun (run_id r) (run_vendor_id r) "completed"
      (vr_products_scraped results) (vr_errors results)
      (duration_of r now) (error_details r) (started_at r) (Some now) in
  mkWorld (set_scraper_runs (db w) (update_at scraper_run complete (scraper_runs (db w))))
    (S (tick w)).

Definition _fail_scraper_run (scraper_run : nat) (error_message : string)
    (w : World) : World :=
  let now := utcnow env (tick w) in
  let fail r :=
    mkScraperRun (run_id r) (run_vendor_id r) "failed"
      (products_scraped r) (errors_count r)
      (duration_of r now) (Some error_message) (started_at r) (Some now) in
  mkWorld (set_scraper_runs (db w) (update_at scraper_run fail (scraper_runs (db w))))
    (S (tick w)).

Record results : Type := mkResults {
  total_products : Z;
  total_errors : Z;
  all_vendor_results : list (string * vendor_results)
}.

(** The [try] ... [except] that closes a run, on the outcome of its body. *)
Definition close_run (scraper_run : nat) (vendor : Vendor)
    (outcome : Exc vendor_results) (res : results) (w : World) : results * World :=
  match outcome with
  | Ok r =>
      (mkResults (total_products res + vr_products_scraped r) (total_errors res)
         (all_vendor_results res ++ [(vendor_name vendor, r)]),
       _complete_scraper_run scraper_run r w)
  | Raise e =>
      (mkResults (total_products res) (total_errors res + 1) (all_vendor_results res),
       _fail_scraper_run scraper_run e w)
  end.

(** The body of the loop of [run_all_scrapers], for one vendor. *)
Definition run_vendor (vendor : Vendor) (scraper : Scraper) (queries : list string)
    (res : results) (w : World) : results * World :=
  let '(scraper_run, w) := _start_scraper_run vendor w in
  let '(outcome, w) := _run_vendor_scraper scraper vendor queries w in
  close_run scraper_run vendor outcome res w.

(** The loop of [run_all_scrapers] over the scrapers (lines 243-268), each
    with the vendor row that line 246 finds; the whole function is
    [Session.run_all_scrapers]. *)
Fixpoint run_all_scrapers (scrapers : list (Vendor * Scraper)) (queries : list string)
    (res : results) (w : World) : results * World :=
  match scrapers with
  | [] => (res, w)
  | (vendor, scraper) :: rest =>
      let '(res, w) := run_vendor vendor scraper queries res w in
      run_all_scrapers rest queries res w
  end.

End Pipeline.

End RunScrapers.

(* ================================================================== *)
(** ** Example data                                                    *)
(* ================================================================== *)

Module Examples.

Import PriceService RunScrapers PricingEngine.

(** Measures for the examples: 100 on equal texts and 0 otherwise.  The
    examples compare a name with itself, or names without a common
    character. *)
Definition same_or_nothing (a b : string) : Z :=
  if String.eqb a b then 100%Z else 0%Z.

#[export] Instance ex_fuzz : Fuzz :=
  mkFuzz same_or_nothing same_or_nothing same_or_nothing.

Definition ex_env : Env :=
  mkEnv (fun n => ("uuid-" ++ String (ascii_of_nat (97 + n)) EmptyString)%string)
        (fun n => (100 * hour + Z.of_nat n * 1000000)%Z).

Definition amazon : Vendor := mkVendor "v-amazon" "amazon".

Definition sony : Product :=
  mkProduct "p-sony" "Sony WH-1000XM4" "Sony" (Some "c-headphones") None 5.

(** The current price of [sony] at [amazon]: 75.00 against a list price
    of 100.00, a discount of 25.00. *)
Definition sony_at_amazon : Price :=
  mkPrice "pr-1" "p-sony" "v-amazon" 75 (Some 100) (Some 25) "in_stock"
    "https://www.amazon.com/dp/B0863TXGM3" (JList [JDict [("color", JStr "black")]])
    (90 * hour)%Z.

Definition ex_db : DB :=
  mkDB [mkCategory "c-laptops" "laptops"; mkCategory "c-headphones" "headphones"]
    [sony] [sony_at_amazon] [] [].

Definition ex_world : World := mkWorld ex_db 0.

Definition empty_world : World :=
  mkWorld (mkDB [mkCategory "c-laptops" "laptops"] [] [] [] []) 0.

(** The same product seen again at 80.00, without a list price and with
    another variation. *)
Definition sony_again : ScrapedProduct :=
  mkScrapedProduct (Some "Sony WH-1000XM4") 80 None "limited_stock"
    "https://www.amazon.com/dp/B0863TXGM3?th=1" None
    (JList [JDict [("color", JStr "silver")]]).

Definition sony_again_data : scraped_data :=
  mkScraped (Some 80) None (Some "limited_stock")
    (Some "https://www.amazon.com/dp/B0863TXGM3?th=1")
    (Some (JList [JDict [("color", JStr "silver")]])).

(** The same product at its list price, 100.00 with a list price of 100.00. *)
Definition sony_no_reduction : ScrapedProduct :=
  mkScrapedProduct (Some "Sony WH-1000XM4") 100 (Some 100) "in_stock"
    "https://www.amazon.com/dp/B0863TXGM3" None (JList []).

(** An observation without a name, one with an empty name and the price
    0, and one priced below 0. *)
Definition nameless : ScrapedProduct :=
  mkScrapedProduct None 10 None "in_stock" "https://example.com/a" None (JList []).
Definition empty_free : ScrapedProduct :=
  mkScrapedProduct (Some EmptyString) 0 None "in_stock" "https://example.com/b" None
    (JList []).
Definition negative : ScrapedProduct :=
  mkScrapedProduct (Some "Gift card") (-5) None "in_stock" "https://example.com/c" None
    (JList []).

(** A catalog of one product and an observation that shares no character
    with it. *)
Definition abc : Product := mkProduct "p-abc" "abc" "abc" None None 1.
Definition xyz : ScrapedProduct :=
  mkScrapedProduct (Some "xyz") 10 None "in_stock" "https://example.com/xyz" None
    (JList []).
Definition abc_world : World := mkWorld (mkDB [] [abc] [] [] []) 0.

(** Eleven vendors price one product at 100.00; the vendor updated last,
    at hour 11, has raised its price to 200.00. *)
Definition flat_price (k : nat) : Price :=
  mkPrice ("pr-" ++ String (ascii_of_nat (97 + k)) EmptyString)%string "p-sony"
    ("v-" ++ String (ascii_of_nat (97 + k)) EmptyString)%string
    (if (k =? 11)%nat then 200 else 100) None None "in_stock" "https://example.com"
    (JList []) (Z.of_nat k * hour)%Z.

Definition rising_db : DB :=
  mkDB [] [sony] (map flat_price (seq 1 11)) [] [].

(** A scraper for ten queries: three of them fail, the others return one
    product. *)
Definition flaky : Scraper :=
  mkScraper (fun _ q =>
    if existsb (String.eqb q) ["q2"; "q5"; "q7"] then Raise "ConnectionError"
    else Ok [mkScrapedProduct (Some q) 10 None "in_stock" "https://example.com/q"
               None (JList [])]).

Definition ten_queries : list string :=
  ["q0"; "q1"; "q2"; "q3"; "q4"; "q5"; "q6"; "q7"; "q8"; "q9"].

End Examples.

(* ================================================================== *)
(** ** backend/app/price_service.py, the queries                       *)
(* ================================================================== *)

Module PriceQueries.

Import PriceService.

(** [cleanup_old_history]: the number of rows deleted and the world left. *)
Definition cleanup_old_history (env : Env) (days_to_keep : Z) (w : World) : Z * World :=
  let cutoff_date := (utcnow env (tick w) - PricingEngine.days days_to_keep)%Z in
  let old h := (recorded_at h <? cutoff_date)%Z in
  let deleted_count := Z.of_nat (List.length (filter old (price_history (db w)))) in
  (deleted_count,
   mkWorld (set_price_history (db w)
              (filter (fun h => negb (old h)) (price_history (db w))))
     (S (tick w))).

(** [get_price_history]: the history rows of a pair recorded within the
    last [days_back] days, most recent first. *)
Definition get_price_history (now : datetime) (d : DB) (product_id vendor_id : string)
    (days_back : Z) : list PriceHistory :=
  let cutoff_date := (now - PricingEngine.days days_back)%Z in
  PricingEngine.sort_desc recorded_at
    (filter (fun h => String.eqb (h_product_id h) product_id
                      && String.eqb (h_vendor_id h) vendor_id
                      && (cutoff_date <=? recorded_at h)%Z)
       (price_history d)).

(** [max] and [min] of a non-empty list of numbers. *)
Definition py_max_list (x : Q) (l : list Q) : Q :=
  fold_left (fun m y => if Qltb m y then y else m) l x.
Definition py_min_list (x : Q) (l : list Q) : Q :=
  fold_left (fun m y => if Qltb y m then y else m) l x.

Record freshness_statistics : Type := mkStatistics {
  average_age_hours : Q;
  oldest_data_hours : Q;
  newest_data_hours : Q;
  total_vendors : nat
}.

Inductive freshness_info : Type :=
| NoPriceData
| FreshnessInfo (vendor_data : list freshness_item) (statistics : freshness_statistics).

(** [get_data_freshness_info], on the price rows that its query returns
    (lines 280-318). *)
Definition get_data_freshness_info (now : datetime) (rows : list Price) : freshness_info :=
  match freshness_data now rows with
  | [] => NoPriceData
  | item :: items =>
      let hours_old_list := map f_hours_old (item :: items) in
      let avg_age :=
        fold_right Qplus 0 hours_old_list
        / inject_Z (Z.of_nat (List.length hours_old_list)) in
      let oldest_age := py_max_list (f_hours_old item) (map f_hours_old items) in
      let newest_age := py_min_list (f_hours_old item) (map f_hours_old items) in
      FreshnessInfo (item :: items)
        (mkStatistics (round1 avg_age) (round1 oldest_age) (round1 newest_age)
           (List.length (item :: items)))
  end.

End PriceQueries.

(* ================================================================== *)
(** ** backend/app/pricing_engine.py, the deals                        *)
(* ================================================================== *)

Module Deals.

Import PricingEngine.

Section ByKey.
Variable A : Type.
Variable key : A -> Q.

(** [sorted(l, key=key)]: stable, ascending. *)
Fixpoint insert_by (x : A) (l : list A) : list A :=
  match l with
  | [] => [x]
  | y :: t => if Qle_bool (key x) (key y) then x :: y :: t else y :: insert_by x t
  end.

Definition sorted_by (l : list A) : list A := fold_right insert_by [] l.

(** [min(l, key=key)] and [max(l, key=key)] of a non-empty list: the first
    least and the first greatest element. *)
Definition min_by (x : A) (l : list A) : A :=
  fold_left (fun m y => if Qltb (key y) (key m) then y else m) l x.
Definition max_by (x : A) (l : list A) : A :=
  fold_left (fun m y => if Qltb (key m) (key y) then y else m) l x.

Definition min_of (l : list A) : option A :=
  match l with [] => None | x :: t => Some (min_by x t) end.
Definition max_of (l : list A) : option A :=
  match l with [] => None | x :: t => Some (max_by x t) end.
End ByKey.

Inductive historical_best : Type :=
| NotAvailable
| Available (historical_best_price : Q) (historical_best_vendor : string)
            (historical_best_date : datetime) (current_best_price : Q)
            (difference_from_historical : Q) (is_current_best_historical : bool).

(** [find_historical_best_deal] *)
Definition find_historical_best_deal (now : datetime) (price_history : list history_point)
    : historical_best :=
  match min_of hp_price price_history with
  | None => NotAvailable
  | Some lowest_price_record =>
      let current_prices :=
        filter (fun h => (now - days 1 <=? hp_timestamp h)%Z) price_history in
      match min_of hp_price current_prices with
      | Some current_best =>
          Available (hp_price lowest_price_record) (hp_vendor_id lowest_price_record)
            (hp_timestamp lowest_price_record) (hp_price current_best)
            (round2 (hp_price current_best - hp_price lowest_price_record))
            (Qle_bool (hp_price current_best) (hp_price lowest_price_record))
      | None => NotAvailable
      end
  end.

Record absolute_best_deal : Type := mkAbsoluteBest {
  ab_vendor_id : string;
  ab_price : Q;
  ab_stock_status : string;
  ab_is_available : bool
}.

Record best_discount_deal : Type := mkBestDiscount {
  bd_vendor_id : string;
  bd_price : Q;
  bd_original_price : option Q;
  bd_discount_percentage : Q;
  bd_savings_amount : Q
}.

Record best_available_deal : Type := mkBestAvailable {
  ba_vendor_id : string;
  ba_price : Q;
  ba_stock_status : string
}.

Record best_deals : Type := mkBestDeals {
  absolute_best : absolute_best_deal;
  best_discount : option best_discount_deal;
  best_available : option best_available_deal;
  historical_context : historical_best
}.

Definition in_stock (p : Price) : bool := String.eqb (stock_status p) "in_stock".

Definition discount_key (p : Price) : Q := Py.get (discount_percentage p) 0.

(** [identify_best_deals]; [None] is the empty dictionary. *)
Definition identify_best_deals (now : datetime) (current_prices : list Price)
    (price_history : list history_point) : option best_deals :=
  match sorted_by price current_prices with
  | [] => None
  | absolute_best :: _ =>
      let best_discount :=
        max_of discount_key
          (filter (fun p => truthy_opt (discount_percentage p)) current_prices) in
      let in_stock_prices := filter in_stock current_prices in
      let best_available := min_of price in_stock_prices in
      let historical_best := find_historical_best_deal now price_history in
      Some (mkBestDeals
              (mkAbsoluteBest (price_vendor_id absolute_best) (price absolute_best)
                 (stock_status absolute_best) (in_stock absolute_best))
              (match best_discount with
               | Some b =>
                   Some (mkBestDiscount (price_vendor_id b) (price b)
                           (if truthy_opt (original_price b) then original_price b
                            else None)
                           (discount_key b)
                           (match original_price b with
                            | Some o => if truthy o then o - price b else 0
                            | None => 0
                            end))
               | None => None
               end)
              (match best_available with
               | Some b => Some (mkBestAvailable (price_vendor_id b) (price b)
                                   (stock_status b))
               | None => None
               end)
              historical_best)
  end.

Record vendor_saving : Type := mkVendorSaving {
  vs_vendor_id : string;
  their_price : Q;
  best_price : Q;
  savings_amount : Q;
  savings_percentage : Q;
  vs_stock_status : string
}.

Inductive savings : Type :=
| NoSavings
| Savings (savings_available : bool) (maximum_amount maximum_percentage : Q)
          (cheapest_vendor most_expensive_vendor : string)
          (savings_vs_vendors : list vendor_saving)
          (best_deal_vendor : string) (best_deal_price : Q)
          (best_deal_available : bool).

(** The loop over [sorted_prices[1:]]; a price of 0 divides by zero. *)
Fixpoint savings_vs (cheapest : Price) (others : list Price) : Exc (list vendor_saving) :=
  match others with
  | [] => Ok []
  | p :: rest =>
      let savings_amount := price p - price cheapest in
      if Qeq_bool (price p) 0 then Raise "ZeroDivisionError"
      else
        let savings_percentage := (savings_amount / price p) * 100 in
        (entries <- savings_vs cheapest rest ;;
         Ok (mkVendorSaving (price_vendor_id p) (price p) (price cheapest)
               (round2 savings_amount) (round2 savings_percentage) (stock_status p)
             :: entries))%exc
  end.

(** [calculate_savings_opportunities] *)
Definition calculate_savings_opportunities (current_prices : list Price) : Exc savings :=
  if (List.length current_prices <? 2)%nat then Ok NoSavings
  else
    match sorted_by price current_prices with
    | [] => Ok NoSavings
    | cheapest :: others =>
        let most_expensive := last others cheapest in
        (savings_vs_vendors <- savings_vs cheapest others ;;
         let max_savings := price most_expensive - price cheapest in
         if Qeq_bool (price most_expensive) 0 then Raise "ZeroDivisionError"
         else
           let max_savings_percentage := (max_savings / price most_expensive) * 100 in
           Ok (Savings (Qltb 0 max_savings) (round2 max_savings)
                 (round2 max_savings_percentage)
                 (price_vendor_id cheapest) (price_vendor_id most_expensive)
                 savings_vs_vendors
                 (price_vendor_id cheapest) (price cheapest) (in_stock cheapest)))%exc
    end.

Inductive price_alert : Type :=
| AlertTriggered (target_price best_available_price : Q) (vendor_id : string)
                 (savings_vs_target : Q)
| NoAlert (target_price : Q) (closest_price : option Q).

(** [get_price_alerts] of the engine: the in-stock prices of a product
    against a target. *)
Definition get_price_alerts (d : DB) (product_id : string) (target_price : Q)
    : price_alert :=
  let current_prices :=
    filter (fun p => String.eqb (price_product_id p) product_id && in_stock p)
      (prices d) in
  let deals_at_target := filter (fun p => Qle_bool (price p) target_price) current_prices in
  match min_of price deals_at_target with
  | Some best_deal =>
      AlertTriggered target_price (price best_deal) (price_vendor_id best_deal)
        (round2 (target_price - price best_deal))
  | None =>
      NoAlert target_price
        (match min_of price current_prices with
         | Some p => Some (price p)
         | None => None
         end)
  end.

End Deals.

(* ================================================================== *)
(** ** scrapers/base.py, the variations                                *)
(* ================================================================== *)

Module Variations.




End Variations.

(* ================================================================== *)
(** ** backend/run_scrapers.py on a session whose commits can fail     *)
(* ================================================================== *)

(** [RunScrapers] above is the pipeline on a database that accepts every
    commit.  Here the same functions are read with the session they are
    given: [db.commit()] can raise, and run_scrapers.py has no
    [db.rollback()].  What a session does is SQLAlchemy's: a commit whose
    flush fails rolls the transaction back, expires every object of the
    session and leaves the session inactive; until [rollback()] is called
    every query, every commit and every read of an attribute of a row
    object raises [PendingRollbackError].  Which commits fail is an oracle,
    indexed by the number of commits attempted before. *)
Module Session.

Import RunScrapers.

(** The tables of [DB] and the vendors table. *)
Record Database : Type := mkDatabase {
  vendors : list Vendor;
  tables : DB
}.

Record session : Type := mkSession {
  stored : Database;   (* the database, as committed *)
  clock : nat;         (* the tick of [uuid4] and [utcnow] *)
  inactive : bool;     (* a flush has failed and was not rolled back *)
  commits : nat        (* the commits attempted so far *)
}.

Definition world (s : session) : World := mkWorld (tables (stored s)) (clock s).

Definition pending_rollback : string := "PendingRollbackError".

Section Pipeline.
Context {fuzz : Fuzz}.
Variable env : Env.
Variable commit_error : nat -> option string.
Variable similarity_threshold : Z.

(** [db.commit()] of pending changes that give the database [pending],
    at the tick [t] that the calls before it have reached. *)
Definition commit (s : session) (pending : Database) (t : nat) : Exc unit * session :=
  if inactive s
  then (Raise pending_rollback, mkSession (stored s) t true (commits s))
  else
    match commit_error (commits s) with
    | Some e => (Raise e, mkSession (stored s) t true (S (commits s)))
    | None => (Ok tt, mkSession pending t false (S (commits s)))
    end.

(** The database of a session with the tables of [w] for its own. *)
Definition with_tables (s : session) (w : World) : Database :=
  mkDatabase (vendors (stored s)) (db w).

(** [_create_new_product] (lines 127-148): the row of
    [RunScrapers._create_new_product], added and committed. *)
Definition _create_new_product (name : string) (scraped_product : ScrapedProduct)
    (s : session) : Exc (nat * Product) * session :=
  if inactive s then (Raise pending_rollback, s)
  else
    let '(i, new_product, w) :=
      RunScrapers._create_new_product env name scraped_product (world s) in
    match commit s (with_tables s w) (tick w) with
    | (Ok _, s) => (Ok (i, new_product), s)
    | (Raise e, s) => (Raise e, s)
    end.

(** [find_matching_product] (lines 44-89): the keywords of the name are
    extracted before the catalog is queried. *)
Definition find_matching_product (scraped_product : ScrapedProduct) (s : session)
    : Exc (nat * Product) * session :=
  match sp_name scraped_product with
  | None => (Raise "AttributeError: 'NoneType' object has no attribute 'lower'", s)
  | Some name =>
      if inactive s then (Raise pending_rollback, s)
      else
        match fst (best_match similarity_threshold name
                     (products (tables (stored s)))) with
        | Some (i, product) => (Ok (i, product), s)
        | None => _create_new_product name scraped_product s
        end
  end.

(** Lines 304-342 of [_store_product_data]: the price row updated or
    added and the popularity incremented, not yet committed. *)
Definition apply_observation (i : nat) (product : Product)
    (scraped_product : ScrapedProduct) (vendor : Vendor) (w : World) : World :=
  let existing_price :=
    find_index (price_of (product_id product) (vendor_id vendor)) (prices (db w)) in
  let w :=
    match existing_price with
    | Some (j, existing) =>
        let updated :=
          mkPrice (price_id existing) (price_product_id existing)
            (price_vendor_id existing)
            (sp_price scraped_product)
            (sp_original_price scraped_product)
            (match discount_of scraped_product with
             | Some d => Some d
             | None => discount_percentage existing
             end)
            (sp_stock_status scraped_product)
            (sp_product_url scraped_product)
            (variation_details existing)
            (utcnow env (tick w)) in
        mkWorld (set_prices (db w) (update_at j (fun _ => updated) (prices (db w))))
          (S (tick w))
    | None =>
        let new_price :=
          mkPrice (uuid4 env (tick w)) (product_id product) (vendor_id vendor)
            (sp_price scraped_product)
            (sp_original_price scraped_product)
            (discount_of scraped_product)
            (sp_stock_status scraped_product)
            (sp_product_url scraped_product)
            (sp_variations scraped_product)
            (utcnow env (S (tick w))) in
        mkWorld (set_prices (db w) (prices (db w) ++ [new_price])) (S (S (tick w)))
    end in
  mkWorld (set_products (db w) (update_at i increment_popularity (products (db w))))
    (tick w).

(** [_store_product_data] (lines 299-344). *)
Definition _store_product_data (scraped_product : ScrapedProduct) (vendor : Vendor)
    (s : session) : Exc unit * session :=
  match find_matching_product scraped_product s with
  | (Raise e, s) => (Raise e, s)
  | (Ok (i, product), s) =>
      if inactive s then (Raise pending_rollback, s)
      else
        let w := apply_observation i product scraped_product vendor (world s) in
        commit s (with_tables s w) (tick w)
  end.

(** The inner loop of [_run_vendor_scraper] (lines 282-288); its handler
    reads no row. *)
Fixpoint store_loop (scraped_products : list ScrapedProduct) (vendor : Vendor)
    (acc : vendor_results) (s : session) : vendor_results * session :=
  match scraped_products with
  | [] => (acc, s)
  | scraped_product :: rest =>
      match _store_product_data scraped_product vendor s with
      | (Ok _, s) =>
          store_loop rest vendor
            (mkVendorResults (vr_products_scraped acc + 1) (vr_errors acc)) s
      | (Raise _, s) =>
          store_loop rest vendor
            (mkVendorResults (vr_products_scraped acc) (vr_errors acc + 1)) s
      end
  end.

(** The outer loop (lines 277-292).  The log message of line 279 reads
    [vendor.name]; on an inactive session the object is expired and the
    read raises, inside the [try] and again in the log message of its
    handler (line 291), so that the exception leaves the loop. *)
Fixpoint query_loop (scraper : Scraper) (vendor : Vendor) (queries : list string)
    (acc : vendor_results) (s : session) : Exc vendor_results * session :=
  match queries with
  | [] => (Ok acc, s)
  | query :: rest =>
      if inactive s then (Raise pending_rollback, s)
      else
        let s1 := mkSession (stored s) (S (clock s)) (inactive s) (commits s) in
        match search_product scraper (clock s) query with
        | Ok scraped_products =>
            let '(acc, s2) := store_loop scraped_products vendor acc s1 in
            query_loop scraper vendor rest acc s2
        | Raise _ =>
            query_loop scraper vendor rest
              (mkVendorResults (vr_products_scraped acc) (vr_errors acc + 1)) s1
        end
  end.

Definition _run_vendor_scraper (scraper : Scraper) (vendor : Vendor)
    (queries : list string) (s : session) : Exc vendor_results * session :=
  query_loop scraper vendor queries (mkVendorResults 0 0) s.

(** [_ensure_vendors_exist] (lines 346-380): the rows that are missing,
    each with a new id, added in the order of the two lists and committed
    together.  The names of a list are distinct, so that a row added is
    never the answer to a later query of the loop. *)
Definition vendors_data : list string := ["amazon"; "bestbuy"; "walmart"; "brand"].
Definition categories_data : list string := ["laptops"; "headphones"; "speakers"].

Definition ensure {A : Type} (name_of : A -> string) (make : string -> string -> A)
    (rows : list A) (names : list string) (t : nat) : list A * nat :=
  fold_left
    (fun acc name =>
       if existsb (fun row => String.eqb (name_of row) name) rows then acc
       else (fst acc ++ [make (uuid4 env (snd acc)) name], S (snd acc)))
    names (rows, t).

Definition _ensure_vendors_exist (s : session) : Exc unit * session :=
  if inactive s then (Raise pending_rollback, s)
  else
    let '(vs, t) :=
      ensure vendor_name mkVendor (vendors (stored s)) vendors_data (clock s) in
    let '(cs, t) :=
      ensure category_name mkCategory (categories (tables (stored s)))
        categories_data t in
    let d := tables (stored s) in
    commit s
      (mkDatabase vs
         (mkDB cs (products d) (prices d) (price_history d) (scraper_runs d)))
      t.

(** [_start_scraper_run] (lines 382-393) *)
Definition _start_scraper_run (vendor : Vendor) (s : session) : Exc nat * session :=
  let '(scraper_run, w) := RunScrapers._start_scraper_run env vendor (world s) in
  match commit s (with_tables s w) (tick w) with
  | (Ok _, s) => (Ok scraper_run, s)
  | (Raise e, s) => (Raise e, s)
  end.

(** [_complete_scraper_run] (lines 395-406) and [_fail_scraper_run]
    (lines 408-418): the assignments, the read of [started_at] and the
    commit.  On an inactive session the read raises. *)
Definition _complete_scraper_run (scraper_run : nat) (results : vendor_results)
    (s : session) : Exc unit * session :=
  if inactive s
  then (Raise pending_rollback,
        mkSession (stored s) (S (clock s)) true (commits s))
  else
    let w := RunScrapers._complete_scraper_run env scraper_run results (world s) in
    commit s (with_tables s w) (tick w).

Definition _fail_scraper_run (scraper_run : nat) (error_message : string)
    (s : session) : Exc unit * session :=
  if inactive s
  then (Raise pending_rollback,
        mkSession (stored s) (S (clock s)) true (commits s))
  else
    let w := RunScrapers._fail_scraper_run env scraper_run error_message (world s) in
    commit s (with_tables s w) (tick w).

(** The body of the loop of [run_all_scrapers] (lines 243-265) for one
    entry of [self.scrapers]: [_complete_scraper_run] is inside the [try],
    [_start_scraper_run] and [_fail_scraper_run] are not. *)
Definition run_vendor (name : string) (scraper : Scraper) (queries : list string)
    (res : results) (s : session) : Exc results * session :=
  if inactive s then (Raise pending_rollback, s)
  else
    match find (fun v => String.eqb (vendor_name v) name) (vendors (stored s)) with
    | None => (Raise "AttributeError: 'NoneType' object has no attribute 'id'", s)
    | Some vendor =>
        match _start_scraper_run vendor s with
        | (Raise e, s) => (Raise e, s)
        | (Ok scraper_run, s) =>
            let body :=
              match _run_vendor_scraper scraper vendor queries s with
              | (Raise e, s) => (Raise e, s)
              | (Ok vendor_results, s) =>
                  match _complete_scraper_run scraper_run vendor_results s with
                  | (Raise e, s) => (Raise e, s)
                  | (Ok _, s) => (Ok vendor_results, s)
                  end
              end in
            match body with
            | (Ok vendor_results, s) =>
                (Ok (mkResults (total_products res + vr_products_scraped vendor_results)
                       (total_errors res)
                       (all_vendor_results res ++ [(name, vendor_results)])),
                 s)
            | (Raise e, s) =>
                match _fail_scraper_run scraper_run e s with
                | (Raise e', s) => (Raise e', s)
                | (Ok _, s) =>
                    (Ok (mkResults (total_products res) (total_errors res + 1)
                           (all_vendor_results res)),
                     s)
                end
            end
        end
    end.

Fixpoint run_vendors (scrapers : list (string * Scraper)) (queries : list string)
    (res : results) (s : session) : Exc results * session :=
  match scrapers with
  | [] => (Ok res, s)
  | (name, scraper) :: rest =>
      match run_vendor name scraper queries res s with
      | (Ok res, s) => run_vendors rest queries res s
      | (Raise e, s) => (Raise e, s)
      end
  end.

(** [run_all_scrapers] (lines 230-270), on a session of its own. *)
Definition run_all_scrapers (scrapers : list (string * Scraper))
    (queries : list string) (s : session) : Exc results * session :=
  let s := mkSession (stored s) (clock s) false (commits s) in
  match _ensure_vendors_exist s with
  | (Raise e, s) => (Raise e, s)
  | (Ok _, s) => run_vendors scrapers queries (mkResults 0 0 []) s
  end.

End Pipeline.

End Session.

(* ================================================================== *)
(** ** Invariants of the tables                                        *)
(* ================================================================== *)

Module Invariants.

(** At most one price row per (product, vendor) pair. *)
Definition unique_pairs (ps : list Price) : Prop :=
  forall pid vid, (List.length (filter (price_of pid vid) ps) <= 1)%nat.

(** What a product is, apart from its popularity. *)
Definition identity (p : Product)
    : string * string * string * option string * option string :=
  (product_id p, product_name p, product_brand p, product_category_id p,
   product_image_url p).

(** The catalog [after] keeps every product of [before] at its position,
    with its identity and a popularity that has not decreased. *)
Definition catalog_kept (before after : list Product) : Prop :=
  forall i p,
    nth_error before i = Some p ->
    exists p',
      nth_error after i = Some p'
      /\ identity p' = identity p
      /\ (popularity_score p <= popularity_score p')%Z.


(** The price table [after] keeps every row of [before] at its position,
    with its id and its (product, vendor) pair. *)
Definition ledger_kept (before after : list Price) : Prop :=
  forall j r,
    nth_error before j = Some r ->
    exists r',
      nth_error after j = Some r'
      /\ price_id r' = price_id r
      /\ price_product_id r' = price_product_id r
      /\ price_vendor_id r' = price_vendor_id r.

(** Two best candidates of the matcher agree when they are at the same
    position and have the same name, or are both missing. *)
Definition same_candidate (a b : option (nat * Product) * Q) : Prop :=
  snd a = snd b
  /\ match fst a, fst b with
     | None, None => True
     | Some (i, p), Some (j, q) => i = j /\ product_name p = product_name q
     | _, _ => False
     end.

(** From [s] to [s'] no rollback has happened: an inactive session has
    stayed inactive and attempted no commit, and unless [s'] is inactive
    every commit attempted in between has succeeded. *)
Definition advanced (commit_error : nat -> option string) (s s' : Session.session)
    : Prop :=
  (Session.commits s <= Session.commits s')%nat
  /\ (Session.inactive s = true ->
      Session.inactive s' = true /\ Session.commits s' = Session.commits s)
  /\ (Session.inactive s' = false ->
      forall k, (Session.commits s <= k < Session.commits s')%nat ->
                commit_error k = None).

(** The database [after] keeps what [before] holds: the products and the
    price rows at their positions, the history as it is, and the categories
    and vendors, to which only rows of the two lists of
    [_ensure_vendors_exist] are added. *)
Definition database_kept (before after : Session.Database) : Prop :=
  catalog_kept (products (Session.tables before)) (products (Session.tables after))
  /\ ledger_kept (prices (Session.tables before)) (prices (Session.tables after))
  /\ price_history (Session.tables after) = price_history (Session.tables before)
  /\ (exists added,
        categories (Session.tables after) = categories (Session.tables before) ++ added
        /\ forall c, In c added -> In (category_name c) Session.categories_data)
  /\ (exists added,
        Session.vendors after = Session.vendors before ++ added
        /\ forall v, In v added -> In (vendor_name v) Session.vendors_data).

End Invariants.

(* ================================================================== *)
(** ** More examples                                                   *)
(* ================================================================== *)

Module MoreExamples.

Import Examples.

(** A product given away by two vendors and sold at 10.00 by a third. *)
Definition giveaway (vendor : string) (amount : Q) : Price :=
  mkPrice ("pr-" ++ vendor)%string "p-sony" vendor amount None None "in_stock"
    "https://example.com" (JList []) (90 * hour)%Z.

Definition giveaways : list Price :=
  [giveaway "v-a" 10; giveaway "v-b" 0; giveaway "v-c" 0].

(** A history of three points: two of vendor a, 100.00 and an hour later
    110.00, and one of vendor b. *)
Definition sample_history : list PricingEngine.history_point :=
  [PricingEngine.mkPoint "v-a" 110 None (2 * hour)%Z "in_stock";
   PricingEngine.mkPoint "v-b" 50 None (1 * hour)%Z "in_stock";
   PricingEngine.mkPoint "v-a" 100 None (1 * hour)%Z "in_stock"].

(** The price of [sony] at [amazon] as its history row, in a world that
    holds this one history row. *)
Definition sony_history : PriceHistory :=
  PriceService._archive_price_to_history sony_at_amazon.

Definition archived_world : World :=
  mkWorld (set_price_history ex_db [sony_history]) 1.

(** A scraper that returns two observations for every query, and an
    oracle of commits that fails the commit number [k] only. *)
Definition two_products : Scraper :=
  mkScraper (fun _ _ => Ok [xyz; sony_again]).

Definition fails_at (k n : nat) : option string :=
  if (n =? k)%nat then Some "OperationalError" else None.

Definition never_fails (n : nat) : option string := None.

(** A new session on a database with one category and nothing else. *)
Definition empty_session : Session.session :=
  Session.mkSession (Session.mkDatabase [] (db empty_world)) 0 false 0.

End MoreExamples.

(* ================================================================== *)
(** * Properties                                                       *)
(* ================================================================== *)

Import PriceService RunScrapers PricingEngine.

Unset Implicit Arguments.

(** ** Comparisons and lists *)

Lemma Qltb_true (a b : Q) : Qltb a b = true <-> a < b.
Proof.
  unfold Qltb. rewrite negb_true_iff. split; intro H.
  - apply Qnot_le_lt. intro L. apply Qle_bool_iff in L. congruence.
  - destruct (Qle_bool b a) eqn:E; [|reflexivity].
    apply Qle_bool_iff in E. lra.
Qed.

Lemma Qltb_false (a b : Q) : Qltb a b = false <-> b <= a.
Proof.
  unfold Qltb. rewrite negb_false_iff. apply Qle_bool_iff.
Qed.

Lemma Qle_bool_false (a b : Q) : Qle_bool a b = false <-> b < a.
Proof.
  rewrite <- Qltb_true. unfold Qltb. now rewrite negb_true_iff.
Qed.

Ltac qbool :=
  repeat match goal with
    | H : Qltb _ _ = true |- _ => apply Qltb_true in H
    | H : Qltb _ _ = false |- _ => apply Qltb_false in H
    | H : Qle_bool _ _ = true |- _ => apply Qle_bool_iff in H
    | H : Qle_bool _ _ = false |- _ => apply Qle_bool_false in H
    end.

Lemma nth_error_update_at_eq {A : Type} (f : A -> A) (l : list A) (i : nat) (x : A) :
  nth_error l i = Some x -> nth_error (update_at i f l) i = Some (f x).
Proof.
  revert i; induction l as [|y l IH]; intros [|i] H; simpl in *;
    try discriminate; [congruence | auto].
Qed.

Lemma nth_error_update_at_neq {A : Type} (f : A -> A) (l : list A) (i j : nat) :
  i <> j -> nth_error (update_at i f l) j = nth_error l j.
Proof.
  revert i j; induction l as [|y l IH]; intros [|i] [|j] H; simpl;
    try reflexivity; [congruence | apply IH; congruence].
Qed.

Lemma length_update_at {A : Type} (f : A -> A) (l : list A) (i : nat) :
  List.length (update_at i f l) = List.length l.
Proof.
  revert i; induction l as [|y l IH]; intros [|i]; simpl; auto.
Qed.

Lemma find_index_nth {A : Type} (p : A -> bool) (l : list A) (i : nat) (x : A) :
  find_index p l = Some (i, x) -> nth_error l i = Some x /\ p x = true.
Proof.
  revert i; induction l as [|y l IH]; intros i H; simpl in H; [discriminate|].
  destruct (p y) eqn:E.
  - inversion H; subst. simpl. auto.
  - destruct (find_index p l) as [[j z]|]; [|discriminate].
    inversion H; subst. simpl. apply IH. reflexivity.
Qed.

Lemma find_index_none {A : Type} (p : A -> bool) (l : list A) :
  find_index p l = None -> filter p l = [].
Proof.
  induction l as [|y l IH]; simpl; intro H; [reflexivity|].
  destruct (p y); [discriminate|].
  destruct (find_index p l) as [[j z]|]; [discriminate | auto].
Qed.

Lemma find_index_update_at {A : Type} (p : A -> bool) (l : list A) (i : nat) (x y : A) :
  find_index p l = Some (i, x) -> p y = true ->
  find_index p (update_at i (fun _ => y) l) = Some (i, y).
Proof.
  revert i; induction l as [|z l IH]; intros i H Hy; simpl in H; [discriminate|].
  destruct (p z) eqn:E.
  - inversion H; subst. simpl. now rewrite Hy.
  - destruct (find_index p l) as [[j u]|] eqn:F; [|discriminate].
    inversion H; subst. simpl. rewrite E. now rewrite (IH j eq_refl Hy).
Qed.

Lemma find_index_app_new {A : Type} (p : A -> bool) (l : list A) (y : A) :
  find_index p l = None -> p y = true ->
  find_index p (l ++ [y]) = Some (List.length l, y).
Proof.
  induction l as [|z l IH]; simpl; intros H Hy.
  - now rewrite Hy.
  - destruct (p z); [discriminate|].
    destruct (find_index p l) as [[j u]|]; [discriminate|].
    now rewrite IH.
Qed.

Lemma filter_update_at_same {A : Type} (p : A -> bool) (l : list A) (i : nat) (x y : A) :
  nth_error l i = Some x -> p x = true -> p y = true ->
  List.length (filter p (update_at i (fun _ => y) l)) = List.length (filter p l).
Proof.
  revert i; induction l as [|z l IH]; intros [|i] H Hx Hy; simpl in *; try discriminate.
  - inversion H; subst. now rewrite Hx, Hy.
  - destruct (p z); simpl; erewrite IH; eauto.
Qed.

(** ** The price ledger: [update_or_create_price] *)

Lemma price_of_refl (pid vid : string) (p : Price) :
  price_product_id p = pid -> price_vendor_id p = vid -> price_of pid vid p = true.
Proof.
  intros <- <-. unfold price_of. now rewrite !String.eqb_refl.
Qed.

Lemma price_of_ids (pid vid : string) (p : Price) :
  price_of pid vid p = true -> price_product_id p = pid /\ price_vendor_id p = vid.
Proof.
  unfold price_of. rewrite andb_true_iff, !String.eqb_eq. tauto.
Qed.

Lemma no_change_same_price (q : Q) : Qltb (1 # 100) (Qabs (q - q)) = false.
Proof.
  apply Qltb_false.
  assert (E : q - q == 0) by ring.
  rewrite E. simpl. lra.
Qed.

(** The two branches of [update_or_create_price], as equations. *)
Lemma update_existing (env : Env) (pid vid : string) (data : scraped_data) (w : World)
    (i : nat) (existing : Price) (new_price : Q) :
  find_index (price_of pid vid) (prices (db w)) = Some (i, existing) ->
  sd_price data = Some new_price ->
  exists p1,
    update_or_create_price env pid vid data w
    = Ok (p1,
          mkWorld
            (mkDB (categories (db w)) (products (db w))
               (update_at i (fun _ => p1) (prices (db w)))
               (if Qltb (1 # 100) (Qabs (price existing - new_price))
                then price_history (db w) ++ [_archive_price_to_history existing]
                else price_history (db w))
               (scraper_runs (db w)))
            (S (tick w)))
    /\ price p1 = new_price
    /\ price_product_id p1 = price_product_id existing
    /\ price_vendor_id p1 = price_vendor_id existing
    /\ discount_percentage p1
       = calc_discount new_price
           (if truthy_opt (sd_original_price data) then sd_original_price data else None)
    /\ stock_status p1 = get (sd_stock_status data) "in_stock"
    /\ product_url p1 = get (sd_product_url data) (product_url existing)
    /\ variation_details p1 = get (sd_variations data) (JDict [])
    /\ last_updated_at p1 = utcnow env (tick w).
Proof.
  intros F P. unfold update_or_create_price. rewrite F, P.
  eexists. split; [reflexivity|]. simpl. repeat split; reflexivity.
Qed.

Lemma update_new (env : Env) (pid vid : string) (data : scraped_data) (w : World)
    (new_price : Q) :
  find_index (price_of pid vid) (prices (db w)) = None ->
  sd_price data = Some new_price ->
  exists p1,
    update_or_create_price env pid vid data w
    = Ok (p1,
          mkWorld
            (mkDB (categories (db w)) (products (db w)) (prices (db w) ++ [p1])
               (price_history (db w)) (scraper_runs (db w)))
            (S (S (tick w))))
    /\ price p1 = new_price
    /\ price_product_id p1 = pid
    /\ price_vendor_id p1 = vid
    /\ discount_percentage p1
       = calc_discount new_price
           (if truthy_opt (sd_original_price data) then sd_original_price data else None).
Proof.
  intros F P. unfold update_or_create_price. rewrite F, P.
  eexists. split; [reflexivity|]. simpl. repeat split; reflexivity.
Qed.

(** After a successful apply the pair has a row, and that row carries the
    price of the observation. *)
Lemma update_then_found (env : Env) (pid vid : string) (data : scraped_data)
    (w w1 : World) (p1 : Price) (new_price : Q) :
  sd_price data = Some new_price ->
  update_or_create_price env pid vid data w = Ok (p1, w1) ->
  exists j,
    find_index (price_of pid vid) (prices (db w1)) = Some (j, p1)
    /\ price p1 = new_price
    /\ price_history (db w1)
       = (match find_index (price_of pid vid) (prices (db w)) with
          | Some (_, existing) =>
              if Qltb (1 # 100) (Qabs (price existing - new_price))
              then price_history (db w) ++ [_archive_price_to_history existing]
              else price_history (db w)
          | None => price_history (db w)
          end)
    /\ List.length (filter (price_of pid vid) (prices (db w1)))
       = Nat.max 1 (List.length (filter (price_of pid vid) (prices (db w)))).
Proof.
  intros P U.
  destruct (find_index (price_of pid vid) (prices (db w))) as [[i existing]|] eqn:F.
  - destruct (update_existing env pid vid data w _ _ _ F P) as (q & E & Hp & Hpid & Hvid & _).
    rewrite E in U. inversion U; subst p1 w1; clear U. simpl.
    destruct (find_index_nth _ _ _ _ F) as [Hn Hx].
    destruct (price_of_ids _ _ _ Hx) as [X1 X2].
    assert (Hq : price_of pid vid q = true)
      by (apply price_of_refl; congruence).
    exists i. split; [eapply find_index_update_at; eassumption|].
    split; [assumption|]. split; [reflexivity|].
    rewrite (filter_update_at_same _ _ _ _ _ Hn Hx Hq).
    assert (In existing (filter (price_of pid vid) (prices (db w)))).
    { apply filter_In. split; [eapply nth_error_In; eauto | assumption]. }
    destruct (filter (price_of pid vid) (prices (db w))); simpl in *; [tauto | lia].
  - destruct (update_new env pid vid data w _ F P) as (q & E & Hp & Hpid & Hvid & _).
    rewrite E in U. inversion U; subst p1 w1; clear U. simpl.
    assert (Hq : price_of pid vid q = true) by (apply price_of_refl; assumption).
    exists (List.length (prices (db w))).
    split; [apply find_index_app_new; assumption|].
    split; [assumption|]. split; [reflexivity|].
    rewrite filter_app, (find_index_none _ _ F). simpl. now rewrite Hq.
Qed.

(** C2. When [update_or_create_price] finds a price row for the pair, it
    adds one history row exactly when the new price differs from the stored
    one by more than 0.01; that row copies the superseded values and is
    dated with the previous last-updated time.  Applying the same
    observation a second time adds no history row, and a pair that had at
    most one price row has exactly one afterwards. *)
Theorem history_on_material_change (env : Env) (pid vid : string)
    (data : scraped_data) (w : World) (new_price : Q) :
  sd_price data = Some new_price ->
  (forall i existing,
      find_index (price_of pid vid) (prices (db w)) = Some (i, existing) ->
      exists p1 w1,
        update_or_create_price env pid vid data w = Ok (p1, w1)
        /\ (1 # 100 < Qabs (price existing - new_price) ->
            exists h,
              price_history (db w1) = price_history (db w) ++ [h]
              /\ h_price_id h = price_id existing
              /\ h_product_id h = price_product_id existing
              /\ h_vendor_id h = price_vendor_id existing
              /\ h_price h = price existing
              /\ h_original_price h = original_price existing
              /\ h_discount_percentage h = discount_percentage existing
              /\ h_stock_status h = stock_status existing
              /\ h_product_url h = product_url existing
              /\ h_variation_details h = variation_details existing
              /\ recorded_at h = last_updated_at existing)
        /\ (Qabs (price existing - new_price) <= 1 # 100 ->
            price_history (db w1) = price_history (db w)))
  /\ (exists p1 w1 p2 w2,
        update_or_create_price env pid vid data w = Ok (p1, w1)
        /\ update_or_create_price env pid vid data w1 = Ok (p2, w2)
        /\ price_history (db w2) = price_history (db w1)
        /\ List.length (prices (db w2)) = List.length (prices (db w1))
        /\ ((List.length (filter (price_of pid vid) (prices (db w))) <= 1)%nat ->
            List.length (filter (price_of pid vid) (prices (db w2))) = 1%nat)).
Proof.
  intros P. split.
  - intros i existing F.
    destruct (update_existing env pid vid data w _ _ _ F P) as (p1 & E & _).
    eexists; eexists. split; [exact E|]. cbn [db price_history].
    destruct (Qltb (1 # 100) (Qabs (price existing - new_price))) eqn:C; qbool.
    + split; [|intro; lra].
      intros _. exists (_archive_price_to_history existing).
      repeat split; reflexivity.
    + split; [intro; lra | reflexivity].
  - assert (exists p1 w1, update_or_create_price env pid vid data w = Ok (p1, w1))
      as (p1 & w1 & U1).
    { unfold update_or_create_price. rewrite P.
      destruct (find_index (price_of pid vid) (prices (db w))) as [[i e]|];
        eexists; eexists; reflexivity. }
    destruct (update_then_found env pid vid data w _ _ _ P U1) as (j & F1 & Hp1 & _ & C1).
    destruct (update_existing env pid vid data w1 _ _ _ F1 P) as (p2 & U2 & _).
    exists p1, w1, p2. eexists. split; [exact U1|]. split; [exact U2|].
    destruct (update_then_found env pid vid data w1 _ _ _ P U2) as (j2 & _ & _ & _ & C2).
    cbn [db price_history prices]. rewrite Hp1, no_change_same_price.
    split; [reflexivity|]. split; [apply length_update_at|].
    intro L. cbn [db prices] in C2. rewrite C2, C1. lia.
Qed.

Lemma history_on_material_change_witness :
  exists p1 w1 p2 w2,
    update_or_create_price Examples.ex_env "p-sony" "v-amazon"
      Examples.sony_again_data Examples.ex_world = Ok (p1, w1)
    /\ update_or_create_price Examples.ex_env "p-sony" "v-amazon"
         Examples.sony_again_data w1 = Ok (p2, w2)
    /\ price_history (db w2) = price_history (db w1).
Proof.
  destruct (history_on_material_change Examples.ex_env "p-sony" "v-amazon"
              Examples.sony_again_data Examples.ex_world 80 eq_refl)
    as (_ & p1 & w1 & p2 & w2 & U1 & U2 & H & _).
  exists p1, w1, p2, w2. auto.
Defined.

(** ** Freshness *)

Lemma freshness_status_cases (h : Q) :
  (freshness_status h = "fresh" <-> h <= 12)
  /\ (freshness_status h = "aging" <-> 12 < h /\ h <= 24)
  /\ (freshness_status h = "stale" <-> 24 < h).
Proof.
  unfold freshness_status.
  destruct (Qltb 24 h) eqn:A; [|destruct (Qltb 12 h) eqn:B]; qbool;
    repeat split; intros; try discriminate; try lra; try reflexivity;
    try (destruct H; lra).
Qed.

Lemma hours_old_after (p : Price) (n : Z) :
  hours_old (last_updated_at p + n * hour)%Z p == inject_Z n.
Proof.
  unfold hours_old, hour.
  replace (last_updated_at p + n * 3600000000 - last_updated_at p)%Z
    with (n * 3600000000)%Z by ring.
  rewrite inject_Z_mult. field.
Qed.

#[export] Instance freshness_status_Proper : Proper (Qeq ==> eq) freshness_status.
Proof.
  intros a b E. unfold freshness_status, Qltb.
  assert (X : forall c, Qle_bool a c = Qle_bool b c) by (intro c; now rewrite E).
  now rewrite !X.
Qed.

(** C8. The freshness class of a price whose age is [h] hours is "fresh"
    exactly when [h <= 12], "aging" exactly when [12 < h <= 24] and "stale"
    exactly when [h > 24]; a price aged exactly 24 hours is "aging" and one
    aged exactly 12 hours is "fresh". *)
Theorem freshness_classification (now : datetime) (p : Price) :
  let h := hours_old now p in
  In (mkFreshness (last_updated_at p) (round1 h) (freshness_status h))
     (freshness_data now [p])
  /\ (freshness_status h = "fresh" <-> h <= 12)
  /\ (freshness_status h = "aging" <-> 12 < h /\ h <= 24)
  /\ (freshness_status h = "stale" <-> 24 < h)
  /\ freshness_status (hours_old (last_updated_at p + 24 * hour)%Z p) = "aging"
  /\ freshness_status (hours_old (last_updated_at p + 12 * hour)%Z p) = "fresh".
Proof.
  intro h. split; [left; reflexivity|].
  destruct (freshness_status_cases h) as (A & B & C).
  repeat split; try (apply A || apply B || apply C); try tauto.
  - now rewrite (hours_old_after p 24).
  - now rewrite (hours_old_after p 12).
Qed.

(** ** The matcher *)

Lemma py_max_spec (l : list Q) (x : Q) :
  x <= py_max x l
  /\ (forall y, In y l -> y <= py_max x l)
  /\ In (py_max x l) (x :: l).
Proof.
  revert x. induction l as [|y l IH]; intro x; simpl.
  - repeat split; [lra | tauto | auto].
  - destruct (Qltb x y) eqn:C; qbool.
    + destruct (IH y) as (A & B & D). repeat split.
      * lra.
      * intros z [<-|Hz]; [assumption | now apply B].
      * destruct D as [D|D]; [right; left; exact D | right; right; exact D].
    + destruct (IH x) as (A & B & D). repeat split.
      * assumption.
      * intros z [<-|Hz]; [lra | now apply B].
      * destruct D as [D|D]; [left; exact D | right; right; exact D].
Qed.

Lemma enumerate_from_In {A : Type} (l : list A) (s i : nat) (x : A) :
  In (i, x) (combine (seq s (List.length l)) l)
  <-> (s <= i)%nat /\ nth_error l (i - s) = Some x.
Proof.
  revert s; induction l as [|y l IH]; intro s; simpl.
  - split; [tauto|]. intros [_ H]. destruct (i - s)%nat; discriminate.
  - rewrite IH. split.
    + intros [E|[L H]].
      * inversion E; subst. rewrite Nat.sub_diag. simpl. auto with arith.
      * split; [lia|]. replace (i - s)%nat with (S (i - S s)) by lia. exact H.
    + intros [L H]. destruct (i - s)%nat as [|k] eqn:E.
      * left. simpl in H. inversion H. f_equal. lia.
      * right. split; [lia|]. simpl in H.
        replace (i - S s)%nat with k by lia. exact H.
Qed.

Lemma enumerate_In {A : Type} (l : list A) (i : nat) (x : A) :
  In (i, x) (enumerate l) <-> nth_error l i = Some x.
Proof.
  unfold enumerate. rewrite enumerate_from_In, Nat.sub_0_r.
  split; [tauto | auto with arith].
Qed.

Lemma enumerate_snd {A : Type} (l : list A) (x : A) :
  In x l -> exists i, In (i, x) (enumerate l).
Proof.
  intro H. destruct (In_nth_error _ _ H) as [i E].
  exists i. now apply enumerate_In.
Qed.

Section MatcherFacts.
Context {fuzz : Fuzz}.
Variable env : Env.
Variable similarity_threshold : Z.
Variable name : string.

Let kw := _extract_product_keywords name.
Let score (c : nat * Product) : Q := composite_score name kw (snd c).
Let t : Q := inject_Z similarity_threshold.

(** The loop keeps the best accepted candidate: every candidate seen
    scores at most the best score or below the threshold. *)
Lemma best_match_loop (cands : list (nat * Product)) :
  forall best bs best' bs',
    fold_left (consider similarity_threshold name kw) cands (best, bs) = (best', bs') ->
    bs <= bs'
    /\ (forall c, In c cands -> score c <= bs' \/ score c < t)
    /\ ((best' = best /\ bs' = bs)
        \/ (exists c, In c cands /\ best' = Some c /\ bs' = score c /\ t <= score c)).
Proof.
  induction cands as [|c rest IH]; intros best bs best' bs' H; simpl in H.
  - inversion H; subst. repeat split; [lra | intros c [] | left; auto].
  - unfold consider in H at 2. cbn [snd] in H. fold kw in H.
    change (composite_score name kw (snd c)) with (score c) in H.
    destruct (Qltb bs (score c) && Qle_bool (inject_Z similarity_threshold) (score c))
      eqn:C.
    + apply andb_true_iff in C. destruct C as [C1 C2]. qbool.
      destruct (IH _ _ _ _ H) as (A & B & D). repeat split.
      * lra.
      * intros c' [<-|Hc]; [left; exact A | now apply B].
      * right. destruct D as [[D1 D2]|(c2 & I & D1 & D2 & D3)].
        -- exists c. subst. repeat split; auto. now left.
        -- exists c2. repeat split; auto. now right.
    + destruct (IH _ _ _ _ H) as (A & B & D). repeat split.
      * assumption.
      * intros c' [<-|Hc]; [|now apply B].
        apply andb_false_iff in C. destruct C as [C|C]; qbool.
        -- left. lra.
        -- right. exact C.
      * destruct D as [D|(c2 & I & D1 & D2 & D3)]; [left; exact D|].
        right. exists c2. repeat split; auto. now right.
Qed.

(** What [best_match] returns, for a positive threshold. *)
Lemma best_match_some (ps : list Product) (i : nat) (p : Product) :
  fst (best_match similarity_threshold name ps) = Some (i, p) ->
  nth_error ps i = Some p
  /\ t <= composite_score name kw p
  /\ forall q, In q ps -> composite_score name kw q <= composite_score name kw p.
Proof.
  unfold best_match. fold kw.
  destruct (fold_left _ _ _) as [b bs] eqn:F. simpl. intro E; subst b.
  destruct (best_match_loop _ _ _ _ _ F) as (A & B & [[D _]|(c & I & D1 & D2 & D3)]);
    [discriminate|].
  inversion D1; subst c. split; [now apply enumerate_In|].
  split; [exact D3|].
  intros q Hq. destruct (enumerate_snd _ _ Hq) as [j Hj].
  destruct (B _ Hj) as [L|L]; unfold score in *; cbn [snd] in *;
    rewrite D2 in *; lra.
Qed.

Lemma best_match_none (ps : list Product) :
  (0 < similarity_threshold)%Z ->
  fst (best_match similarity_threshold name ps) = None ->
  forall q, In q ps -> composite_score name kw q < t.
Proof.
  unfold best_match. fold kw. intro T.
  destruct (fold_left _ _ _) as [b bs] eqn:F. simpl. intro E; subst b.
  destruct (best_match_loop _ _ _ _ _ F) as (A & B & [[_ D]|(c & I & D1 & D2 & D3)]);
    [|discriminate].
  assert (0 < t) by (unfold t; change 0 with (inject_Z 0); now rewrite <- Zlt_Qlt).
  intros q Hq. destruct (enumerate_snd _ _ Hq) as [j Hj].
  destruct (B _ Hj) as [L|L]; unfold score in *; cbn [snd] in *;
    rewrite D in *; lra.
Qed.

(** The composite score is the greatest of the measures taken. *)
Lemma composite_score_max (kws : list string) (p : Product) :
  let a := lower name in
  let b := lower (product_name p) in
  let kwp := _extract_product_keywords (product_name p) in
  let c := composite_score name kws p in
  inject_Z (ratio a b) <= c
  /\ inject_Z (token_sort_ratio a b) <= c
  /\ inject_Z (partial_ratio a b) <= c
  /\ (kws <> [] -> kwp <> [] -> keyword_score kws kwp <= c)
  /\ (c = inject_Z (ratio a b)
      \/ c = inject_Z (token_sort_ratio a b)
      \/ c = inject_Z (partial_ratio a b)
      \/ (kws <> [] /\ kwp <> [] /\ c = keyword_score kws kwp)).
Proof.
  intros a b kwp c. subst c. unfold composite_score, measures.
  fold a b kwp. cbn [app].
  match goal with |- context [py_max ?x ?l] =>
    destruct (py_max_spec l x) as (A & B & D); revert A B D;
    generalize (py_max x l) end.
  intros m A B D.
  destruct kws as [|k1 kws'], kwp as [|k2 kwp']; cbn [app] in *.
  all: repeat split; try assumption;
    try (apply B; simpl; tauto); try congruence.
  all: try (intros _ _; apply B; simpl; tauto).
  all: simpl in D;
    repeat (destruct D as [D|D]; [subst m; tauto || idtac|]);
    try contradiction.
  right; right; right. repeat split; discriminate.
Qed.

End MatcherFacts.

Lemma measure_le_composite {fuzz : Fuzz} (name : string) (kws : list string)
    (p : Product) (m : Q) :
  In m (measures name kws p) -> m <= composite_score name kws p.
Proof.
  unfold composite_score. destruct (measures name kws p) as [|x l]; [intros []|].
  destruct (py_max_spec l x) as (A & B & _).
  intros [<-|H]; [exact A | now apply B].
Qed.

(** C3, for a positive threshold.  The composite score of a candidate is
    the greatest of the exact, token-sort and partial ratios and, when both
    names have keywords, of the keyword overlap.  If some product of the
    catalog reaches the threshold on one measure, the matcher returns a
    product of the catalog whose composite score is the highest and at
    least the threshold, and creates nothing; if every product scores below
    the threshold, it creates a new product. *)
Theorem matcher_threshold {fuzz : Fuzz} (env : Env) (similarity_threshold : Z)
    (scraped_product : ScrapedProduct) (name : string) (w : World) :
  (0 < similarity_threshold)%Z ->
  sp_name scraped_product = Some name ->
  let kw := _extract_product_keywords name in
  let score := composite_score name kw in
  let t := inject_Z similarity_threshold in
  let ps := products (db w) in
  (forall p,
      let a := lower name in
      let b := lower (product_name p) in
      let kwp := _extract_product_keywords (product_name p) in
      inject_Z (ratio a b) <= score p
      /\ inject_Z (token_sort_ratio a b) <= score p
      /\ inject_Z (partial_ratio a b) <= score p
      /\ (kw <> [] -> kwp <> [] -> keyword_score kw kwp <= score p)
      /\ (score p = inject_Z (ratio a b)
          \/ score p = inject_Z (token_sort_ratio a b)
          \/ score p = inject_Z (partial_ratio a b)
          \/ (kw <> [] /\ kwp <> [] /\ score p = keyword_score kw kwp)))
  /\ ((exists q m, In q ps /\ In m (measures name kw q) /\ t <= m) ->
      exists i p,
        find_matching_product env similarity_threshold scraped_product w = Ok (i, p, w)
        /\ nth_error ps i = Some p
        /\ t <= score p
        /\ forall q, In q ps -> score q <= score p)
  /\ ((forall q, In q ps -> score q < t) ->
      exists p w',
        find_matching_product env similarity_threshold scraped_product w
        = Ok (List.length ps, p, w')
        /\ products (db w') = ps ++ [p]
        /\ product_name p = name).
Proof.
  intros T N kw score t ps. split; [|split].
  - intro p. apply composite_score_max.
  - intros (q & m & Hq & Hm & L).
    apply measure_le_composite in Hm.
    unfold find_matching_product. rewrite N. fold ps.
    destruct (fst (best_match similarity_threshold name ps)) as [[i p]|] eqn:E.
    + destruct (best_match_some _ _ _ _ _ E) as (A & B & C).
      exists i, p. repeat split; assumption.
    + pose proof (best_match_none _ _ _ T E q Hq) as C.
      exfalso. unfold t, kw in *. lra.
  - intros A.
    unfold find_matching_product. rewrite N. fold ps.
    destruct (fst (best_match similarity_threshold name ps)) as [[i p]|] eqn:E.
    + destruct (best_match_some _ _ _ _ _ E) as (B & C & _).
      apply nth_error_In in B. specialize (A p B).
      exfalso. unfold score, t, kw in *. lra.
    + unfold _create_new_product. fold ps.
      eexists; eexists. split; [reflexivity|]. split; reflexivity.
Qed.

Lemma matcher_threshold_witness :
  exists i p,
    find_matching_product (fuzz := Examples.ex_fuzz) Examples.ex_env 80
      Examples.sony_again Examples.ex_world = Ok (i, p, Examples.ex_world).
Proof.
  destruct (matcher_threshold (fuzz := Examples.ex_fuzz) Examples.ex_env 80
              Examples.sony_again "Sony WH-1000XM4" Examples.ex_world
              eq_refl eq_refl) as (_ & H & _).
  destruct H as (i & p & E & _).
  - exists Examples.sony, 100. split; [left; reflexivity|].
    split; [left; reflexivity|]. apply Qle_bool_iff. reflexivity.
  - exists i, p. exact E.
Defined.

(** With the threshold 0, a product whose composite score is 0 reaches the
    threshold and is the best candidate, and yet a new product is created. *)
Lemma matcher_zero_threshold_creates :
  In Examples.abc (products (db Examples.abc_world))
  /\ inject_Z 0
     <= composite_score (fuzz := Examples.ex_fuzz) "xyz"
          (_extract_product_keywords "xyz") Examples.abc
  /\ exists p w',
       find_matching_product (fuzz := Examples.ex_fuzz) Examples.ex_env 0
         Examples.xyz Examples.abc_world = Ok (1%nat, p, w')
       /\ products (db w') = [Examples.abc; p].
Proof.
  split; [left; reflexivity|].
  split; [apply Qle_bool_iff; reflexivity|].
  eexists; eexists. split; reflexivity.
Qed.

(** ** Storing an observation: [_store_product_data] *)

Section StoreFacts.
Context {fuzz : Fuzz}.
Variable env : Env.
Variable similarity_threshold : Z.

Local Abbreviation find_product := (find_matching_product env similarity_threshold).
Local Abbreviation store := (_store_product_data env similarity_threshold).

(** The matcher returns a row of the catalog it leaves, and touches no
    other table. *)
Lemma find_matching_product_row (sp : ScrapedProduct) (w w0 : World)
    (i : nat) (product : Product) :
  find_product sp w = Ok (i, product, w0) ->
  nth_error (products (db w0)) i = Some product
  /\ prices (db w0) = prices (db w)
  /\ price_history (db w0) = price_history (db w)
  /\ scraper_runs (db w0) = scraper_runs (db w).
Proof.
  unfold find_matching_product.
  destruct (sp_name sp) as [name|]; [|discriminate].
  destruct (fst (best_match similarity_threshold name (products (db w))))
    as [[j p]|] eqn:E; intro H; inversion H; subst; clear H.
  - destruct (best_match_some _ _ _ _ _ E) as (A & _). auto.
  - simpl. split; [|auto]. rewrite nth_error_app2, Nat.sub_diag; auto.
Qed.

Lemma find_matching_product_named (sp : ScrapedProduct) (w : World) :
  match sp_name sp with
  | Some _ => exists i product w0, find_product sp w = Ok (i, product, w0)
  | None => exists e, find_product sp w = Raise e
  end.
Proof.
  unfold find_matching_product. destruct (sp_name sp) as [name|].
  - destruct (fst (best_match similarity_threshold name (products (db w))))
      as [[j p]|]; repeat eexists.
  - eexists. reflexivity.
Qed.

(** The two branches of [_store_product_data], as equations. *)
Lemma store_update (sp : ScrapedProduct) (vendor : Vendor) (w w0 : World)
    (i j : nat) (product : Product) (existing : Price) :
  find_product sp w = Ok (i, product, w0) ->
  find_index (price_of (product_id product) (vendor_id vendor)) (prices (db w0))
  = Some (j, existing) ->
  store sp vendor w
  = Ok (mkWorld
          (mkDB (categories (db w0))
             (update_at i increment_popularity (products (db w0)))
             (update_at j
                (fun _ =>
                   mkPrice (price_id existing) (price_product_id existing)
                     (price_vendor_id existing) (sp_price sp) (sp_original_price sp)
                     (match discount_of sp with
                      | Some d => Some d
                      | None => discount_percentage existing
                      end)
                     (sp_stock_status sp) (sp_product_url sp)
                     (variation_details existing) (utcnow env (tick w0)))
                (prices (db w0)))
             (price_history (db w0)) (scraper_runs (db w0)))
          (S (tick w0))).
Proof.
  intros F E. unfold _store_product_data. rewrite F. cbn [bind]. rewrite E.
  reflexivity.
Qed.

Lemma store_insert (sp : ScrapedProduct) (vendor : Vendor) (w w0 : World)
    (i : nat) (product : Product) :
  find_product sp w = Ok (i, product, w0) ->
  find_index (price_of (product_id product) (vendor_id vendor)) (prices (db w0))
  = None ->
  store sp vendor w
  = Ok (mkWorld
          (mkDB (categories (db w0))
             (update_at i increment_popularity (products (db w0)))
             (prices (db w0)
              ++ [mkPrice (uuid4 env (tick w0)) (product_id product) (vendor_id vendor)
                    (sp_price sp) (sp_original_price sp) (discount_of sp)
                    (sp_stock_status sp) (sp_product_url sp) (sp_variations sp)
                    (utcnow env (S (tick w0)))])
             (price_history (db w0)) (scraper_runs (db w0)))
          (S (S (tick w0)))).
Proof.
  intros F E. unfold _store_product_data. rewrite F. cbn [bind]. rewrite E.
  reflexivity.
Qed.

Lemma store_raises (sp : ScrapedProduct) (vendor : Vendor) (w : World) (e : string) :
  find_product sp w = Raise e -> store sp vendor w = Raise e.
Proof.
  intros F. unfold _store_product_data. now rewrite F.
Qed.

(** A store touches neither the history nor the runs. *)
Lemma store_frame (sp : ScrapedProduct) (vendor : Vendor) (w w' : World) :
  store sp vendor w = Ok w' ->
  price_history (db w') = price_history (db w)
  /\ scraper_runs (db w') = scraper_runs (db w).
Proof.
  intro S.
  destruct (find_product sp w) as [[[i product] w0]|e] eqn:F;
    [|rewrite (store_raises _ _ _ _ F) in S; discriminate].
  destruct (find_matching_product_row _ _ _ _ _ F) as (_ & _ & H & R).
  destruct (find_index (price_of (product_id product) (vendor_id vendor))
              (prices (db w0))) as [[j existing]|] eqn:E.
  - rewrite (store_update _ _ _ _ _ _ _ _ F E) in S. inversion S; subst. auto.
  - rewrite (store_insert _ _ _ _ _ _ F E) in S. inversion S; subst. auto.
Qed.

End StoreFacts.

Lemma update_or_create_price_products (env : Env) (pid vid : string)
    (data : scraped_data) (w w1 : World) (p1 : Price) :
  update_or_create_price env pid vid data w = Ok (p1, w1) ->
  products (db w1) = products (db w).
Proof.
  unfold update_or_create_price.
  destruct (sd_price data) as [np|]; [|discriminate].
  destruct (find_index (price_of pid vid) (prices (db w))) as [[i e]|];
    intro H; inversion H; reflexivity.
Qed.

(** C6, as the code has it.  A successful [_store_product_data] adds
    exactly 1 to the popularity score of the product the observation was
    resolved to, and leaves every other product alone, whether it updated
    the price row of the pair or inserted one; [update_or_create_price]
    changes no product. *)
Theorem popularity_incremented_by_store {fuzz : Fuzz} (env : Env)
    (similarity_threshold : Z) (sp : ScrapedProduct) (vendor : Vendor) (w w' : World) :
  _store_product_data env similarity_threshold sp vendor w = Ok w' ->
  (exists i product w0 product',
      find_matching_product env similarity_threshold sp w = Ok (i, product, w0)
      /\ nth_error (products (db w0)) i = Some product
      /\ nth_error (products (db w')) i = Some product'
      /\ product_id product' = product_id product
      /\ popularity_score product' = (popularity_score product + 1)%Z
      /\ (forall j, j <> i ->
            nth_error (products (db w')) j = nth_error (products (db w0)) j)
      /\ (List.length (prices (db w')) = List.length (prices (db w))
          \/ List.length (prices (db w')) = S (List.length (prices (db w)))))
  /\ (forall pid vid data p1 w1,
        update_or_create_price env pid vid data w = Ok (p1, w1) ->
        products (db w1) = products (db w)).
Proof.
  intro S. split; [|intros; eapply update_or_create_price_products; eauto].
  destruct (find_matching_product env similarity_threshold sp w)
    as [[[i product] w0]|e] eqn:F;
    [|rewrite (store_raises _ _ _ _ _ _ F) in S; discriminate].
  destruct (find_matching_product_row _ _ _ _ _ _ _ F) as (N & P & _).
  exists i, product, w0, (increment_popularity product).
  split; [reflexivity|]. split; [exact N|].
  destruct (find_index (price_of (product_id product) (vendor_id vendor))
              (prices (db w0))) as [[j existing]|] eqn:E.
  - rewrite (store_update _ _ _ _ _ _ _ _ _ _ F E) in S. inversion S; subst. simpl.
    split; [now apply nth_error_update_at_eq|]. repeat split.
    + intros k K. apply nth_error_update_at_neq. congruence.
    + left. now rewrite length_update_at, P.
  - rewrite (store_insert _ _ _ _ _ _ _ _ F E) in S. inversion S; subst. simpl.
    split; [now apply nth_error_update_at_eq|]. repeat split.
    + intros k K. apply nth_error_update_at_neq. congruence.
    + right. rewrite length_app, P. simpl. lia.
Qed.

Lemma popularity_incremented_by_store_witness :
  exists i product w0 product',
    find_matching_product (fuzz := Examples.ex_fuzz) Examples.ex_env 80
      Examples.sony_again Examples.ex_world = Ok (i, product, w0)
    /\ popularity_score product' = (popularity_score product + 1)%Z.
Proof.
  destruct (popularity_incremented_by_store (fuzz := Examples.ex_fuzz)
              Examples.ex_env 80 Examples.sony_again Examples.amazon
              Examples.ex_world _ eq_refl)
    as ((i & product & w0 & product' & F & _ & _ & _ & P & _) & _).
  exists i, product, w0, product'. auto.
Defined.

(** [update_or_create_price] applies an observation and succeeds, and the
    popularity score of the product stays 5. *)
Lemma update_or_create_price_keeps_popularity :
  map popularity_score (products (db Examples.ex_world)) = [5%Z]
  /\ exists p1 w1,
       update_or_create_price Examples.ex_env "p-sony" "v-amazon"
         Examples.sony_again_data Examples.ex_world = Ok (p1, w1)
       /\ map popularity_score (products (db w1)) = [5%Z].
Proof.
  split; [reflexivity|]. eexists; eexists. split; reflexivity.
Qed.

(** The discount of [update_or_create_price] depends on the observation
    only: it is the percentage when the list price is present, not zero and
    above the price, and [None] otherwise. *)
Lemma calc_discount_spec (new_price : Q) (o : option Q) :
  match o with
  | Some orig =>
      (new_price < orig /\ ~ orig == 0 ->
       calc_discount new_price o = Some (((orig - new_price) / orig) * 100))
      /\ (orig <= new_price \/ orig == 0 -> calc_discount new_price o = None)
  | None => calc_discount new_price o = None
  end.
Proof.
  destruct o as [orig|]; [|reflexivity]. unfold calc_discount, truthy.
  destruct (Qeq_bool orig 0) eqn:Z; simpl.
  - apply Qeq_bool_iff in Z. split; [intros [_ N]; contradiction | reflexivity].
  - assert (~ orig == 0) by (intro Z'; apply Qeq_bool_iff in Z'; congruence).
    destruct (Qltb new_price orig) eqn:L; qbool; split; intro A;
      try reflexivity; exfalso; intuition lra.
Qed.

(** C1 on the failing input: an observation without a list price leaves
    the discount of the previous observation on the price row. *)
Theorem store_keeps_stale_discount :
  sp_original_price Examples.sony_again = None
  /\ discount_percentage Examples.sony_at_amazon = Some 25
  /\ (exists w' row,
        _store_product_data (fuzz := Examples.ex_fuzz) Examples.ex_env 80
          Examples.sony_again Examples.amazon Examples.ex_world = Ok w'
        /\ prices (db w') = [row]
        /\ original_price row = None
        /\ discount_percentage row = Some 25)
  /\ (exists row w1,
        update_or_create_price Examples.ex_env "p-sony" "v-amazon"
          Examples.sony_again_data Examples.ex_world = Ok (row, w1)
        /\ prices (db w1) = [row]
        /\ original_price row = None
        /\ discount_percentage row = None).
Proof.
  split; [reflexivity|]. split; [reflexivity|]. split.
  - eexists; eexists. split; [reflexivity|]. repeat split.
  - eexists; eexists. split; [reflexivity|]. repeat split.
Qed.

(** [_store_product_data] computes a discount whenever both prices are
    present and not zero: a price equal to the list price is stored with
    the discount 0.00, where [update_or_create_price] stores none. *)
Lemma store_discount_without_reduction :
  exists w' row d,
    _store_product_data (fuzz := Examples.ex_fuzz) Examples.ex_env 80
      Examples.sony_no_reduction Examples.amazon Examples.ex_world = Ok w'
    /\ prices (db w') = [row]
    /\ discount_percentage row = Some d
    /\ d == 0
    /\ calc_discount 100 (Some 100) = None.
Proof.
  eexists; eexists; eexists. split; [reflexivity|]. repeat split.
Qed.

(** C5 on the failing input: the update of an existing price row by
    [_store_product_data] keeps the stored variation details instead of
    taking those of the observation. *)
Theorem store_keeps_variation_details :
  sp_variations Examples.sony_again <> variation_details Examples.sony_at_amazon
  /\ (exists w' row,
        _store_product_data (fuzz := Examples.ex_fuzz) Examples.ex_env 80
          Examples.sony_again Examples.amazon Examples.ex_world = Ok w'
        /\ prices (db w') = [row]
        /\ stock_status row = sp_stock_status Examples.sony_again
        /\ product_url row = sp_product_url Examples.sony_again
        /\ last_updated_at row = utcnow Examples.ex_env 0
        /\ variation_details row = variation_details Examples.sony_at_amazon)
  /\ (exists row w1,
        update_or_create_price Examples.ex_env "p-sony" "v-amazon"
          Examples.sony_again_data Examples.ex_world = Ok (row, w1)
        /\ prices (db w1) = [row]
        /\ variation_details row = sp_variations Examples.sony_again).
Proof.
  split; [discriminate|]. split.
  - eexists; eexists. split; [reflexivity|]. repeat split.
  - eexists; eexists. split; [reflexivity|]. repeat split.
Qed.

(** Observations with an empty name and the price 0, or with a negative
    price, are stored and counted as scraped: each gets a product and a
    price row. *)
Lemma malformed_observations_stored :
  sp_name Examples.empty_free = Some EmptyString
  /\ sp_price Examples.empty_free == 0
  /\ sp_price Examples.negative < 0
  /\ exists w',
       store_loop (fuzz := Examples.ex_fuzz) Examples.ex_env 80
         [Examples.empty_free; Examples.negative] Examples.amazon
         (mkVendorResults 0 0) Examples.empty_world
       = (mkVendorResults 2 0, w')
       /\ map product_name (products (db w')) = [EmptyString; "Gift card"]
       /\ map price (prices (db w')) = [0; -5].
Proof.
  split; [reflexivity|]. split; [reflexivity|]. split; [reflexivity|].
  eexists. split; [reflexivity|]. split; reflexivity.
Qed.

(** C9, as the code has it.  The matcher rejects exactly the observations
    without a name: none of their rows is created or updated, the loop
    counts one error and goes on from the same state.  An observation with
    a name, empty or not, and any price is stored: a price row of the
    vendor carries its price, its product is in the catalog, and the loop
    counts it as scraped. *)
Theorem observation_rejected_iff_nameless {fuzz : Fuzz} (env : Env)
    (similarity_threshold : Z) (sp : ScrapedProduct) (vendor : Vendor) (w : World) :
  match sp_name sp with
  | None =>
      (exists e, find_matching_product env similarity_threshold sp w = Raise e)
      /\ (exists e, _store_product_data env similarity_threshold sp vendor w = Raise e)
      /\ forall rest acc,
           store_loop env similarity_threshold (sp :: rest) vendor acc w
           = store_loop env similarity_threshold rest vendor
               (mkVendorResults (vr_products_scraped acc) (vr_errors acc + 1)) w
  | Some _ =>
      exists w' row product,
        _store_product_data env similarity_threshold sp vendor w = Ok w'
        /\ In row (prices (db w'))
        /\ price row = sp_price sp
        /\ price_vendor_id row = vendor_id vendor
        /\ In product (products (db w'))
        /\ product_id product = price_product_id row
        /\ forall rest acc,
             store_loop env similarity_threshold (sp :: rest) vendor acc w
             = store_loop env similarity_threshold rest vendor
                 (mkVendorResults (vr_products_scraped acc + 1) (vr_errors acc)) w'
  end.
Proof.
  pose proof (find_matching_product_named env similarity_threshold sp w) as N.
  destruct (sp_name sp) as [name|].
  - destruct N as (i & product & w0 & F).
    destruct (find_matching_product_row _ _ _ _ _ _ _ F) as (P & _).
    destruct (find_index (price_of (product_id product) (vendor_id vendor))
                (prices (db w0))) as [[j existing]|] eqn:E.
    + pose proof (store_update _ _ _ _ _ _ _ _ _ _ F E) as S.
      destruct (find_index_nth _ _ _ _ E) as [Hn Hx].
      destruct (price_of_ids _ _ _ Hx) as [X1 X2].
      eexists; eexists; exists (increment_popularity product).
      split; [exact S|]. cbn [db prices products].
      split; [eapply nth_error_In, nth_error_update_at_eq; exact Hn|].
      split; [reflexivity|]. split; [exact X2|].
      split; [eapply nth_error_In, nth_error_update_at_eq; exact P|].
      split; [simpl; congruence|].
      intros rest acc. simpl. now rewrite S.
    + pose proof (store_insert _ _ _ _ _ _ _ _ F E) as S.
      eexists; eexists; exists (increment_popularity product).
      split; [exact S|]. cbn [db prices products].
      split; [apply in_or_app; right; left; reflexivity|].
      split; [reflexivity|]. split; [reflexivity|].
      split; [eapply nth_error_In, nth_error_update_at_eq; exact P|].
      split; [reflexivity|].
      intros rest acc. simpl. now rewrite S.
  - destruct N as (e & F).
    pose proof (store_raises _ _ _ vendor _ _ F) as S.
    split; [eauto|]. split; [eauto|].
    intros rest acc. simpl. now rewrite S.
Qed.

(** ** The run loop *)

Section RunFacts.
Context {fuzz : Fuzz}.
Variable env : Env.
Variable similarity_threshold : Z.

Local Abbreviation errors_in log :=
  (count is_store_failed log + count is_query_failed log)%Z.

Lemma count_cons (p : outcome -> bool) (o : outcome) (log : list outcome) :
  count p (o :: log) = ((if p o then 1 else 0) + count p log)%Z.
Proof.
  unfold count. cbn [filter]. destruct (p o); cbn [List.length]; lia.
Qed.

Lemma count_app (p : outcome -> bool) (l1 l2 : list outcome) :
  count p (l1 ++ l2) = (count p l1 + count p l2)%Z.
Proof.
  unfold count. rewrite filter_app, length_app. lia.
Qed.

(** The product loop counts its outcomes and keeps the runs table. *)
Lemma store_loop_counts (vendor : Vendor) (sps : list ScrapedProduct) :
  forall acc w,
    let '(log, w') := store_outcomes env similarity_threshold sps vendor w in
    store_loop env similarity_threshold sps vendor acc w
    = (mkVendorResults (vr_products_scraped acc + count is_stored log)
         (vr_errors acc + errors_in log), w')
    /\ count is_query_failed log = 0%Z
    /\ scraper_runs (db w') = scraper_runs (db w).
Proof.
  induction sps as [|sp rest IH]; intros acc w; simpl.
  - destruct acc. unfold count. cbn. rewrite !Z.add_0_r. auto.
  - destruct (_store_product_data env similarity_threshold sp vendor w)
      as [w1|e] eqn:S.
    + specialize (IH (mkVendorResults (vr_products_scraped acc + 1) (vr_errors acc)) w1).
      destruct (store_outcomes env similarity_threshold rest vendor w1) as [log w2].
      destruct IH as (A & B & C). rewrite A, !count_cons.
      cbn [is_stored is_store_failed is_query_failed vr_products_scraped vr_errors].
      destruct (store_frame _ _ _ _ _ _ S) as [_ R].
      repeat split; [f_equal; f_equal; lia | assumption | congruence].
    + specialize (IH (mkVendorResults (vr_products_scraped acc) (vr_errors acc + 1)) w).
      destruct (store_outcomes env similarity_threshold rest vendor w) as [log w2].
      destruct IH as (A & B & C). rewrite A, !count_cons.
      cbn [is_stored is_store_failed is_query_failed vr_products_scraped vr_errors].
      repeat split; [f_equal; f_equal; lia | assumption | assumption].
Qed.

Lemma query_loop_counts (scraper : Scraper) (vendor : Vendor) (queries : list string) :
  forall acc w,
    let '(log, w') := query_outcomes env similarity_threshold scraper vendor queries w in
    query_loop env similarity_threshold scraper vendor queries acc w
    = (mkVendorResults (vr_products_scraped acc + count is_stored log)
         (vr_errors acc + errors_in log), w')
    /\ scraper_runs (db w') = scraper_runs (db w).
Proof.
  induction queries as [|q rest IH]; intros acc w; simpl.
  - destruct acc. unfold count. cbn. rewrite !Z.add_0_r. auto.
  - destruct (search_product scraper (tick w) q) as [sps|e].
    + pose proof (store_loop_counts vendor sps acc (mkWorld (db w) (S (tick w)))) as L.
      destruct (store_outcomes env similarity_threshold sps vendor
                  (mkWorld (db w) (S (tick w)))) as [log1 w2].
      destruct L as (A & B & C). rewrite A.
      specialize (IH (mkVendorResults (vr_products_scraped acc + count is_stored log1)
                        (vr_errors acc + errors_in log1)) w2).
      destruct (query_outcomes env similarity_threshold scraper vendor rest w2)
        as [log2 w3].
      destruct IH as (D & E). rewrite D, !count_app.
      cbn [vr_products_scraped vr_errors db] in *.
      split; [f_equal; f_equal; lia | congruence].
    + specialize (IH (mkVendorResults (vr_products_scraped acc) (vr_errors acc + 1))
                    (mkWorld (db w) (S (tick w)))).
      destruct (query_outcomes env similarity_threshold scraper vendor rest
                  (mkWorld (db w) (S (tick w)))) as [log w3].
      destruct IH as (D & E). rewrite D, !count_cons.
      cbn [is_stored is_store_failed is_query_failed vr_products_scraped vr_errors db] in *.
      split; [f_equal; f_equal; lia | assumption].
Qed.

(** How a run is closed: "failed" exactly when the body raised. *)
Lemma close_run_status (ix : nat) (vendor : Vendor) (outcome : Exc vendor_results)
    (res : results) (w : World) (r : ScraperRun) :
  nth_error (scraper_runs (db w)) ix = Some r ->
  exists r',
    nth_error (scraper_runs (db (snd (close_run env ix vendor outcome res w)))) ix
    = Some r'
    /\ (status r' = "failed" <-> exists e, outcome = Raise e)
    /\ (status r' = "completed" <-> exists v, outcome = Ok v).
Proof.
  intro N. destruct outcome as [v|e]; simpl;
    (eexists; split; [apply nth_error_update_at_eq; exact N|]); simpl;
    split; split; intro H; try discriminate; eauto;
    destruct H as [x H]; discriminate.
Qed.

End RunFacts.

(** On a database that accepts every commit a vendor run never raises: a
    failing query and a failing store are each caught and counted in
    [errors], [products_scraped] counts the stores that succeeded, and the
    run is closed as "completed" with these counts and without a run-level
    error; a run is closed as "failed" only when its body raised. *)
Lemma run_completes_with_counts {fuzz : Fuzz} (env : Env) (similarity_threshold : Z)
    (vendor : Vendor) (scraper : Scraper) (queries : list string)
    (res : results) (w : World) :
  let started := snd (_start_scraper_run env vendor w) in
  let log := fst (query_outcomes env similarity_threshold scraper vendor queries started) in
  let ix := List.length (scraper_runs (db w)) in
  exists r w1 res' w' run,
    _run_vendor_scraper env similarity_threshold scraper vendor queries started
    = (Ok r, w1)
    /\ vr_products_scraped r = count is_stored log
    /\ vr_errors r = (count is_query_failed log + count is_store_failed log)%Z
    /\ run_vendor env similarity_threshold vendor scraper queries res w = (res', w')
    /\ nth_error (scraper_runs (db w')) ix = Some run
    /\ status run = "completed"
    /\ products_scraped run = vr_products_scraped r
    /\ errors_count run = vr_errors r
    /\ total_errors res' = total_errors res
    /\ total_products res' = (total_products res + vr_products_scraped r)%Z
    /\ forall outcome res0 w0 run0,
         nth_error (scraper_runs (db w0)) ix = Some run0 ->
         exists run1,
           nth_error (scraper_runs (db (snd (close_run env ix vendor outcome res0 w0)))) ix
           = Some run1
           /\ (status run1 = "failed" <-> exists e, outcome = Raise e).
Proof.
  intros started log ix.
  pose proof (query_loop_counts env similarity_threshold scraper vendor queries
                (mkVendorResults 0 0) started) as L.
  unfold run_vendor.
  change (_start_scraper_run env vendor w) with (ix, started). cbv beta iota.
  unfold _run_vendor_scraper. subst log.
  destruct (query_outcomes env similarity_threshold scraper vendor queries started)
    as [log w1].
  destruct L as (A & R). rewrite A. cbn [fst].
  assert (N : nth_error (scraper_runs (db w1)) ix
              = Some (mkScraperRun (uuid4 env (tick w)) (vendor_id vendor) "running" 0 0
                        None None (Some (utcnow env (S (tick w)))) None)).
  { rewrite R. unfold started, _start_scraper_run. cbn [snd db scraper_runs set_scraper_runs].
    unfold ix. rewrite nth_error_app2, Nat.sub_diag; auto. }
  eexists; eexists; eexists; eexists; eexists.
  split; [reflexivity|]. cbn [vr_products_scraped vr_errors].
  split; [lia|]. split; [lia|].
  split; [reflexivity|].
  cbn [close_run _complete_scraper_run db scraper_runs set_scraper_runs
       total_errors total_products].
  split; [apply nth_error_update_at_eq; exact N|].
  cbn [status products_scraped errors_count vr_products_scraped vr_errors].
  repeat split.
  intros outcome res0 w0 run0 N0.
  destruct (close_run_status env ix vendor outcome res0 w0 run0 N0) as (r' & X & Y & _).
  exists r'. split; assumption.
Qed.

(** Ten queries of which three fail, each of the others returning one
    product: the run is completed with 7 products and 3 errors. *)
Lemma three_of_ten_queries_fail :
  exists w' run,
    snd (run_vendor (fuzz := Examples.ex_fuzz) Examples.ex_env 80 Examples.amazon
           Examples.flaky Examples.ten_queries (mkResults 0 0 []) Examples.empty_world)
    = w'
    /\ scraper_runs (db w') = [run]
    /\ status run = "completed"
    /\ products_scraped run = 7%Z
    /\ errors_count run = 3%Z.
Proof.
  eexists; eexists. split; [reflexivity|]. vm_compute. repeat split.
Qed.

(** ** Trends *)

(** The two classifications, as functions of the percentage change. *)
Lemma market_direction_cases (c : Q) :
  (Qabs c < 2 -> market_direction c = "stable")
  /\ (2 < c -> market_direction c = "increasing")
  /\ (c < -2 -> market_direction c = "decreasing")
  /\ (market_direction c = "stable" <-> Qabs c <= 2).
Proof.
  unfold market_direction.
  assert (A : Qabs c <= 2 <-> -2 <= c /\ c <= 2).
  { change (-2) with (- (2)). apply Qabs_Qle_condition. }
  assert (B : Qabs c < 2 -> -2 < c /\ c < 2).
  { intro H. apply Qabs_Qlt_condition in H. exact H. }
  destruct (Qltb 2 c) eqn:X; [|destruct (Qltb c (-2)) eqn:Y]; qbool;
    repeat split; intros; try discriminate; try reflexivity;
    try (exfalso; intuition lra); try (apply A; lra).
Qed.


(** [get_price_history] lists the most recently updated price first. *)
Lemma insert_desc_sorted {A : Type} (key : A -> Z) (x : A) (l : list A) :
  StronglySorted (fun a b => (key b <= key a)%Z) l ->
  StronglySorted (fun a b => (key b <= key a)%Z) (insert_desc key x l).
Proof.
  induction 1 as [|y l S IH F]; simpl.
  - constructor; constructor.
  - destruct (key y <=? key x)%Z eqn:C.
    + apply Z.leb_le in C. constructor; [constructor; assumption|].
      constructor; [exact C|].
      eapply Forall_impl; [|exact F]. intros a L. simpl in L. lia.
    + apply Z.leb_gt in C. constructor; [exact IH|].
      assert (G : forall z, In z (insert_desc key x l) -> z = x \/ In z l).
      { clear. induction l as [|u l IHl]; simpl; intros z H.
        - destruct H as [<-|[]]. now left.
        - destruct (key u <=? key x)%Z; simpl in H.
          + destruct H as [<-|H]; [now left | now right].
          + destruct H as [H|H]; [auto | destruct (IHl _ H); auto]. }
      apply Forall_forall. intros z Hz.
      destruct (G _ Hz) as [->|Hz']; [lia|].
      rewrite Forall_forall in F. now apply F.
Qed.

Lemma sort_desc_sorted {A : Type} (key : A -> Z) (l : list A) :
  StronglySorted (fun a b => (key b <= key a)%Z) (sort_desc key l).
Proof.
  induction l as [|x l IH]; simpl; [constructor | now apply insert_desc_sorted].
Qed.

Lemma get_price_history_newest_first (now : datetime) (d : DB) (pid : string) (n : Z) :
  StronglySorted (fun a b => (hp_timestamp b <= hp_timestamp a)%Z)
    (get_price_history now d pid n).
Proof.
  unfold get_price_history.
  match goal with |- context [sort_desc ?k ?l] =>
    pose proof (sort_desc_sorted k l) as S; revert S; generalize (sort_desc k l) end.
  induction 1 as [|y l S IH F]; simpl; constructor; [exact IH|].
  rewrite Forall_map. eapply Forall_impl; [|exact F]. intros a L. exact L.
Qed.

(** C7 on the failing input.  Eleven prices of one product, ten at 100.00
    and the most recently updated one at 200.00: the mean of the ten most
    recent prices (110.00) is 10% above the mean of the ten oldest
    (100.00).  [calculate_price_trends] on the list of [get_price_history],
    which is newest first, takes the last ten entries as the recent window
    and the first ten as the older one, and reports "decreasing". *)
Theorem market_trend_of_rising_prices :
  let history := get_price_history (12 * hour)%Z Examples.rising_db "p-sony" 30 in
  let newest_first := sort_desc hp_timestamp history in
  let oldest_first := sort_asc hp_timestamp history in
  List.length history = 11%nat
  /\ history = newest_first
  /\ mean (map hp_price (firstn 10 newest_first)) == 110
  /\ mean (map hp_price (firstn 10 oldest_first)) == 100
  /\ all_recent_prices history = map hp_price (skipn 1 newest_first)
  /\ all_older_prices history = map hp_price (firstn 10 newest_first)
  /\ exists vendor_trends overall,
       calculate_price_trends history = Ok (Trends vendor_trends overall)
       /\ direction overall = "decreasing"
       /\ recent_average overall == 100
       /\ historical_average overall == 110.
Proof.
  cbv zeta. repeat split; try (vm_compute; reflexivity).
  eexists; eexists. split; [vm_compute; reflexivity|].
  repeat split; vm_compute; reflexivity.
Qed.

(** ** Patterns and prices *)

Lemma length_append (a b : string) :
  String.length (a ++ b) = (String.length a + String.length b)%nat.
Proof.
  induction a as [|c a IH]; simpl; auto.
Qed.

Lemma append_assoc (a b c : string) : ((a ++ b) ++ c = a ++ (b ++ c))%string.
Proof.
  induction a as [|x a IH]; simpl; [reflexivity | now rewrite IH].
Qed.

Lemma append_empty_r (a : string) : (a ++ EmptyString)%string = a.
Proof.
  induction a as [|x a IH]; simpl; [reflexivity | now rewrite IH].
Qed.

Lemma substring_prefix (m rest : string) :
  String.substring 0 (String.length (m ++ rest) - String.length rest) (m ++ rest) = m.
Proof.
  rewrite length_append, Nat.add_sub.
  induction m as [|c m IH]; simpl.
  - destruct rest; reflexivity.
  - now rewrite IH.
Qed.

(** The matcher only returns through its continuation, after a text of the
    language. *)
Lemma rmatch_sound (r : regex) :
  forall s k x,
    rmatch r s k = Some x ->
    exists m s', s = (m ++ s')%string /\ lang r m /\ k s' = Some x.
Proof.
  induction r as [|p|r1 IH1 r2 IH2|r1 IH1 r2 IH2|r1 IH1|r1 IH1]; intros s k x H;
    simpl in H.
  - exists EmptyString, s. repeat split; [constructor | exact H].
  - destruct s as [|c t]; [discriminate|].
    destruct (p c) eqn:P; [|discriminate].
    exists (String c EmptyString), t. repeat split; [now constructor | exact H].
  - destruct (IH1 _ _ _ H) as (m1 & s1 & -> & L1 & H1).
    destruct (IH2 _ _ _ H1) as (m2 & s2 & -> & L2 & H2).
    exists (m1 ++ m2)%string, s2. rewrite append_assoc.
    repeat split; [now constructor | exact H2].
  - destruct (rmatch r1 s k) as [y|] eqn:E.
    + inversion H; subst y.
      destruct (IH1 _ _ _ E) as (m & s' & -> & L & K).
      exists m, s'. repeat split; [now apply lang_alt_l | exact K].
    + destruct (IH2 _ _ _ H) as (m & s' & -> & L & K).
      exists m, s'. repeat split; [now apply lang_alt_r | exact K].
  - destruct (rmatch r1 s k) as [y|] eqn:E.
    + inversion H; subst y.
      destruct (IH1 _ _ _ E) as (m & s' & -> & L & K).
      exists m, s'. repeat split; [now apply lang_opt_some | exact K].
    + exists EmptyString, s. repeat split; [apply lang_opt_none | exact H].
  - revert H. generalize (String.length s) as n. intro n. revert s.
    induction n as [|n IHn]; intros s H.
    + exists EmptyString, s. repeat split; [apply lang_star_nil | exact H].
    + match type of H with
      | match ?e with _ => _ end = _ => destruct e as [y|] eqn:E
      end.
      * inversion H; subst y.
        destruct (IH1 _ _ _ E) as (m & s' & -> & L & K).
        destruct (String.length s' <? String.length (m ++ s'))%nat; [|discriminate].
        destruct (IHn _ K) as (m2 & s2 & -> & L2 & K2).
        exists (m ++ m2)%string, s2. rewrite append_assoc.
        repeat split; [now apply lang_star_cons | exact K2].
      * exists EmptyString, s. repeat split; [apply lang_star_nil | exact H].
Qed.

Lemma match_at_sound (r : regex) (s m rest : string) :
  match_at r s = Some (m, rest) -> s = (m ++ rest)%string /\ lang r m.
Proof.
  unfold match_at. destruct (rmatch r s Some) as [x|] eqn:E; [|discriminate].
  destruct (rmatch_sound r _ _ _ E) as (m' & s' & -> & L & K).
  inversion K; subst x. rewrite substring_prefix.
  intro H; inversion H; subst. auto.
Qed.

Lemma search_sound (r : regex) (s m : string) :
  search r s = Some m -> lang r m.
Proof.
  induction s as [|c t IH]; simpl.
  - destruct (match_at r EmptyString) as [[m' rest]|] eqn:E; [|discriminate].
    intro H; inversion H; subst. now apply (match_at_sound _ _ _ _ E).
  - destruct (match_at r (String c t)) as [[m' rest]|] eqn:E; [|exact IH].
    intro H; inversion H; subst. now apply (match_at_sound _ _ _ _ E).
Qed.

(** Characters. *)
Lemma digit_not (c d : ascii) :
  is_digit c = true -> is_digit d = false -> Ascii.eqb c d = false.
Proof.
  intros C D. destruct (Ascii.eqb_spec c d) as [->|]; congruence.
Qed.

Lemma space_not_digit (c : ascii) : is_space c = true -> is_digit c = false.
Proof.
  unfold is_space, is_digit. intro H.
  apply andb_false_iff.
  apply orb_true_iff in H. rewrite !andb_true_iff, !Nat.leb_le in H.
  rewrite Nat.leb_gt, Nat.leb_gt. lia.
Qed.

Lemma digit_is_price_char (c : ascii) : is_digit c = true -> is_price_char c = true.
Proof.
  unfold is_price_char. now intros ->.
Qed.

(** Texts. *)
Lemma filter_chars_app (p : ascii -> bool) (a b : string) :
  filter_chars p (a ++ b) = (filter_chars p a ++ filter_chars p b)%string.
Proof.
  induction a as [|c a IH]; simpl; [reflexivity|].
  destruct (p c); simpl; now rewrite IH.
Qed.

Lemma forall_char_app (p : ascii -> bool) (a b : string) :
  forall_char p (a ++ b) = forall_char p a && forall_char p b.
Proof.
  induction a as [|c a IH]; simpl; [reflexivity|].
  now rewrite IH, andb_assoc.
Qed.

Lemma remove_commas_digits (s : string) :
  forall_char is_digit s = true -> remove_commas s = s.
Proof.
  unfold remove_commas. induction s as [|c s IH]; simpl; [reflexivity|].
  intro H. apply andb_true_iff in H. destruct H as [C H].
  rewrite (digit_not c ","%char C eq_refl). simpl. now rewrite IH.
Qed.

Lemma exists_digit_filter (s : string) :
  exists_char is_digit (filter_chars is_price_char s) = exists_char is_digit s.
Proof.
  induction s as [|c s IH]; simpl; [reflexivity|].
  destruct (is_digit c) eqn:D.
  - rewrite (digit_is_price_char _ D). simpl. now rewrite D.
  - destruct (is_price_char c); simpl; rewrite ?D; exact IH.
Qed.

Lemma exists_digit_lstrip (s : string) :
  exists_char is_digit (lstrip s) = exists_char is_digit s.
Proof.
  induction s as [|c s IH]; simpl; [reflexivity|].
  destruct (is_space c) eqn:W; [|reflexivity].
  now rewrite (space_not_digit _ W).
Qed.

Lemma exists_digit_rstrip (s : string) :
  exists_char is_digit (rstrip s) = exists_char is_digit s.
Proof.
  induction s as [|c s IH]; simpl; [reflexivity|].
  destruct (rstrip s) as [|d r] eqn:R.
  - simpl in IH. rewrite <- IH.
    destruct (is_space c) eqn:W; simpl.
    + now rewrite (space_not_digit _ W).
    + now rewrite orb_false_r.
  - cbn [exists_char] in *. now rewrite IH.
Qed.

Lemma exists_digit_clean (s : string) :
  exists_char is_digit (clean s) = exists_char is_digit s.
Proof.
  unfold clean, strip.
  now rewrite exists_digit_filter, exists_digit_rstrip, exists_digit_lstrip.
Qed.

(** What the price patterns match. *)
Ltac inv_lang :=
  repeat match goal with
    | H : lang (Seq _ _) _ |- _ => inversion H; subst; clear H
    | H : lang (Chr _) _ |- _ => inversion H; subst; clear H
    | H : lang (Opt _) _ |- _ => inversion H; subst; clear H
    | H : lang Eps _ |- _ => inversion H; subst; clear H
    end.

Ltac eqb_subst :=
  repeat match goal with
    | H : Ascii.eqb _ _ = true |- _ => apply Ascii.eqb_eq in H; subst
    end.

Ltac digits_not_commas :=
  repeat match goal with
    | H : is_digit ?c = true |- context [Ascii.eqb ?c ","%char] =>
        rewrite (digit_not c ","%char H eq_refl)
    end;
  simpl;
  repeat match goal with
    | H : is_digit ?c = true |- context [is_digit ?c] => rewrite H
    end.

Lemma lang_digit_1_3 (m : string) :
  lang digit_1_3 m -> forall_char is_digit m = true /\ m <> EmptyString.
Proof.
  unfold digit_1_3, digit. intro H. inv_lang; simpl;
    repeat match goal with H : is_digit _ = true |- _ => rewrite H; clear H end;
    split; (reflexivity || discriminate).
Qed.

Lemma lang_groups (m : string) :
  lang (Star (Seq comma digit_3)) m -> forall_char is_digit (remove_commas m) = true.
Proof.
  remember (Star (Seq comma digit_3)) as r eqn:R. intro H.
  induction H; inversion R; subst; [reflexivity|].
  unfold remove_commas in *. rewrite filter_chars_app, forall_char_app.
  rewrite IHlang2 by reflexivity. rewrite andb_true_r.
  clear IHlang1 IHlang2 H0. unfold comma, digit_3, digit in H. inv_lang.
  eqb_subst. simpl. digits_not_commas. reflexivity.
Qed.

Lemma lang_grouped (m : string) :
  lang grouped m ->
  forall_char is_digit (remove_commas m) = true /\ remove_commas m <> EmptyString.
Proof.
  unfold grouped. intro H. inversion H; subst; clear H.
  destruct (lang_digit_1_3 _ H2) as [D N]. pose proof (lang_groups _ H4) as G.
  unfold remove_commas in *. rewrite filter_chars_app.
  fold (remove_commas a). rewrite (remove_commas_digits _ D).
  rewrite forall_char_app, D, G. split; [reflexivity|].
  destruct a; [congruence | discriminate].
Qed.

Lemma lang_grouped_cents (m : string) :
  lang (Seq grouped (Seq dot digit_2)) m ->
  exists i f,
    remove_commas m = (i ++ String "."%char f)%string
    /\ forall_char is_digit i = true /\ i <> EmptyString
    /\ forall_char is_digit f = true.
Proof.
  intro H. inversion H; subst; clear H.
  destruct (lang_grouped _ H2) as [D N].
  unfold dot, digit_2, digit in H4. inv_lang.
  eqb_subst.
  match goal with
  | |- context [(a ++ (_ ++ (String ?x EmptyString ++ String ?y EmptyString)))%string] =>
      exists (remove_commas a), (String x (String y EmptyString))
  end.
  unfold remove_commas in *. rewrite filter_chars_app. simpl.
  digits_not_commas. auto.
Qed.

(** [Decimal] on digits and on digits with a fraction. *)
Lemma digits_value_nonneg (s : string) (acc : Z) :
  (0 <= acc)%Z -> (0 <= digits_value acc s)%Z.
Proof.
  revert acc. induction s as [|c s IH]; cbn [digits_value]; intros acc A; [exact A|].
  apply IH. unfold digit_value. lia.
Qed.

Lemma split_point_digits (i : string) :
  forall_char is_digit i = true ->
  split_point i = (i, None)
  /\ forall f, split_point (i ++ String "."%char f) = (i, Some f).
Proof.
  induction i as [|c i IH]; simpl; intro H; [split; reflexivity|].
  apply andb_true_iff in H. destruct H as [C H].
  rewrite (digit_not c "."%char C eq_refl).
  destruct (IH H) as [A B]. rewrite A. split; [reflexivity|].
  intro f. now rewrite B.
Qed.

Lemma ratio_nonneg (n : Z) (k : nat) :
  (0 <= n)%Z -> 0 <= inject_Z n / inject_Z (10 ^ Z.of_nat k).
Proof.
  intro N.
  assert (P : 0 < inject_Z (10 ^ Z.of_nat k)).
  { change 0 with (inject_Z 0). rewrite <- Zlt_Qlt. apply Z.pow_pos_nonneg; lia. }
  apply Qle_shift_div_l; [exact P|].
  rewrite Qmult_0_l. change 0 with (inject_Z 0). now rewrite <- Zle_Qle.
Qed.

Lemma Decimal_unsigned (s : string) (c : ascii) (t : string) :
  s = String c t -> is_digit c = true -> Decimal s = unsigned_decimal s.
Proof.
  intros -> C. unfold Decimal.
  now rewrite (digit_not c "-"%char C eq_refl), (digit_not c "+"%char C eq_refl).
Qed.

Lemma Decimal_digits (i : string) :
  forall_char is_digit i = true -> i <> EmptyString ->
  exists d, Decimal i = Ok d /\ 0 <= d.
Proof.
  intros D N. destruct i as [|c t]; [congruence|].
  pose proof D as D'. simpl in D'. apply andb_true_iff in D'. destruct D' as [C _].
  rewrite (Decimal_unsigned _ c t eq_refl C). unfold unsigned_decimal.
  destruct (split_point_digits _ D) as [-> _].
  rewrite append_empty_r, D. cbn [forall_char andb String.eqb negb].
  eexists. split; [reflexivity|]. apply ratio_nonneg.
  apply digits_value_nonneg. lia.
Qed.

Lemma Decimal_fraction (i f : string) :
  forall_char is_digit i = true -> i <> EmptyString ->
  forall_char is_digit f = true ->
  exists d, Decimal (i ++ String "."%char f) = Ok d /\ 0 <= d.
Proof.
  intros D N F. destruct i as [|c t]; [congruence|].
  pose proof D as D'. simpl in D'. apply andb_true_iff in D'. destruct D' as [C _].
  rewrite (Decimal_unsigned (String c t ++ String "."%char f) c
             (t ++ String "."%char f) eq_refl C).
  unfold unsigned_decimal.
  destruct (split_point_digits _ D) as [_ ->].
  rewrite D, F. cbn [andb append String.eqb negb].
  eexists. split; [reflexivity|]. apply ratio_nonneg.
  apply digits_value_nonneg. lia.
Qed.

(** When the matcher succeeds and when it cannot. *)
Lemma rmatch_opt_total (r : regex) (s : string) (k : string -> option string) :
  (forall s', k s' <> None) -> rmatch (Opt r) s k <> None.
Proof.
  intro K. cbn [rmatch]. destruct (rmatch r s k); [discriminate | apply K].
Qed.

Lemma rmatch_star_total (r : regex) (s : string) (k : string -> option string) :
  (forall s', k s' <> None) -> rmatch (Star r) s k <> None.
Proof.
  intro K. cbn [rmatch]. destruct (String.length s) as [|n]; [apply K|].
  match goal with
  | |- match ?e with _ => _ end <> None => destruct e; [discriminate | apply K]
  end.
Qed.

Lemma match_at_grouped (c : ascii) (t : string) :
  is_digit c = true -> match_at grouped (String c t) <> None.
Proof.
  intro C. unfold match_at.
  assert (M : rmatch grouped (String c t) Some <> None).
  { unfold grouped, digit_1_3, digit.
    change (rmatch (Seq (Seq (Chr is_digit) ?a) ?b) (String c t) Some)
      with (if is_digit c
            then rmatch a t (fun s' => rmatch b s' Some) else None).
    rewrite C. apply rmatch_opt_total. intro s'. apply rmatch_star_total.
    discriminate. }
  destruct (rmatch grouped (String c t) Some); [discriminate | congruence].
Qed.

Lemma search_grouped (s : string) :
  exists_char is_digit s = true -> search grouped s <> None.
Proof.
  induction s as [|c t IH]; [discriminate|].
  cbn [exists_char search]. intro H.
  destruct (is_digit c) eqn:C.
  - pose proof (match_at_grouped c t C) as M.
    destruct (match_at grouped (String c t)) as [[m rest]|]; [discriminate | congruence].
  - destruct (match_at grouped (String c t)) as [[m rest]|]; [discriminate|].
    apply IH. exact H.
Qed.

Lemma leading_digit_digit : leading_digit digit.
Proof.
  intros [|c t] k H; cbn; [reflexivity | now rewrite H].
Qed.

Lemma leading_digit_seq (r1 r2 : regex) :
  leading_digit r1 -> leading_digit (Seq r1 r2).
Proof.
  intros L s k H. cbn [rmatch]. now apply L.
Qed.

Lemma search_no_digit (r : regex) (s : string) :
  leading_digit r -> exists_char is_digit s = false -> search r s = None.
Proof.
  intros L. induction s as [|c t IH]; cbn [exists_char search]; intro H.
  - unfold match_at. now rewrite (L EmptyString Some I).
  - apply orb_false_iff in H. destruct H as [C H].
    unfold match_at. rewrite (L (String c t) Some C). now apply IH.
Qed.

Lemma price_patterns_leading_digit :
  Forall leading_digit price_patterns.
Proof.
  unfold price_patterns, grouped, digit_1_3, Plus.
  repeat constructor; repeat apply leading_digit_seq; apply leading_digit_digit.
Qed.

Lemma first_price_no_digit (ps : list regex) (cleaned : string) :
  Forall leading_digit ps -> exists_char is_digit cleaned = false ->
  first_price ps cleaned = Ok None.
Proof.
  intros F H. induction F as [|p ps L F IH]; simpl; [reflexivity|].
  now rewrite (search_no_digit p cleaned L H).
Qed.

(** The result of [normalize_price] and the pattern it comes from. *)
Lemma normalize_price_patterns (price_text : string) :
  exists r,
    normalize_price price_text = Ok r
    /\ (r = None <->
        price_text = EmptyString \/ exists_char is_digit price_text = false)
    /\ forall d,
         r = Some d ->
         0 <= d
         /\ exists n pattern group1,
              nth_error price_patterns n = Some pattern
              /\ (forall k earlier,
                    (k < n)%nat -> nth_error price_patterns k = Some earlier ->
                    search earlier (clean price_text) = None)
              /\ search pattern (clean price_text) = Some group1
              /\ Decimal (remove_commas group1) = Ok d.
Proof.
  unfold normalize_price.
  destruct (String.eqb_spec price_text EmptyString) as [E|E].
  { exists None. split; [reflexivity|]. split; [tauto | discriminate]. }
  destruct (exists_char is_digit price_text) eqn:D.
  - assert (R : forall r : option Q,
               (r = None <-> price_text = EmptyString \/ true = false)
               <-> r <> None).
    { intro r. destruct r; split; intros; try congruence.
      - split; [discriminate | intros [?|?]; congruence].
      - exfalso. destruct H as [H _]. specialize (H eq_refl).
        destruct H; congruence. }
    pose proof (search_grouped (clean price_text)) as G.
    rewrite exists_digit_clean, D in G. specialize (G eq_refl).
    unfold price_patterns. cbn [first_price].
    destruct (search (Seq grouped (Seq dot digit_2)) (clean price_text))
      as [g1|] eqn:S1.
    + destruct (lang_grouped_cents _ (search_sound _ _ _ S1))
        as (i & f & Ei & Di & Ni & Df).
      destruct (Decimal_fraction i f Di Ni Df) as (d & Ed & Pd).
      rewrite Ei, Ed. exists (Some d).
      split; [reflexivity|]. split; [apply R; discriminate|].
      intros d' H; inversion H; subst d'. split; [exact Pd|].
      exists 0%nat, (Seq grouped (Seq dot digit_2)), g1.
      split; [reflexivity|]. split; [intros k e K; lia|].
      split; [exact S1 | now rewrite Ei].
    + destruct (search grouped (clean price_text)) as [g2|] eqn:S2; [|congruence].
      destruct (lang_grouped _ (search_sound _ _ _ S2)) as (Di & Ni).
      destruct (Decimal_digits _ Di Ni) as (d & Ed & Pd).
      rewrite Ed. exists (Some d).
      split; [reflexivity|]. split; [apply R; discriminate|].
      intros d' H; inversion H; subst d'. split; [exact Pd|].
      exists 1%nat, grouped, g2.
      split; [reflexivity|]. split.
      * intros k e K N. destruct k as [|k]; [|lia].
        simpl in N. inversion N; subst e. exact S1.
      * split; [exact S2 | exact Ed].
  - rewrite (first_price_no_digit price_patterns (clean price_text)
               price_patterns_leading_digit)
      by (now rewrite exists_digit_clean).
    exists None. split; [reflexivity|]. split; [tauto | discriminate].
Qed.

(** What the cleaning keeps. *)
Lemma space_not_price_char (c : ascii) : is_space c = true -> is_price_char c = false.
Proof.
  intro W. unfold is_price_char. rewrite (space_not_digit _ W). cbn [orb].
  destruct (Ascii.eqb_spec c "."%char) as [->|_]; [discriminate W|].
  destruct (Ascii.eqb_spec c ","%char) as [->|_]; [discriminate W|].
  reflexivity.
Qed.

Lemma filter_price_chars_lstrip (s : string) :
  filter_chars is_price_char (lstrip s) = filter_chars is_price_char s.
Proof.
  induction s as [|c s IH]; cbn [lstrip filter_chars]; [reflexivity|].
  destruct (is_space c) eqn:W; [|reflexivity].
  now rewrite (space_not_price_char _ W).
Qed.

Lemma filter_price_chars_rstrip (s : string) :
  filter_chars is_price_char (rstrip s) = filter_chars is_price_char s.
Proof.
  induction s as [|c s IH]; cbn [rstrip filter_chars]; [reflexivity|].
  destruct (rstrip s) as [|d r] eqn:R.
  - cbn [filter_chars] in IH. rewrite <- IH.
    destruct (is_space c) eqn:W.
    + now rewrite (space_not_price_char _ W).
    + cbn [filter_chars]. reflexivity.
  - cbn [filter_chars] in *. now rewrite IH.
Qed.

(** The cleaned text is the text without every character that is not a
    digit, a dot or a comma. *)
Lemma clean_keeps_price_chars (s : string) : clean s = filter_chars is_price_char s.
Proof.
  unfold clean, strip.
  now rewrite filter_price_chars_rstrip, filter_price_chars_lstrip.
Qed.

Lemma is_price_char_spec (c : ascii) :
  is_price_char c = true <-> is_digit c = true \/ c = "."%char \/ c = ","%char.
Proof.
  unfold is_price_char. rewrite !orb_true_iff, !Ascii.eqb_eq. tauto.
Qed.

Lemma exists_digit_no_price_char (s : string) :
  filter_chars is_price_char s = EmptyString -> exists_char is_digit s = false.
Proof.
  induction s as [|c s IH]; cbn [filter_chars exists_char]; [reflexivity|].
  destruct (is_price_char c) eqn:P; [discriminate|].
  intro H. rewrite (IH H), orb_false_r.
  destruct (is_digit c) eqn:D; [|reflexivity].
  now rewrite (digit_is_price_char _ D) in P.
Qed.

Lemma normalize_price_of_price_chars (a b : string) :
  a <> EmptyString -> b <> EmptyString ->
  filter_chars is_price_char a = filter_chars is_price_char b ->
  normalize_price a = normalize_price b.
Proof.
  intros A B E. unfold normalize_price.
  destruct (String.eqb_spec a EmptyString); [contradiction|].
  destruct (String.eqb_spec b EmptyString); [contradiction|].
  now rewrite !clean_keeps_price_chars, E.
Qed.

(** C10. [normalize_price] returns on every text, never raising.  It
    returns [None] exactly when the text is empty or has no digit;
    otherwise it returns a decimal that is not negative: the value of the
    text that the first matching pattern finds in the cleaned text, with
    the commas removed.  The cleaned text is the text without every
    character other than digits, dots and commas, so that currency symbols,
    letters and spaces do not bear on the result: two texts that are not
    empty and have the same digits, dots and commas in the same order get
    the same result.  So "$1,234.56 USD" gives 1234.56. *)
Theorem normalize_price_total (price_text : string) :
  (exists d, normalize_price "$1,234.56 USD" = Ok (Some d) /\ d == 123456 # 100)
  /\ exists r,
    normalize_price price_text = Ok r
    /\ (r = None <->
        price_text = EmptyString \/ exists_char is_digit price_text = false)
    /\ clean price_text = filter_chars is_price_char price_text
    /\ (forall c, is_price_char c = true
                  <-> is_digit c = true \/ c = "."%char \/ c = ","%char)
    /\ (forall other,
          other <> EmptyString ->
          filter_chars is_price_char other = filter_chars is_price_char price_text ->
          normalize_price other = Ok r)
    /\ forall d,
         r = Some d ->
         0 <= d
         /\ exists n pattern group1,
              nth_error price_patterns n = Some pattern
              /\ (forall k earlier,
                    (k < n)%nat -> nth_error price_patterns k = Some earlier ->
                    search earlier (clean price_text) = None)
              /\ search pattern (clean price_text) = Some group1
              /\ Decimal (remove_commas group1) = Ok d.
Proof.
  split; [eexists; split; [vm_compute; reflexivity | reflexivity]|].
  destruct (normalize_price_patterns price_text) as (r & E & N & D).
  exists r. split; [exact E|]. split; [exact N|].
  split; [apply clean_keeps_price_chars|]. split; [apply is_price_char_spec|].
  split; [|exact D].
  intros other O F.
  destruct (String.eqb_spec price_text EmptyString) as [P|P].
  - assert (R : r = None) by (apply N; now left). subst r price_text.
    cbn [filter_chars] in F. unfold normalize_price.
    destruct (String.eqb other EmptyString); [reflexivity|].
    apply first_price_no_digit; [apply price_patterns_leading_digit|].
    rewrite exists_digit_clean. now apply exists_digit_no_price_char.
  - rewrite <- E. now apply normalize_price_of_price_chars.
Qed.

(* ================================================================== *)
(** * Further properties                                               *)
(* ================================================================== *)

(** ** Rounding *)

Lemma round_half_even_mono (x y : Q) :
  x <= y -> (round_half_even x <= round_half_even y)%Z.
Proof.
  intro L. unfold round_half_even.
  pose proof (Qfloor_le x) as X1. pose proof (Qlt_floor x) as X2.
  pose proof (Qfloor_le y) as Y1. pose proof (Qlt_floor y) as Y2.
  pose proof (Qfloor_resp_le x y L) as F.
  rewrite inject_Z_plus in X2, Y2.
  destruct (Z.eq_dec (Qfloor x) (Qfloor y)) as [E|N].
  - rewrite <- E in *.
    destruct (Qltb (y - inject_Z (Qfloor x)) (1 # 2)) eqn:A; qbool.
    + assert (B : Qltb (x - inject_Z (Qfloor x)) (1 # 2) = true)
        by (apply Qltb_true; lra).
      rewrite B. lia.
    + destruct (Qltb (1 # 2) (y - inject_Z (Qfloor x))) eqn:B; qbool.
      * destruct (Qltb (x - inject_Z (Qfloor x)) (1 # 2)); [lia|].
        destruct (Qltb (1 # 2) (x - inject_Z (Qfloor x))); [lia|].
        destruct (Z.even (Qfloor x)); lia.
      * destruct (Qltb (x - inject_Z (Qfloor x)) (1 # 2)) eqn:C; qbool.
        -- destruct (Z.even (Qfloor x)); lia.
        -- assert (D : Qltb (1 # 2) (x - inject_Z (Qfloor x)) = false)
             by (apply Qltb_false; lra).
           rewrite D. lia.
  - assert (G : (Qfloor x + 1 <= Qfloor y)%Z) by lia.
    assert (round_x : forall a b c : Z,
               ((if Qltb (x - inject_Z (Qfloor x)) (1 # 2) then Qfloor x
                 else if Qltb (1 # 2) (x - inject_Z (Qfloor x)) then Qfloor x + 1
                 else if Z.even (Qfloor x) then Qfloor x else Qfloor x + 1)
                <= Qfloor x + 1)%Z).
    { intros. repeat match goal with |- context [if ?b then _ else _] => destruct b end;
        lia. }
    specialize (round_x 0%Z 0%Z 0%Z).
    repeat match goal with
      | |- context [if ?b then Qfloor y else _] => destruct b
      | |- context [if ?b then (Qfloor y + 1)%Z else _] => destruct b
      end; lia.
Qed.

Lemma round_half_even_int (n : Z) : round_half_even (inject_Z n) = n.
Proof.
  unfold round_half_even. rewrite Qfloor_Z.
  assert (E : Qltb (inject_Z n - inject_Z n) (1 # 2) = true)
    by (apply Qltb_true; lra).
  now rewrite E.
Qed.

Lemma inject_Z_div_mono (a b : Z) (c : Q) :
  0 < c -> (a <= b)%Z -> inject_Z a / c <= inject_Z b / c.
Proof.
  intros C L. apply Qle_shift_div_l; [exact C|].
  unfold Qdiv. rewrite <- Qmult_assoc, (Qmult_comm (/ c)), Qmult_inv_r, Qmult_1_r
    by lra.
  now rewrite <- Zle_Qle.
Qed.

Lemma round2_mono (x y : Q) : x <= y -> round2 x <= round2 y.
Proof.
  intro L. unfold round2. apply inject_Z_div_mono; [lra|].
  apply round_half_even_mono. lra.
Qed.

Lemma round1_mono (x y : Q) : x <= y -> round1 x <= round1 y.
Proof.
  intro L. unfold round1. apply inject_Z_div_mono; [lra|].
  apply round_half_even_mono. lra.
Qed.

Lemma round2_nonneg (x : Q) : 0 <= x -> 0 <= round2 x.
Proof.
  intro L. apply round2_mono in L.
  assert (E : round2 0 == 0) by reflexivity. lra.
Qed.

(** ** Sorting and selection *)

Lemma insert_desc_perm {A : Type} (key : A -> Z) (x : A) (l : list A) :
  Permutation (insert_desc key x l) (x :: l).
Proof.
  induction l as [|y l IH]; simpl; [reflexivity|].
  destruct (key y <=? key x)%Z; [reflexivity|].
  rewrite IH. apply perm_swap.
Qed.

Lemma sort_desc_perm {A : Type} (key : A -> Z) (l : list A) :
  Permutation (sort_desc key l) l.
Proof.
  induction l as [|x l IH]; simpl; [reflexivity|].
  rewrite insert_desc_perm. now constructor.
Qed.

Lemma insert_asc_perm {A : Type} (key : A -> Z) (x : A) (l : list A) :
  Permutation (insert_asc key x l) (x :: l).
Proof.
  induction l as [|y l IH]; simpl; [reflexivity|].
  destruct (key x <=? key y)%Z; [reflexivity|].
  rewrite IH. apply perm_swap.
Qed.

Lemma sort_asc_perm {A : Type} (key : A -> Z) (l : list A) :
  Permutation (sort_asc key l) l.
Proof.
  induction l as [|x l IH]; simpl; [reflexivity|].
  rewrite insert_asc_perm. now constructor.
Qed.



Lemma insert_by_perm {A : Type} (key : A -> Q) (x : A) (l : list A) :
  Permutation (Deals.insert_by key x l) (x :: l).
Proof.
  induction l as [|y l IH]; simpl; [reflexivity|].
  destruct (Qle_bool (key x) (key y)); [reflexivity|].
  rewrite IH. apply perm_swap.
Qed.

Lemma sorted_by_perm {A : Type} (key : A -> Q) (l : list A) :
  Permutation (Deals.sorted_by key l) l.
Proof.
  induction l as [|x l IH]; simpl; [reflexivity|].
  rewrite insert_by_perm. now constructor.
Qed.

Lemma insert_by_sorted {A : Type} (key : A -> Q) (x : A) (l : list A) :
  StronglySorted (fun a b => key a <= key b) l ->
  StronglySorted (fun a b => key a <= key b) (Deals.insert_by key x l).
Proof.
  induction 1 as [|y l S IH F]; simpl.
  - constructor; constructor.
  - destruct (Qle_bool (key x) (key y)) eqn:C; qbool.
    + constructor; [constructor; assumption|].
      constructor; [exact C|].
      eapply Forall_impl; [|exact F]. intros a L. simpl in L. lra.
    + constructor; [exact IH|].
      apply Forall_forall. intros z Hz.
      apply (Permutation_in _ (insert_by_perm key x l)) in Hz.
      destruct Hz as [<-|Hz]; [lra|].
      rewrite Forall_forall in F. now apply F.
Qed.

Lemma sorted_by_sorted {A : Type} (key : A -> Q) (l : list A) :
  StronglySorted (fun a b => key a <= key b) (Deals.sorted_by key l).
Proof.
  induction l as [|x l IH]; simpl; [constructor | now apply insert_by_sorted].
Qed.

(** The head of a sorted list is a least element of the list sorted. *)
Lemma sorted_by_head {A : Type} (key : A -> Q) (l : list A) (h : A) (t : list A) :
  Deals.sorted_by key l = h :: t ->
  In h l /\ forall p, In p l -> key h <= key p.
Proof.
  intro E. pose proof (sorted_by_perm key l) as P.
  pose proof (sorted_by_sorted key l) as S. rewrite E in P, S.
  split; [apply (Permutation_in _ P); now left|].
  intros p Hp. apply (Permutation_in _ (Permutation_sym P)) in Hp.
  inversion S as [|? ? S' F]; subst.
  destruct Hp as [<-|Hp]; [lra|].
  rewrite Forall_forall in F. now apply F.
Qed.

(** The last element of a sorted list is a greatest one. *)
Lemma sorted_last {A : Type} (R : A -> A -> Prop) (l : list A) (d : A) :
  StronglySorted R l -> (forall a, R a a) ->
  forall p, In p (d :: l) -> l <> [] -> In p l -> R p (last l d).
Proof.
  intros S Rf. induction S as [|y l S IH F]; intros p _ N Hp; [contradiction|].
  destruct l as [|z l'].
  - destruct Hp as [<-|[]]. simpl. apply Rf.
  - change (last (y :: z :: l') d) with (last (z :: l') d).
    destruct Hp as [<-|Hp].
    + rewrite Forall_forall in F. apply F.
      destruct (exists_last (l := z :: l')) as (l0 & a & E); [discriminate|].
      rewrite E, last_last. apply in_or_app. right. now left.
    + apply IH; [now right | discriminate | exact Hp].
Qed.

Lemma min_by_spec {A : Type} (key : A -> Q) (l : list A) (x : A) :
  In (Deals.min_by key x l) (x :: l)
  /\ forall y, In y (x :: l) -> key (Deals.min_by key x l) <= key y.
Proof.
  unfold Deals.min_by. revert x. induction l as [|z l IH]; intro x; simpl.
  - split; [now left|]. intros y [<-|[]]. lra.
  - destruct (Qltb (key z) (key x)) eqn:C; qbool.
    + destruct (IH z) as [I M]. split.
      * destruct I as [I|I]; [right; left; exact I | right; right; exact I].
      * intros y [<-|[<-|Hy]].
        -- specialize (M z (or_introl eq_refl)). lra.
        -- apply M. now left.
        -- apply M. now right.
    + destruct (IH x) as [I M]. split.
      * destruct I as [I|I]; [left; exact I | right; right; exact I].
      * intros y [<-|[<-|Hy]].
        -- apply M. now left.
        -- specialize (M x (or_introl eq_refl)). lra.
        -- apply M. now right.
Qed.

Lemma max_by_spec {A : Type} (key : A -> Q) (l : list A) (x : A) :
  In (Deals.max_by key x l) (x :: l)
  /\ forall y, In y (x :: l) -> key y <= key (Deals.max_by key x l).
Proof.
  unfold Deals.max_by. revert x. induction l as [|z l IH]; intro x; simpl.
  - split; [now left|]. intros y [<-|[]]. lra.
  - destruct (Qltb (key x) (key z)) eqn:C; qbool.
    + destruct (IH z) as [I M]. split.
      * destruct I as [I|I]; [right; left; exact I | right; right; exact I].
      * intros y [<-|[<-|Hy]].
        -- specialize (M z (or_introl eq_refl)). lra.
        -- apply M. now left.
        -- apply M. now right.
    + destruct (IH x) as [I M]. split.
      * destruct I as [I|I]; [left; exact I | right; right; exact I].
      * intros y [<-|[<-|Hy]].
        -- apply M. now left.
        -- specialize (M x (or_introl eq_refl)). lra.
        -- apply M. now right.
Qed.

Lemma min_of_spec {A : Type} (key : A -> Q) (l : list A) :
  match Deals.min_of key l with
  | Some m => In m l /\ forall y, In y l -> key m <= key y
  | None => l = []
  end.
Proof.
  destruct l as [|x t]; simpl; [reflexivity | apply min_by_spec].
Qed.

Lemma max_of_spec {A : Type} (key : A -> Q) (l : list A) :
  match Deals.max_of key l with
  | Some m => In m l /\ forall y, In y l -> key y <= key m
  | None => l = []
  end.
Proof.
  destruct l as [|x t]; simpl; [reflexivity | apply max_by_spec].
Qed.

(** ** The price ledger, further *)

Import Invariants.

Lemma filter_length_update_at {A : Type} (p : A -> bool) (l : list A) (i : nat)
    (x y : A) :
  nth_error l i = Some x -> p x = p y ->
  List.length (filter p (update_at i (fun _ => y) l)) = List.length (filter p l).
Proof.
  revert i; induction l as [|z l IH]; intros [|i] H E; simpl in *; try discriminate.
  - inversion H; subst. rewrite E. destruct (p y); reflexivity.
  - destruct (p z); simpl; erewrite IH; eauto.
Qed.

Lemma filter_update_at_out {A : Type} (p : A -> bool) (l : list A) (i : nat) (x y : A) :
  nth_error l i = Some x -> p x = false -> p y = false ->
  filter p (update_at i (fun _ => y) l) = filter p l.
Proof.
  revert i; induction l as [|z l IH]; intros [|i] H X Y; simpl in *; try discriminate.
  - inversion H; subst. now rewrite X, Y.
  - destruct (p z); simpl; erewrite IH; eauto.
Qed.

Lemma price_of_same_ids (pid vid : string) (a b : Price) :
  price_product_id a = price_product_id b ->
  price_vendor_id a = price_vendor_id b ->
  price_of pid vid a = price_of pid vid b.
Proof.
  unfold price_of. now intros -> ->.
Qed.

(** X1. [update_or_create_price] keeps the price table free of duplicate
    (product, vendor) pairs: if no pair has two rows before an apply, none
    has after it. *)
Theorem update_or_create_price_keeps_pairs_unique (env : Env) (pid vid : string)
    (data : scraped_data) (w w1 : World) (p1 : Price) :
  unique_pairs (prices (db w)) ->
  update_or_create_price env pid vid data w = Ok (p1, w1) ->
  unique_pairs (prices (db w1)).
Proof.
  intros U H pid' vid'.
  destruct (sd_price data) as [np|] eqn:P;
    [|unfold update_or_create_price in H; rewrite P in H; discriminate].
  destruct (find_index (price_of pid vid) (prices (db w))) as [[i existing]|] eqn:F.
  - destruct (update_existing env pid vid data w _ _ _ F P)
      as (q & E & _ & Hpid & Hvid & _).
    rewrite E in H. inversion H; subst p1 w1; clear H. cbn [db prices].
    destruct (find_index_nth _ _ _ _ F) as [Hn _].
    rewrite (filter_length_update_at _ _ _ _ _ Hn
               (eq_sym (price_of_same_ids pid' vid' _ _ Hpid Hvid))).
    apply U.
  - destruct (update_new env pid vid data w _ F P) as (q & E & _ & Hpid & Hvid & _).
    rewrite E in H. inversion H; subst p1 w1; clear H. cbn [db prices].
    rewrite filter_app, length_app. cbn [filter].
    destruct (price_of pid' vid' q) eqn:Q.
    + destruct (price_of_ids _ _ _ Q) as [X1 X2].
      assert (pid' = pid /\ vid' = vid) as [-> ->] by (split; congruence).
      rewrite (find_index_none _ _ F). reflexivity.
    + specialize (U pid' vid'). simpl. lia.
Qed.

Lemma ex_world_unique : unique_pairs (prices (db Examples.ex_world)).
Proof.
  intros pid vid. simpl. destruct (price_of pid vid Examples.sony_at_amazon); simpl; lia.
Qed.

Lemma update_or_create_price_keeps_pairs_unique_witness :
  exists p1 w1,
    update_or_create_price Examples.ex_env "p-sony" "v-amazon"
      Examples.sony_again_data Examples.ex_world = Ok (p1, w1)
    /\ unique_pairs (prices (db w1)).
Proof.
  eexists; eexists. split; [reflexivity|].
  eapply (update_or_create_price_keeps_pairs_unique Examples.ex_env "p-sony" "v-amazon"
            Examples.sony_again_data Examples.ex_world);
    [exact ex_world_unique | reflexivity].
Defined.

(** X2. An apply of [update_or_create_price] for one pair leaves the price
    rows of every other pair as they are and in their order, only appends
    to the history, by at most one row, and touches neither the catalog
    nor the runs. *)
Theorem update_or_create_price_frame (env : Env) (pid vid : string)
    (data : scraped_data) (w w1 : World) (p1 : Price) :
  update_or_create_price env pid vid data w = Ok (p1, w1) ->
  filter (fun r => negb (price_of pid vid r)) (prices (db w1))
  = filter (fun r => negb (price_of pid vid r)) (prices (db w))
  /\ (exists added,
        price_history (db w1) = price_history (db w) ++ added
        /\ (List.length added <= 1)%nat)
  /\ products (db w1) = products (db w)
  /\ categories (db w1) = categories (db w)
  /\ scraper_runs (db w1) = scraper_runs (db w).
Proof.
  intro H.
  destruct (sd_price data) as [np|] eqn:P;
    [|unfold update_or_create_price in H; rewrite P in H; discriminate].
  destruct (find_index (price_of pid vid) (prices (db w))) as [[i existing]|] eqn:F.
  - destruct (update_existing env pid vid data w _ _ _ F P)
      as (q & E & _ & Hpid & Hvid & _).
    destruct (find_index_nth _ _ _ _ F) as [Hn Hx].
    assert (Hq : price_of pid vid q = true).
    { rewrite (price_of_same_ids pid vid _ _ Hpid Hvid). exact Hx. }
    destruct (Qltb (1 # 100) (Qabs (price existing - np)));
      rewrite E in H; inversion H; subst p1 w1; clear H;
      cbn [db prices price_history products categories scraper_runs];
      (split;
       [apply (filter_update_at_out _ _ _ _ _ Hn); [now rewrite Hx | now rewrite Hq]|]);
      (split; [|auto]).
    + eexists. split; [reflexivity | simpl; lia].
    + exists []. split; [now rewrite app_nil_r | simpl; lia].
  - destruct (update_new env pid vid data w _ F P) as (q & E & _ & Hpid & Hvid & _).
    rewrite E in H. inversion H; subst p1 w1; clear H.
    cbn [db prices price_history products categories scraper_runs].
    split.
    + rewrite filter_app. cbn [filter].
      rewrite (price_of_refl pid vid q Hpid Hvid). simpl. now rewrite app_nil_r.
    + split; [|auto]. exists []. split; [now rewrite app_nil_r | simpl; lia].
Qed.

Lemma update_or_create_price_frame_witness :
  exists p1 w1,
    update_or_create_price Examples.ex_env "p-sony" "v-amazon"
      Examples.sony_again_data Examples.ex_world = Ok (p1, w1)
    /\ products (db w1) = products (db Examples.ex_world).
Proof.
  eexists; eexists. split; [reflexivity|].
  eapply (update_or_create_price_frame Examples.ex_env "p-sony" "v-amazon"
            Examples.sony_again_data Examples.ex_world). reflexivity.
Defined.

(** X3. [cleanup_old_history] deletes exactly the history rows recorded
    before the cut-off and keeps the others in their order; the number it
    returns is the number of rows that have gone; prices and products are
    untouched; a further cleanup whose cut-off is not later deletes
    nothing. *)
Theorem cleanup_old_history_partition (env : Env) (days_to_keep : Z) (w : World) :
  let cutoff := (utcnow env (tick w) - days days_to_keep)%Z in
  let deleted := fst (PriceQueries.cleanup_old_history env days_to_keep w) in
  let w' := snd (PriceQueries.cleanup_old_history env days_to_keep w) in
  (forall h,
      In h (price_history (db w'))
      <-> In h (price_history (db w)) /\ (cutoff <= recorded_at h)%Z)
  /\ (exists gone,
        Permutation (price_history (db w)) (gone ++ price_history (db w'))
        /\ Forall (fun h => (recorded_at h < cutoff)%Z) gone
        /\ deleted = Z.of_nat (List.length gone))
  /\ (Z.of_nat (List.length (price_history (db w)))
      = deleted + Z.of_nat (List.length (price_history (db w'))))%Z
  /\ prices (db w') = prices (db w)
  /\ products (db w') = products (db w)
  /\ forall env' days',
       (utcnow env' (tick w') - days days' <= cutoff)%Z ->
       fst (PriceQueries.cleanup_old_history env' days' w') = 0%Z
       /\ price_history (db (snd (PriceQueries.cleanup_old_history env' days' w')))
          = price_history (db w').
Proof.
  intros cutoff deleted w'. unfold deleted, w', PriceQueries.cleanup_old_history.
  fold cutoff. cbn [fst snd db price_history set_price_history prices products tick].
  set (old := fun h => (recorded_at h <? cutoff)%Z).
  set (hs := price_history (db w)).
  split; [|split; [|split; [|split; [|split]]]].
  - intro h. rewrite filter_In. unfold old.
    rewrite negb_true_iff, Z.ltb_ge. tauto.
  - exists (filter old hs). split; [|split].
    + clear. induction hs as [|h hs IH]; simpl; [reflexivity|].
      unfold old at 1. destruct (recorded_at h <? cutoff)%Z; simpl.
      * now constructor.
      * now apply Permutation_cons_app.
    + apply Forall_forall. intros h Hh. apply filter_In in Hh.
      destruct Hh as [_ Hh]. unfold old in Hh. now apply Z.ltb_lt.
    + reflexivity.
  - pose proof (filter_length old hs) as H. subst old. cbv beta in *. lia.
  - reflexivity.
  - reflexivity.
  - intros env' days' L.
    set (old' := fun h => (recorded_at h <? utcnow env' (S (tick w)) - days days')%Z).
    assert (K : forall l, filter old' (filter (fun h => negb (old h)) l) = []).
    { induction l as [|h l IH]; simpl; [reflexivity|].
      destruct (old h) eqn:O; simpl; [exact IH|].
      unfold old in O. apply Z.ltb_ge in O.
      assert (O' : old' h = false) by (unfold old'; apply Z.ltb_ge; lia).
      now rewrite O'. }
    split.
    + now rewrite K.
    + assert (K' : forall l, (forall h, In h l -> old' h = false) ->
                             filter (fun h => negb (old' h)) l = l).
      { induction l as [|h l IH]; simpl; intro A; [reflexivity|].
        rewrite (A h (or_introl eq_refl)). simpl. rewrite IH; auto. }
      apply K'. intros h Hh. apply filter_In in Hh. destruct Hh as [_ Hh].
      unfold old in Hh. apply negb_true_iff, Z.ltb_ge in Hh.
      unfold old'. apply Z.ltb_ge. lia.
Qed.

(** X4. A price that stood unchanged for longer than the retention period
    loses its history at once: the row that [update_or_create_price]
    archives is dated with the old last-updated time, so the next
    [cleanup_old_history] deletes it. *)
Theorem stale_price_history_pruned (env : Env) (pid vid : string)
    (data : scraped_data) (w : World) (i : nat) (existing : Price) (new_price : Q)
    (days_to_keep : Z) :
  find_index (price_of pid vid) (prices (db w)) = Some (i, existing) ->
  sd_price data = Some new_price ->
  1 # 100 < Qabs (price existing - new_price) ->
  (last_updated_at existing < utcnow env (S (tick w)) - days days_to_keep)%Z ->
  exists p1 w1,
    update_or_create_price env pid vid data w = Ok (p1, w1)
    /\ In (_archive_price_to_history existing) (price_history (db w1))
    /\ (1 <= fst (PriceQueries.cleanup_old_history env days_to_keep w1))%Z
    /\ ~ In (_archive_price_to_history existing)
           (price_history (db (snd (PriceQueries.cleanup_old_history env days_to_keep w1)))).
Proof.
  intros F P C L.
  destruct (update_existing env pid vid data w _ _ _ F P) as (p1 & E & _).
  apply Qltb_true in C. rewrite C in E.
  eexists; eexists. split; [exact E|].
  unfold PriceQueries.cleanup_old_history.
  cbn [fst snd db price_history set_price_history tick].
  split; [apply in_or_app; right; now left|]. split.
  - rewrite filter_app, length_app. cbn [filter _archive_price_to_history recorded_at].
    assert (O : (last_updated_at existing <? utcnow env (S (tick w)) - days days_to_keep)%Z
                = true) by (apply Z.ltb_lt; exact L).
    rewrite O. cbn [List.length]. lia.
  - rewrite filter_In. intros [_ N].
    cbn [_archive_price_to_history recorded_at] in N.
    apply negb_true_iff, Z.ltb_ge in N. lia.
Qed.

Lemma stale_price_history_pruned_witness :
  exists p1 w1,
    update_or_create_price Examples.ex_env "p-sony" "v-amazon"
      Examples.sony_again_data Examples.ex_world = Ok (p1, w1)
    /\ (1 <= fst (PriceQueries.cleanup_old_history Examples.ex_env 0 w1))%Z.
Proof.
  destruct (stale_price_history_pruned Examples.ex_env "p-sony" "v-amazon"
              Examples.sony_again_data Examples.ex_world 0 Examples.sony_at_amazon 80 0)
    as (p1 & w1 & E & _ & D & _);
    try reflexivity.
  exists p1, w1. auto.
Defined.

(** X5. [get_price_history] of the price service returns exactly the
    history rows of the pair recorded since the cut-off, most recent first;
    the row archived by a material update is returned for the pair whenever
    the superseded price was last updated within the window. *)
Theorem price_history_query (now : datetime) (d : DB) (pid vid : string)
    (days_back : Z) :
  let result := PriceQueries.get_price_history now d pid vid days_back in
  (forall h,
      In h result
      <-> In h (price_history d) /\ h_product_id h = pid /\ h_vendor_id h = vid
          /\ (now - days days_back <= recorded_at h)%Z)
  /\ StronglySorted (fun a b => (recorded_at b <= recorded_at a)%Z) result
  /\ (List.length result <= List.length (price_history d))%nat
  /\ forall env data w i existing new_price p1 w1,
       db w = d ->
       find_index (price_of pid vid) (prices d) = Some (i, existing) ->
       sd_price data = Some new_price ->
       1 # 100 < Qabs (price existing - new_price) ->
       update_or_create_price env pid vid data w = Ok (p1, w1) ->
       (now - days days_back <= last_updated_at existing)%Z ->
       In (_archive_price_to_history existing)
          (PriceQueries.get_price_history now (db w1) pid vid days_back).
Proof.
  intro result. unfold result, PriceQueries.get_price_history.
  assert (M : forall hs h,
             In h (sort_desc recorded_at
                     (filter (fun h0 => String.eqb (h_product_id h0) pid
                                        && String.eqb (h_vendor_id h0) vid
                                        && (now - days days_back <=? recorded_at h0)%Z) hs))
             <-> In h hs /\ h_product_id h = pid /\ h_vendor_id h = vid
                 /\ (now - days days_back <= recorded_at h)%Z).
  { intros hs h. split.
    - intro H. apply (Permutation_in _ (sort_desc_perm _ _)) in H.
      apply filter_In in H. destruct H as [I H].
      rewrite !andb_true_iff, !String.eqb_eq, Z.leb_le in H. tauto.
    - intros (I & A & B & C).
      apply (Permutation_in _ (Permutation_sym (sort_desc_perm _ _))).
      apply filter_In. split; [exact I|].
      rewrite !andb_true_iff, !String.eqb_eq, Z.leb_le. tauto. }
  split; [apply M|]. split; [apply sort_desc_sorted|]. split.
  - rewrite (Permutation_length (sort_desc_perm _ _)). apply filter_length_le.
  - intros env data w i existing np p1 w1 D F P C U L. subst d.
    destruct (update_existing env pid vid data w _ _ _ F P) as (q & E & _).
    apply Qltb_true in C. rewrite C in E. rewrite E in U.
    inversion U; subst p1 w1; clear U.
    destruct (find_index_nth _ _ _ _ F) as [_ Hx].
    destruct (price_of_ids _ _ _ Hx) as [X1 X2].
    apply M. cbn [db price_history _archive_price_to_history h_product_id h_vendor_id
                  recorded_at].
    split; [apply in_or_app; right; now left | auto].
Qed.

(** ** Freshness statistics *)

Lemma round_half_even_comp (x y : Q) :
  x == y -> round_half_even x = round_half_even y.
Proof.
  intro E. apply Z.le_antisymm; apply round_half_even_mono; lra.
Qed.

Lemma round1_idem (x : Q) : round1 (round1 x) == round1 x.
Proof.
  unfold round1 at 1.
  assert (E : round1 x * 10 == inject_Z (round_half_even (x * 10))).
  { unfold round1. field. }
  now rewrite (round_half_even_comp _ _ E), round_half_even_int.
Qed.

Lemma py_max_list_spec (l : list Q) (x : Q) :
  forall y, In y (x :: l) -> y <= PriceQueries.py_max_list x l.
Proof.
  unfold PriceQueries.py_max_list. revert x.
  induction l as [|z l IH]; intros x y H; simpl in *.
  - destruct H as [<-|[]]. lra.
  - destruct (Qltb x z) eqn:C; qbool.
    + destruct H as [<-|H]; [|now apply IH].
      specialize (IH z z (or_introl eq_refl)). lra.
    + destruct H as [<-|[<-|H]].
      * apply IH. now left.
      * specialize (IH x x (or_introl eq_refl)). lra.
      * apply IH. now right.
Qed.

Lemma py_min_list_spec (l : list Q) (x : Q) :
  forall y, In y (x :: l) -> PriceQueries.py_min_list x l <= y.
Proof.
  unfold PriceQueries.py_min_list. revert x.
  induction l as [|z l IH]; intros x y H; simpl in *.
  - destruct H as [<-|[]]. lra.
  - destruct (Qltb z x) eqn:C; qbool.
    + destruct H as [<-|H]; [|now apply IH].
      specialize (IH z z (or_introl eq_refl)). lra.
    + destruct H as [<-|[<-|H]].
      * apply IH. now left.
      * specialize (IH x x (or_introl eq_refl)). lra.
      * apply IH. now right.
Qed.

Lemma sum_between (lo hi : Q) (l : list Q) :
  (forall y, In y l -> lo <= y /\ y <= hi) ->
  inject_Z (Z.of_nat (List.length l)) * lo <= fold_right Qplus 0 l
  /\ fold_right Qplus 0 l <= inject_Z (Z.of_nat (List.length l)) * hi.
Proof.
  induction l as [|x l IH]; intro H.
  - cbn [List.length fold_right Z.of_nat]. change (inject_Z 0) with 0. lra.
  - cbn [List.length fold_right].
    rewrite Nat2Z.inj_succ, <- Z.add_1_r, inject_Z_plus.
    destruct (H x (or_introl eq_refl)) as [A B].
    destruct IH as [C D]; [intros y Hy; apply H; now right|].
    change (inject_Z 1) with 1. lra.
Qed.

Lemma mean_between (lo hi : Q) (x : Q) (l : list Q) :
  (forall y, In y (x :: l) -> lo <= y /\ y <= hi) ->
  lo <= fold_right Qplus 0 (x :: l) / inject_Z (Z.of_nat (List.length (x :: l)))
  /\ fold_right Qplus 0 (x :: l) / inject_Z (Z.of_nat (List.length (x :: l))) <= hi.
Proof.
  intro H. destruct (sum_between lo hi (x :: l) H) as [A B].
  assert (P : 0 < inject_Z (Z.of_nat (List.length (x :: l)))).
  { change 0 with (inject_Z 0). rewrite <- Zlt_Qlt. simpl. lia. }
  split.
  - apply Qle_shift_div_l; [exact P|]. lra.
  - apply Qle_shift_div_r; [exact P|]. lra.
Qed.

(** X6. [get_data_freshness_info] reports "no price data" exactly when
    its query returns no row; otherwise it counts one entry per row and its
    statistics are ordered: newest <= average <= oldest, and the age of
    every entry lies between the newest and the oldest. *)
Theorem freshness_statistics_ordered (now : datetime) (rows : list Price) :
  match PriceQueries.get_data_freshness_info now rows with
  | PriceQueries.NoPriceData => rows = []
  | PriceQueries.FreshnessInfo vendor_data statistics =>
      rows <> []
      /\ vendor_data = freshness_data now rows
      /\ PriceQueries.total_vendors statistics = List.length rows
      /\ PriceQueries.newest_data_hours statistics
         <= PriceQueries.average_age_hours statistics
      /\ PriceQueries.average_age_hours statistics
         <= PriceQueries.oldest_data_hours statistics
      /\ forall item,
           In item vendor_data ->
           PriceQueries.newest_data_hours statistics <= f_hours_old item
           /\ f_hours_old item <= PriceQueries.oldest_data_hours statistics
  end.
Proof.
  unfold PriceQueries.get_data_freshness_info.
  destruct rows as [|r rows]; [reflexivity|].
  cbn [freshness_data map PriceQueries.total_vendors PriceQueries.newest_data_hours
       PriceQueries.average_age_hours PriceQueries.oldest_data_hours].
  set (item := mkFreshness (last_updated_at r) (round1 (hours_old now r))
                 (freshness_status (hours_old now r))).
  set (items := map (fun p => mkFreshness (last_updated_at p) (round1 (hours_old now p))
                                (freshness_status (hours_old now p))) rows).
  set (hi := PriceQueries.py_max_list (f_hours_old item) (map f_hours_old items)).
  set (lo := PriceQueries.py_min_list (f_hours_old item) (map f_hours_old items)).
  assert (B : forall y, In y (f_hours_old item :: map f_hours_old items) ->
                        lo <= y /\ y <= hi).
  { intros y Hy. split; [now apply py_min_list_spec | now apply py_max_list_spec]. }
  destruct (mean_between lo hi _ _ B) as [M1 M2].
  split; [discriminate|]. split; [reflexivity|].
  split; [unfold items; cbn [List.length]; now rewrite length_map|].
  split; [now apply round1_mono|]. split; [now apply round1_mono|].
  intros it Hit.
  assert (I : In (f_hours_old it) (f_hours_old item :: map f_hours_old items)).
  { destruct Hit as [<-|Hit]; [now left | right; now apply in_map]. }
  destruct (B _ I) as [L H].
  assert (R : round1 (f_hours_old it) == f_hours_old it).
  { destruct Hit as [<-|Hit]; [apply round1_idem|].
    unfold items in Hit. apply in_map_iff in Hit. destruct Hit as (p & <- & _).
    apply round1_idem. }
  apply round1_mono in L. apply round1_mono in H. lra.
Qed.

(** ** Deals *)

(** X7. [find_historical_best_deal] is available exactly when some point
    of the history is at most a day old.  Then its historical best price is
    the lowest of the whole history, its current best price the lowest of
    the last day, the difference is not negative, and the current best is
    flagged as historical exactly when the two prices are equal. *)
Theorem historical_best_deal_bounds (now : datetime) (price_history : list history_point) :
  match Deals.find_historical_best_deal now price_history with
  | Deals.NotAvailable =>
      forall h, In h price_history -> (hp_timestamp h < now - days 1)%Z
  | Deals.Available best vendor date current diff flag =>
      (exists h, In h price_history /\ hp_price h = best /\ hp_vendor_id h = vendor
                 /\ hp_timestamp h = date)
      /\ (forall h, In h price_history -> best <= hp_price h)
      /\ (exists h, In h price_history /\ (now - days 1 <= hp_timestamp h)%Z
                    /\ hp_price h = current)
      /\ (forall h, In h price_history -> (now - days 1 <= hp_timestamp h)%Z ->
                    current <= hp_price h)
      /\ best <= current
      /\ 0 <= diff
      /\ (flag = true <-> current == best)
  end.
Proof.
  unfold Deals.find_historical_best_deal.
  pose proof (min_of_spec hp_price price_history) as L.
  destruct (Deals.min_of hp_price price_history) as [lowest|].
  - destruct L as [Lin Lmin].
    pose proof (min_of_spec hp_price
                  (filter (fun h => (now - days 1 <=? hp_timestamp h)%Z) price_history))
      as C.
    destruct (Deals.min_of hp_price
                (filter (fun h => (now - days 1 <=? hp_timestamp h)%Z) price_history))
      as [current|].
    + destruct C as [Cin Cmin]. apply filter_In in Cin. destruct Cin as [Cin Ct].
      apply Z.leb_le in Ct.
      assert (B : hp_price lowest <= hp_price current) by now apply Lmin.
      split; [exists lowest; auto|]. split; [exact Lmin|].
      split; [exists current; auto|]. split.
      { intros h Hh T. apply Cmin. apply filter_In. split; [exact Hh|].
        now apply Z.leb_le. }
      split; [exact B|]. split; [apply round2_nonneg; lra|].
      rewrite Qle_bool_iff. split; intro; lra.
    + intros h Hh.
      destruct (Z.ltb_spec (hp_timestamp h) (now - days 1)) as [T|T]; [exact T|].
      exfalso.
      assert (I : In h (filter (fun h => (now - days 1 <=? hp_timestamp h)%Z)
                          price_history)).
      { apply filter_In. split; [exact Hh | now apply Z.leb_le]. }
      rewrite C in I. exact I.
  - subst. intros h [].
Qed.

(** X8. [identify_best_deals] returns nothing exactly for an empty price
    list.  Otherwise the absolute best is a row with the lowest price of
    all; the best available is missing exactly when no row is in stock, and
    else is an in-stock row with the lowest in-stock price, never below the
    absolute best; the best discount is missing exactly when every discount
    is null or zero, and else is the discount of a row, not zero, and at
    least every non-zero discount. *)
Theorem best_deals_are_best (now : datetime) (current_prices : list Price)
    (price_history : list history_point) :
  match Deals.identify_best_deals now current_prices price_history with
  | None => current_prices = []
  | Some deals =>
      (exists p, In p current_prices
                 /\ Deals.ab_price (Deals.absolute_best deals) = price p
                 /\ Deals.ab_vendor_id (Deals.absolute_best deals) = price_vendor_id p
                 /\ Deals.ab_is_available (Deals.absolute_best deals) = Deals.in_stock p)
      /\ (forall p, In p current_prices ->
                    Deals.ab_price (Deals.absolute_best deals) <= price p)
      /\ match Deals.best_available deals with
         | None => forall p, In p current_prices -> Deals.in_stock p = false
         | Some b =>
             Deals.ba_stock_status b = "in_stock"
             /\ (exists p, In p current_prices /\ Deals.in_stock p = true
                           /\ Deals.ba_price b = price p
                           /\ Deals.ba_vendor_id b = price_vendor_id p)
             /\ (forall p, In p current_prices -> Deals.in_stock p = true ->
                           Deals.ba_price b <= price p)
             /\ Deals.ab_price (Deals.absolute_best deals) <= Deals.ba_price b
         end
      /\ match Deals.best_discount deals with
         | None =>
             forall p, In p current_prices ->
                       discount_percentage p = None
                       \/ exists d, discount_percentage p = Some d /\ d == 0
         | Some b =>
             (exists p, In p current_prices
                        /\ discount_percentage p = Some (Deals.bd_discount_percentage b)
                        /\ Deals.bd_vendor_id b = price_vendor_id p
                        /\ Deals.bd_price b = price p)
             /\ ~ Deals.bd_discount_percentage b == 0
             /\ forall p d, In p current_prices -> discount_percentage p = Some d ->
                            ~ d == 0 -> d <= Deals.bd_discount_percentage b
         end
      /\ Deals.historical_context deals
         = Deals.find_historical_best_deal now price_history
  end.
Proof.
  unfold Deals.identify_best_deals.
  destruct (Deals.sorted_by price current_prices) as [|best rest] eqn:S.
  - pose proof (sorted_by_perm price current_prices) as P. rewrite S in P.
    now apply Permutation_nil in P.
  - destruct (sorted_by_head price current_prices best rest S) as [Bin Bmin].
    cbn [Deals.absolute_best Deals.best_available Deals.best_discount
         Deals.historical_context Deals.ab_price Deals.ab_vendor_id
         Deals.ab_is_available].
    split; [exists best; auto|]. split; [exact Bmin|]. split; [|split].
    + pose proof (min_of_spec price (filter Deals.in_stock current_prices)) as M.
      destruct (Deals.min_of price (filter Deals.in_stock current_prices)) as [b|].
      * destruct M as [Min Mmin]. apply filter_In in Min. destruct Min as [Min Ms].
        cbn [Deals.ba_stock_status Deals.ba_price Deals.ba_vendor_id].
        split; [now apply String.eqb_eq|]. split; [exists b; auto|].
        split; [|now apply Bmin].
        intros p Hp Sp. apply Mmin. apply filter_In. auto.
      * intros p Hp. destruct (Deals.in_stock p) eqn:Sp; [|reflexivity].
        assert (I : In p (filter Deals.in_stock current_prices))
          by (apply filter_In; auto).
        rewrite M in I. destruct I.
    + pose proof (max_of_spec Deals.discount_key
                    (filter (fun p => truthy_opt (discount_percentage p)) current_prices))
        as M.
      destruct (Deals.max_of Deals.discount_key
                  (filter (fun p => truthy_opt (discount_percentage p)) current_prices))
        as [b|].
      * destruct M as [Min Mmax]. apply filter_In in Min. destruct Min as [Min Mt].
        cbn [Deals.bd_discount_percentage Deals.bd_vendor_id Deals.bd_price].
        split; [|split].
        -- exists b. split; [exact Min|]. split; [|split; reflexivity].
           unfold Deals.discount_key. destruct (discount_percentage b);
             [reflexivity | discriminate].
        -- unfold Deals.discount_key. destruct (discount_percentage b) as [d|];
             [|discriminate].
           cbn [get]. unfold truthy_opt, truthy in Mt. intro Z.
           apply Qeq_bool_iff in Z. rewrite Z in Mt. discriminate.
        -- intros p d Hp Hd N.
           assert (I : In p (filter (fun p => truthy_opt (discount_percentage p))
                               current_prices)).
           { apply filter_In. split; [exact Hp|]. rewrite Hd. unfold truthy_opt, truthy.
             destruct (Qeq_bool d 0) eqn:Z; [|reflexivity].
             apply Qeq_bool_iff in Z. contradiction. }
           specialize (Mmax p I). unfold Deals.discount_key at 1 in Mmax.
           now rewrite Hd in Mmax.
      * intros p Hp. destruct (truthy_opt (discount_percentage p)) eqn:T.
        -- assert (I : In p (filter (fun p => truthy_opt (discount_percentage p))
                               current_prices)) by (apply filter_In; auto).
           rewrite M in I. destruct I.
        -- destruct (discount_percentage p) as [d|]; [right|now left].
           exists d. split; [reflexivity|]. unfold truthy_opt, truthy in T.
           apply negb_false_iff in T. now apply Qeq_bool_iff.
    + reflexivity.
Qed.

(** X9. [get_price_alerts] of the engine is triggered exactly when the
    product has an in-stock price at or below the target.  The price it
    then reports is the lowest in-stock price of the product and the saving
    is not negative; when it is not triggered, every in-stock price of the
    product, and the closest price it reports, is above the target. *)
Theorem price_alert_iff_target_reached (d : DB) (pid : string) (target : Q) :
  let in_stock_of_product p :=
    In p (prices d) /\ price_product_id p = pid /\ stock_status p = "in_stock" in
  match Deals.get_price_alerts d pid target with
  | Deals.AlertTriggered t best vendor saving =>
      t = target
      /\ (exists p, in_stock_of_product p /\ price p = best /\ price_vendor_id p = vendor)
      /\ best <= target
      /\ (forall p, in_stock_of_product p -> best <= price p)
      /\ 0 <= saving
  | Deals.NoAlert t closest =>
      t = target
      /\ (forall p, in_stock_of_product p -> target < price p)
      /\ match closest with
         | Some c => target < c /\ (exists p, in_stock_of_product p /\ price p = c)
                     /\ forall p, in_stock_of_product p -> c <= price p
         | None => forall p, ~ in_stock_of_product p
         end
  end.
Proof.
  intro in_stock_of_product. unfold Deals.get_price_alerts.
  set (current := filter (fun p => String.eqb (price_product_id p) pid && Deals.in_stock p)
                    (prices d)).
  assert (Cur : forall p, In p current <-> in_stock_of_product p).
  { intro p. unfold current, in_stock_of_product, Deals.in_stock.
    rewrite filter_In, andb_true_iff, !String.eqb_eq. tauto. }
  pose proof (min_of_spec price (filter (fun p => Qle_bool (price p) target) current)) as M.
  destruct (Deals.min_of price (filter (fun p => Qle_bool (price p) target) current))
    as [b|].
  - destruct M as [Min Mmin]. apply filter_In in Min. destruct Min as [Min Mt].
    apply Qle_bool_iff in Mt.
    split; [reflexivity|]. split; [exists b; split; [now apply Cur | auto]|].
    split; [exact Mt|]. split; [|apply round2_nonneg; lra].
    intros p Hp. apply Cur in Hp.
    destruct (Qle_bool (price p) target) eqn:T.
    + apply Mmin. apply filter_In. auto.
    + qbool. lra.
  - assert (Above : forall p, in_stock_of_product p -> target < price p).
    { intros p Hp. apply Cur in Hp.
      destruct (Qle_bool (price p) target) eqn:T; [|now qbool].
      assert (I : In p (filter (fun p => Qle_bool (price p) target) current))
        by (apply filter_In; auto).
      rewrite M in I. destruct I. }
    split; [reflexivity|]. split; [exact Above|].
    pose proof (min_of_spec price current) as C.
    destruct (Deals.min_of price current) as [c|].
    + destruct C as [Cin Cmin]. split; [apply Above; now apply Cur|].
      split; [exists c; split; [now apply Cur | reflexivity]|].
      intros p Hp. apply Cmin. now apply Cur.
    + intros p Hp. apply Cur in Hp. rewrite C in Hp. destruct Hp.
Qed.

(** ** Savings *)

Lemma savings_vs_ok (cheapest : Price) (others : list Price) :
  (forall p, In p others -> ~ price p == 0) ->
  Deals.savings_vs cheapest others
  = Ok (map (fun p =>
               Deals.mkVendorSaving (price_vendor_id p) (price p) (price cheapest)
                 (round2 (price p - price cheapest))
                 (round2 ((price p - price cheapest) / price p * 100))
                 (stock_status p)) others).
Proof.
  induction others as [|p rest IH]; intro N; [reflexivity|].
  cbn [Deals.savings_vs map].
  destruct (Qeq_bool (price p) 0) eqn:Z.
  - apply Qeq_bool_iff in Z. exfalso. apply (N p); [now left | exact Z].
  - rewrite IH; [reflexivity|]. intros q Hq. apply N. now right.
Qed.

Lemma savings_vs_raises (cheapest : Price) (others : list Price) :
  (exists p, In p others /\ price p == 0) ->
  Deals.savings_vs cheapest others = Raise "ZeroDivisionError".
Proof.
  induction others as [|p rest IH]; intros [q [Hq Z]]; [destruct Hq|].
  cbn [Deals.savings_vs].
  destruct (Qeq_bool (price p) 0) eqn:Zp; [reflexivity|].
  rewrite IH; [reflexivity|].
  destruct Hq as [->|Hq]; [|now exists q].
  apply Qeq_bool_iff in Z. congruence.
Qed.

Lemma last_In {A : Type} (l : list A) (d : A) : l <> [] -> In (last l d) l.
Proof.
  induction l as [|x l IH]; intro N; [contradiction|].
  destruct l as [|y l]; [now left|]. right. apply IH. discriminate.
Qed.

Lemma Qdiv_le_1 (a b : Q) : 0 < b -> a <= b -> a / b <= 1.
Proof.
  intros B L. apply Qle_shift_div_r; [exact B | lra].
Qed.

(** The share saved, [(p - c) / p], grows with the price [p] paid. *)
Lemma saving_share_mono (c p m : Q) :
  0 < c -> c <= p -> p <= m -> (p - c) / p * 100 <= (m - c) / m * 100.
Proof.
  intros C P M.
  assert (E : forall x, 0 < x -> (x - c) / x == 1 - c / x) by (intros; field; lra).
  rewrite (E p), (E m) by lra.
  assert (D : c / p - c / m == c * (m - p) * / (p * m)) by (field; lra).
  assert (N : 0 <= c * (m - p) * / (p * m)).
  { apply Qmult_le_0_compat.
    - apply Qmult_le_0_compat; lra.
    - apply Qinv_le_0_compat. apply Qmult_le_0_compat; lra. }
  lra.
Qed.

(** X10. With at least two prices, all of them positive,
    [calculate_savings_opportunities] returns a result: the best deal is a
    row with the lowest price; there is one entry for every other row, from
    the cheapest on, each with a saving between 0 and the maximum saving,
    in amount and in percentage; and savings are available exactly when two
    prices differ. *)
Theorem savings_against_cheapest (current_prices : list Price) :
  (2 <= List.length current_prices)%nat ->
  (forall p, In p current_prices -> 0 < price p) ->
  exists available amount percentage cheapest_vendor expensive_vendor entries
         best_vendor best_price available_now,
    Deals.calculate_savings_opportunities current_prices
    = Ok (Deals.Savings available amount percentage cheapest_vendor expensive_vendor
            entries best_vendor best_price available_now)
    /\ (exists p, In p current_prices /\ price p = best_price
                  /\ price_vendor_id p = best_vendor /\ cheapest_vendor = best_vendor
                  /\ available_now = Deals.in_stock p)
    /\ (forall p, In p current_prices -> best_price <= price p)
    /\ (exists p, In p current_prices /\ price_vendor_id p = expensive_vendor
                  /\ forall q, In q current_prices -> price q <= price p)
    /\ S (List.length entries) = List.length current_prices
    /\ Permutation (best_price :: map Deals.their_price entries)
         (map price current_prices)
    /\ StronglySorted Qle (map Deals.their_price entries)
    /\ (forall e, In e entries ->
          Deals.best_price e = best_price
          /\ 0 <= Deals.savings_amount e <= amount
          /\ 0 <= Deals.savings_percentage e <= percentage)
    /\ percentage <= 100
    /\ (available = true <->
        exists p q, In p current_prices /\ In q current_prices /\ price p < price q).
Proof.
  intros Len Pos. unfold Deals.calculate_savings_opportunities.
  destruct (List.length current_prices <? 2)%nat eqn:L;
    [apply Nat.ltb_lt in L; lia|].
  pose proof (sorted_by_perm price current_prices) as P.
  pose proof (sorted_by_sorted price current_prices) as St.
  destruct (Deals.sorted_by price current_prices) as [|c others] eqn:E.
  { apply Permutation_length in P. simpl in P. lia. }
  assert (In' : forall p, In p (c :: others) <-> In p current_prices).
  { intro p. split; apply Permutation_in; [exact P | now symmetry]. }
  assert (NE : others <> []).
  { intro N. subst others. apply Permutation_length in P. simpl in P. lia. }
  apply StronglySorted_inv in St. destruct St as [So Fc].
  rewrite Forall_forall in Fc.
  assert (Lin : In (last others c) others) by now apply last_In.
  assert (Lmax : forall q, In q (c :: others) -> price q <= price (last others c)).
  { intros q [<-|Hq]; [now apply Fc|].
    apply (sorted_last (fun a b => price a <= price b) others c So); auto.
    - intro a. lra.
    - now right. }
  assert (Pc : 0 < price c) by (apply Pos, In'; now left).
  assert (Pm : 0 < price (last others c)) by (apply Pos, In'; now right).
  rewrite savings_vs_ok.
  2:{ intros p Hp Z. assert (0 < price p) by (apply Pos, In'; now right). lra. }
  cbn [bind].
  destruct (Qeq_bool (price (last others c)) 0) eqn:Z;
    [apply Qeq_bool_iff in Z; lra|].
  do 9 eexists. split; [reflexivity|].
  split; [exists c; repeat split; apply In'; now left|].
  split; [intros p Hp; apply In' in Hp; destruct Hp as [<-|Hp]; [lra | now apply Fc]|].
  split.
  { exists (last others c). split; [apply In'; now right|]. split; [reflexivity|].
    intros q Hq. apply Lmax. now apply In'. }
  split; [rewrite length_map; apply Permutation_length in P; exact P|].
  split.
  { rewrite map_map. cbn [Deals.their_price].
    change (price c :: map (fun x => price x) others) with (map price (c :: others)).
    now apply Permutation_map. }
  split.
  { rewrite map_map. cbn [Deals.their_price].
    clear - So. induction So as [|y l So IH F]; simpl; constructor; [exact IH|].
    rewrite Forall_map. exact F. }
  split.
  { intros e He. apply in_map_iff in He. destruct He as [p [<- Hp]].
    cbn [Deals.best_price Deals.savings_amount Deals.savings_percentage].
    assert (Cp : price c <= price p) by now apply Fc.
    assert (Pm' : price p <= price (last others c)) by (apply Lmax; now right).
    split; [reflexivity|]. split.
    - split; [apply round2_nonneg; lra | apply round2_mono; lra].
    - split.
      + apply round2_nonneg.
        apply Qmult_le_0_compat; [|lra]. apply Qle_shift_div_l; lra.
      + apply round2_mono. apply saving_share_mono; lra. }
  split.
  { assert (R : round2 100 == 100) by reflexivity.
    apply Qle_trans with (round2 100); [|lra].
    apply round2_mono.
    assert ((price (last others c) - price c) / price (last others c) <= 1)
      by (apply Qdiv_le_1; lra).
    lra. }
  split.
  - intro T. apply Qltb_true in T. exists c, (last others c).
    split; [apply In'; now left|]. split; [apply In'; now right | lra].
  - intros [p [q [Hp [Hq Lt]]]].
    apply In' in Hp. apply In' in Hq. apply Lmax in Hq.
    assert (price c <= price p) by (destruct Hp as [<-|Hp]; [lra | now apply Fc]).
    destruct (Qltb 0 (price (last others c) - price c)) eqn:T; [reflexivity|].
    apply Qltb_false in T. lra.
Qed.

Lemma savings_against_cheapest_witness :
  exists available amount percentage cheapest_vendor expensive_vendor entries
         best_vendor best_price available_now,
    Deals.calculate_savings_opportunities (prices Examples.rising_db)
    = Ok (Deals.Savings available amount percentage cheapest_vendor expensive_vendor
            entries best_vendor best_price available_now)
    /\ S (List.length entries) = 11%nat.
Proof.
  destruct (savings_against_cheapest (prices Examples.rising_db))
    as (a & b & c & d & e & f & g & h & i & E & _ & _ & _ & L & _).
  - simpl. lia.
  - intros p Hp. simpl in Hp.
    repeat (destruct Hp as [<-|Hp]; [reflexivity|]). destruct Hp.
  - exists a, b, c, d, e, f, g, h, i. split; [exact E | exact L].
Defined.

Lemma filter_length_perm {A : Type} (f : A -> bool) (l l' : list A) :
  Permutation l l' -> List.length (filter f l) = List.length (filter f l').
Proof.
  induction 1 as [|x l l' P IH|x y l|l l' l'' P1 IH1 P2 IH2]; cbn [filter].
  - reflexivity.
  - destruct (f x); cbn [List.length]; now rewrite IH.
  - destruct (f x), (f y); reflexivity.
  - now rewrite IH1.
Qed.

(** X11. On prices that are not negative,
    [calculate_savings_opportunities] fails with a division by zero exactly
    when two or more rows have the price 0: one free offer is the cheapest
    row and is never a divisor, a second one is. *)
Theorem savings_divides_by_zero (current_prices : list Price) :
  (forall p, In p current_prices -> 0 <= price p) ->
  Deals.calculate_savings_opportunities current_prices = Raise "ZeroDivisionError"
  <-> (2 <= List.length (filter (fun p => Qeq_bool (price p) 0) current_prices))%nat.
Proof.
  intro Pos. unfold Deals.calculate_savings_opportunities.
  set (free := fun p : Price => Qeq_bool (price p) 0).
  destruct (List.length current_prices <? 2)%nat eqn:L.
  { apply Nat.ltb_lt in L. pose proof (filter_length_le free current_prices).
    split; [discriminate | lia]. }
  apply Nat.ltb_ge in L.
  pose proof (sorted_by_perm price current_prices) as P.
  pose proof (sorted_by_sorted price current_prices) as St.
  rewrite <- (filter_length_perm free _ _ P).
  destruct (Deals.sorted_by price current_prices) as [|c others].
  { apply Permutation_length in P. simpl in P. lia. }
  assert (NE : others <> []).
  { intro N. subst others. apply Permutation_length in P. simpl in P. lia. }
  apply StronglySorted_inv in St. destruct St as [_ Fc]. rewrite Forall_forall in Fc.
  assert (Pc : 0 <= price c) by (apply Pos, (Permutation_in _ P); now left).
  destruct (filter free others) as [|z zs] eqn:F.
  - (* no other row is free *)
    assert (N : forall p, In p others -> ~ price p == 0).
    { intros p Hp Z. assert (I : In p (filter free others)).
      { apply filter_In. split; [exact Hp | now apply Qeq_bool_iff]. }
      rewrite F in I. destruct I. }
    rewrite savings_vs_ok by exact N. cbn [bind].
    destruct (Qeq_bool (price (last others c)) 0) eqn:Z.
    { apply Qeq_bool_iff in Z. exfalso. apply (N (last others c));
        [now apply last_In | exact Z]. }
    cbn [filter]. rewrite F. split; [discriminate|].
    destruct (free c); cbn [List.length]; lia.
  - assert (I : In z (filter free others)) by (rewrite F; now left).
    apply filter_In in I. destruct I as [Hz Zz]. apply Qeq_bool_iff in Zz.
    rewrite savings_vs_raises by now exists z. cbn [bind].
    split; [intros _|reflexivity].
    cbn [filter]. rewrite F.
    assert (Zc : free c = true).
    { apply Qeq_bool_iff. specialize (Fc z Hz). cbv beta in Fc. lra. }
    rewrite Zc. cbn [List.length]. lia.
Qed.

Lemma savings_divides_by_zero_witness :
  Deals.calculate_savings_opportunities MoreExamples.giveaways
  = Raise "ZeroDivisionError".
Proof.
  apply savings_divides_by_zero.
  - intros p Hp. simpl in Hp.
    repeat (destruct Hp as [<-|Hp]; [discriminate|]). destruct Hp.
  - simpl. lia.
Defined.

(** ** Trends *)

Lemma vendor_history_In (price_history : list history_point) (v : string)
    (h : history_point) :
  In h (sort_asc hp_timestamp
          (filter (fun h => String.eqb (hp_vendor_id h) v) price_history))
  <-> In h price_history /\ hp_vendor_id h = v.
Proof.
  rewrite <- String.eqb_eq.
  rewrite <- (filter_In (fun h => String.eqb (hp_vendor_id h) v) h price_history).
  split; apply Permutation_in; [|symmetry]; apply sort_asc_perm.
Qed.

Lemma vendor_trend_of_ok (price_history : list history_point) (v : string) :
  (forall h, In h price_history -> ~ hp_price h == 0) ->
  exists t, vendor_trend_of price_history v = Ok t.
Proof.
  intro N. unfold vendor_trend_of.
  pose proof (vendor_history_In price_history v) as I.
  destruct (sort_asc hp_timestamp
              (filter (fun h => String.eqb (hp_vendor_id h) v) price_history))
    as [|first [|second rest]]; [now exists None | now exists None|].
  destruct (Qeq_bool (hp_price first) 0) eqn:Z; [|eauto].
  apply Qeq_bool_iff in Z. exfalso. apply (N first); [|exact Z].
  apply I. now left.
Qed.

Lemma vendor_trends_of_ok (price_history : list history_point) (ids : list string) :
  (forall h, In h price_history -> ~ hp_price h == 0) ->
  exists ts, vendor_trends_of price_history ids = Ok ts.
Proof.
  intro N. induction ids as [|v rest [ts IH]]; [now exists []|].
  cbn [vendor_trends_of].
  destruct (vendor_trend_of_ok price_history v N) as [t ->].
  rewrite IH. cbn [bind]. eauto.
Qed.

Lemma sum_positive (l : list Q) :
  l <> [] -> (forall x, In x l -> 0 < x) -> 0 < fold_right Qplus 0 l.
Proof.
  induction l as [|x l IH]; intros N P; [contradiction|].
  cbn [fold_right].
  assert (0 < x) by (apply P; now left).
  destruct l as [|y l]; [cbn [fold_right]; lra|].
  assert (0 < fold_right Qplus 0 (y :: l)).
  { apply IH; [discriminate|]. intros z Hz. apply P. now right. }
  lra.
Qed.

Lemma mean_positive (l : list Q) :
  l <> [] -> (forall x, In x l -> 0 < x) -> 0 < mean l.
Proof.
  intros N P. unfold mean.
  apply Qlt_shift_div_l.
  - change 0 with (inject_Z 0). rewrite <- Zlt_Qlt.
    destruct l; [contradiction | cbn [List.length]; lia].
  - pose proof (sum_positive l N P). lra.
Qed.

(** X12. On a history of two to ten points, all priced above 0,
    [calculate_price_trends] returns a market trend that is always stable,
    with a change of 0 and equal averages, whatever the prices are: the
    last ten and the first ten points are then the same points. *)
Theorem market_trend_flat_up_to_ten_points (price_history : list history_point) :
  (2 <= List.length price_history <= 10)%nat ->
  (forall h, In h price_history -> 0 < hp_price h) ->
  exists vendor_trends overall,
    calculate_price_trends price_history = Ok (Trends vendor_trends overall)
    /\ direction overall = "stable"
    /\ percentage_change overall == 0
    /\ recent_average overall = historical_average overall
    /\ historical_average overall == round2 (mean (map hp_price price_history)).
Proof.
  intros [L2 L10] Pos. unfold calculate_price_trends.
  destruct (List.length price_history <? 2)%nat eqn:L; [apply Nat.ltb_lt in L; lia|].
  destruct (vendor_trends_of_ok price_history
              (nodup string_dec (map hp_vendor_id price_history))) as [ts ->].
  { intros h Hh Z. specialize (Pos h Hh). lra. }
  cbn [bind]. unfold overall_trend_of, overall_change, all_recent_prices,
    all_older_prices, last_n, first_n.
  replace (List.length price_history - 10)%nat with 0%nat by lia.
  rewrite firstn_all2 by lia. cbn [skipn].
  set (m := mean (map hp_price price_history)).
  assert (M : 0 < m).
  { apply mean_positive.
    - destruct price_history; [simpl in L2; lia | discriminate].
    - intros x Hx. apply in_map_iff in Hx. destruct Hx as [h [<- Hh]]. now apply Pos. }
  destruct (Qeq_bool m 0) eqn:Z; [apply Qeq_bool_iff in Z; lra|].
  assert (C : (m - m) / m * 100 == 0) by (field; lra).
  do 2 eexists. split; [reflexivity|].
  cbn [direction percentage_change recent_average historical_average].
  split.
  { apply market_direction_cases. rewrite C. apply Qabs_case; intros; lra. }
  split; [|split; reflexivity].
  unfold round2. rewrite (round_half_even_comp _ (0 * 100)) by (rewrite C; reflexivity).
  reflexivity.
Qed.

Lemma market_trend_flat_up_to_ten_points_witness :
  exists vendor_trends overall,
    calculate_price_trends
      (get_price_history (29 * hour)%Z Examples.rising_db "p-sony" 1)
    = Ok (Trends vendor_trends overall)
    /\ direction overall = "stable".
Proof.
  destruct (market_trend_flat_up_to_ten_points
              (get_price_history (29 * hour)%Z Examples.rising_db "p-sony" 1))
    as (v & o & E & D & _).
  - vm_compute. split; lia.
  - intros h Hh. vm_compute in Hh.
    repeat (destruct Hh as [<-|Hh]; [reflexivity|]). destruct Hh.
  - exists v, o. split; [exact E | exact D].
Defined.


Lemma vendor_trends_of_entries (price_history : list history_point)
    (ids : list string) (ts : list (string * vendor_trend)) :
  vendor_trends_of price_history ids = Ok ts ->
  forall v t, In (v, t) ts
              <-> In v ids /\ vendor_trend_of price_history v = Ok (Some t).
Proof.
  revert ts. induction ids as [|i rest IH]; intros ts E v t;
    cbn [vendor_trends_of] in E.
  - inversion E. subst ts. simpl. tauto.
  - destruct (vendor_trend_of price_history i) as [t0|e] eqn:T; [|discriminate].
    destruct (vendor_trends_of price_history rest) as [ts0|e] eqn:R; [|discriminate].
    cbn [bind] in E. inversion E as [Ets]. clear E.
    specialize (IH ts0 eq_refl v t). split.
    + intro H. destruct t0 as [vt|].
      * destruct H as [H|H].
        -- inversion H. subst. split; [now left | exact T].
        -- apply IH in H. split; [now right | apply H].
      * apply IH in H. split; [now right | apply H].
    + intros [[<-|Hv] Tv].
      * rewrite T in Tv. inversion Tv. subst. now left.
      * destruct t0; [right|]; apply IH; auto.
Qed.

Lemma vendor_trends_of_keys (price_history : list history_point)
    (ids : list string) (ts : list (string * vendor_trend)) :
  vendor_trends_of price_history ids = Ok ts -> NoDup ids -> NoDup (map fst ts).
Proof.
  revert ts. induction ids as [|i rest IH]; intros ts E N;
    cbn [vendor_trends_of] in E.
  - inversion E. constructor.
  - destruct (vendor_trend_of price_history i) as [t0|e] eqn:T; [|discriminate].
    destruct (vendor_trends_of price_history rest) as [ts0|e] eqn:R; [|discriminate].
    cbn [bind] in E. inversion E as [Ets]. clear E.
    inversion N as [|? ? Ni Nr]. subst.
    destruct t0 as [vt|]; [|now apply IH].
    cbn [map fst]. constructor; [|now apply IH].
    intro H. apply Ni. apply in_map_iff in H. destruct H as [[v t] [<- H]].
    now apply (vendor_trends_of_entries _ _ _ R) in H.
Qed.

Lemma vendor_trend_of_points (price_history : list history_point) (v : string) :
  let points :=
    List.length (filter (fun h => String.eqb (hp_vendor_id h) v) price_history) in
  match vendor_trend_of price_history v with
  | Ok None => (points < 2)%nat
  | _ => (2 <= points)%nat
  end.
Proof.
  intro points. unfold vendor_trend_of.
  assert (Len : List.length
                  (sort_asc hp_timestamp
                     (filter (fun h => String.eqb (hp_vendor_id h) v) price_history))
                = points).
  { apply Permutation_length, sort_asc_perm. }
  destruct (sort_asc hp_timestamp
              (filter (fun h => String.eqb (hp_vendor_id h) v) price_history))
    as [|first [|second rest]]; cbn [List.length] in Len; try lia.
  destruct (Qeq_bool (hp_price first) 0); lia.
Qed.

Lemma vendor_trends_of_raise (price_history : list history_point)
    (ids : list string) (v e : string) :
  In v ids -> vendor_trend_of price_history v = Raise e ->
  forall ts, vendor_trends_of price_history ids <> Ok ts.
Proof.
  induction ids as [|i rest IH]; intros Hv T ts E; [destruct Hv|].
  cbn [vendor_trends_of] in E.
  destruct (vendor_trend_of price_history i) as [t0|e0] eqn:Ti; [|discriminate].
  destruct (vendor_trends_of price_history rest) as [ts0|e1] eqn:R; [|discriminate].
  destruct Hv as [<-|Hv]; [congruence|].
  now apply (IH Hv T ts0).
Qed.

(** X14. When [calculate_price_trends] returns trends, its vendor trends
    hold one entry for each vendor that has a trend, and no other: a vendor
    appears exactly when it has two or more points in the history, with the
    trend of these points, and it appears once. *)
Theorem vendor_trends_one_per_vendor (price_history : list history_point)
    (vendor_trends : list (string * vendor_trend)) (overall : market_trend) :
  calculate_price_trends price_history = Ok (Trends vendor_trends overall) ->
  NoDup (map fst vendor_trends)
  /\ (forall v t, In (v, t) vendor_trends
                  <-> vendor_trend_of price_history v = Ok (Some t))
  /\ (forall v, In v (map fst vendor_trends)
                <-> (2 <= List.length
                            (filter (fun h => String.eqb (hp_vendor_id h) v)
                               price_history))%nat).
Proof.
  unfold calculate_price_trends. intro E.
  destruct (List.length price_history <? 2)%nat; [discriminate|].
  destruct (vendor_trends_of price_history
              (nodup string_dec (map hp_vendor_id price_history))) as [ts|e] eqn:V;
    [|discriminate].
  cbn [bind] in E. destruct (overall_trend_of price_history); [|discriminate].
  cbn [bind] in E. inversion E. subst. clear E.
  assert (Known : forall v t, vendor_trend_of price_history v = Ok (Some t) ->
                    In v (nodup string_dec (map hp_vendor_id price_history))).
  { intros v t T. apply nodup_In. unfold vendor_trend_of in T.
    pose proof (vendor_history_In price_history v) as I.
    destruct (sort_asc hp_timestamp
                (filter (fun h => String.eqb (hp_vendor_id h) v) price_history))
      as [|first rest]; [discriminate|].
    destruct (I first) as [[Hf <-] _]; [now left|]. now apply in_map. }
  assert (Entries : forall v t, In (v, t) vendor_trends
                      <-> vendor_trend_of price_history v = Ok (Some t)).
  { intros v t. rewrite (vendor_trends_of_entries _ _ _ V). split; [tauto|].
    intro T. split; [now apply (Known v t) | exact T]. }
  split; [apply (vendor_trends_of_keys _ _ _ V), NoDup_nodup|].
  split; [exact Entries|].
  intro v. pose proof (vendor_trend_of_points price_history v) as P.
  cbv zeta in P. split.
  - intro H. apply in_map_iff in H. destruct H as [[v' t] [<- H]].
    cbn [fst] in *. apply Entries in H. now rewrite H in P.
  - intro L. destruct (vendor_trend_of price_history v) as [[t|]|e] eqn:T.
    + change v with (fst (v, t)). apply in_map. now apply Entries.
    + lia.
    + exfalso. apply (vendor_trends_of_raise price_history
               (nodup string_dec (map hp_vendor_id price_history)) v e)
        with (ts := vendor_trends); [|exact T|exact V].
      apply nodup_In.
      destruct (filter (fun h => String.eqb (hp_vendor_id h) v) price_history)
        as [|h hs] eqn:F; [simpl in L; lia|].
      assert (I : In h (filter (fun h => String.eqb (hp_vendor_id h) v) price_history))
        by (rewrite F; now left).
      apply filter_In in I. destruct I as [Hh Eh]. apply String.eqb_eq in Eh.
      subst v. now apply in_map.
Qed.

Lemma vendor_trends_one_per_vendor_witness :
  exists vendor_trends overall,
    calculate_price_trends MoreExamples.sample_history
    = Ok (Trends vendor_trends overall)
    /\ NoDup (map fst vendor_trends)
    /\ In "v-a"%string (map fst vendor_trends)
    /\ ~ In "v-b"%string (map fst vendor_trends).
Proof.
  destruct (calculate_price_trends MoreExamples.sample_history)
    as [[|vendor_trends overall]|e] eqn:E; try (vm_compute in E; discriminate).
  exists vendor_trends, overall. split; [reflexivity|].
  destruct (vendor_trends_one_per_vendor _ _ _ E) as (N & _ & K).
  split; [exact N|]. split.
  - apply K. vm_compute. lia.
  - intro H. apply K in H. vm_compute in H. lia.
Defined.

(** ** The history that the engine analyses *)

Lemma filter_map_comm {A B : Type} (f : B -> bool) (g : A -> B) (l : list A) :
  filter f (map g l) = map g (filter (fun x => f (g x)) l).
Proof.
  induction l as [|x l IH]; [reflexivity|]. cbn [map filter].
  destruct (f (g x)); cbn [map]; now rewrite IH.
Qed.

Lemma filter_filter_length {A : Type} (f g h : A -> bool) (l : list A) :
  (forall x, f x = true -> g x = true -> h x = true) ->
  (List.length (filter f (filter g l)) <= List.length (filter h l))%nat.
Proof.
  intro Imp. induction l as [|x l IH]; [reflexivity|]. cbn [filter].
  destruct (g x) eqn:G; cbn [filter].
  - destruct (f x) eqn:F.
    + rewrite (Imp x F G). cbn [List.length]. lia.
    + destruct (h x); cbn [List.length]; lia.
  - destruct (h x); cbn [List.length]; lia.
Qed.

Lemma vendor_trends_of_none (price_history : list history_point) (ids : list string) :
  (forall v, vendor_trend_of price_history v = Ok None) ->
  vendor_trends_of price_history ids = Ok [].
Proof.
  intro N. induction ids as [|v rest IH]; [reflexivity|].
  cbn [vendor_trends_of]. now rewrite N, IH.
Qed.

(** X15. The history that [analyze_product_pricing] hands to the trend
    analysis is read from the current prices: a point for every price row
    of the product updated since the cut-off, newest first, whatever the
    archived history holds.  Hence, when the price table has at most one
    row per product and vendor, each vendor has at most one point, no
    vendor has a trend, and [calculate_price_trends] reports no vendor
    trends at all. *)
Theorem analysis_has_no_vendor_trends (now : datetime) (d : DB) (pid : string)
    (n : Z) :
  Invariants.unique_pairs (prices d) ->
  let points := get_price_history now d pid n in
  (forall archived, get_price_history now (set_price_history d archived) pid n = points)
  /\ (forall h, In h points ->
        exists p, In p (prices d) /\ price_product_id p = pid
                  /\ (now - days n <= last_updated_at p)%Z
                  /\ hp_vendor_id h = price_vendor_id p /\ hp_price h = price p
                  /\ hp_timestamp h = last_updated_at p)
  /\ (forall p, In p (prices d) -> price_product_id p = pid ->
        (now - days n <= last_updated_at p)%Z ->
        exists h, In h points /\ hp_vendor_id h = price_vendor_id p
                  /\ hp_price h = price p /\ hp_timestamp h = last_updated_at p)
  /\ (forall v, (List.length (filter (fun h => String.eqb (hp_vendor_id h) v) points)
                 <= 1)%nat)
  /\ (forall v, vendor_trend_of points v = Ok None)
  /\ match calculate_price_trends points with
     | Ok InsufficientData => (List.length points < 2)%nat
     | Ok (Trends vendor_trends _) => vendor_trends = [] /\ (2 <= List.length points)%nat
     | Raise e => e = "ZeroDivisionError" /\ (2 <= List.length points)%nat
     end.
Proof.
  intros U points.
  assert (One : forall v,
             (List.length (filter (fun h => String.eqb (hp_vendor_id h) v) points)
              <= 1)%nat).
  { intro v. unfold points, get_price_history.
    rewrite filter_map_comm, length_map. cbn [hp_vendor_id].
    rewrite (filter_length_perm _ _ _ (sort_desc_perm _ _)).
    eapply Nat.le_trans; [|apply (U pid v)].
    apply filter_filter_length. intros x F G. unfold price_of.
    apply andb_true_iff in G. destruct G as [G _]. now rewrite G, F. }
  assert (None_ : forall v, vendor_trend_of points v = Ok None).
  { intro v. pose proof (vendor_trend_of_points points v) as P. cbv zeta in P.
    specialize (One v).
    destruct (vendor_trend_of points v) as [[t|]|e]; [lia | reflexivity | lia]. }
  split; [reflexivity|]. split; [|split; [|split; [exact One|split; [exact None_|]]]].
  - intros h Hh. unfold points, get_price_history in Hh.
    apply in_map_iff in Hh. destruct Hh as [p [<- Hp]].
    apply (Permutation_in _ (sort_desc_perm _ _)) in Hp.
    apply filter_In in Hp. destruct Hp as [Hp C].
    apply andb_true_iff in C. destruct C as [C1 C2].
    apply String.eqb_eq in C1. apply Z.leb_le in C2.
    exists p. cbn [hp_vendor_id hp_price hp_timestamp]. repeat split; auto.
  - intros p Hp Ep C.
    eexists. split.
    + unfold points, get_price_history. apply in_map.
      apply (Permutation_in _ (Permutation_sym (sort_desc_perm _ _))).
      apply filter_In. split; [exact Hp|].
      apply andb_true_iff. split; [now apply String.eqb_eq | now apply Z.leb_le].
    + cbn [hp_vendor_id hp_price hp_timestamp]. auto.
  - unfold calculate_price_trends.
    destruct (List.length points <? 2)%nat eqn:L.
    + now apply Nat.ltb_lt in L.
    + apply Nat.ltb_ge in L. rewrite (vendor_trends_of_none _ _ None_). cbn [bind].
      unfold overall_trend_of.
      destruct (Qeq_bool (mean (all_older_prices points)) 0); cbn [bind]; auto.
Qed.

Lemma analysis_has_no_vendor_trends_witness :
  vendor_trend_of (get_price_history (100 * hour)%Z Examples.ex_db "p-sony" 30)
    "v-amazon"
  = Ok None.
Proof.
  exact (proj1 (proj2 (proj2 (proj2 (proj2
           (analysis_has_no_vendor_trends (100 * hour)%Z Examples.ex_db "p-sony" 30
              ex_world_unique))))) "v-amazon").
Defined.

(** ** Invariants of the pipeline *)

Lemma catalog_kept_refl (ps : list Product) : catalog_kept ps ps.
Proof.
  intros i p H. exists p. repeat split; [exact H | lia].
Qed.

Lemma catalog_kept_trans (a b c : list Product) :
  catalog_kept a b -> catalog_kept b c -> catalog_kept a c.
Proof.
  intros AB BC i p H.
  destruct (AB i p H) as (q & Hq & Iq & Pq).
  destruct (BC i q Hq) as (r & Hr & Ir & Pr).
  exists r. repeat split; [exact Hr | congruence | lia].
Qed.

Lemma catalog_kept_app (ps new : list Product) : catalog_kept ps (ps ++ new).
Proof.
  intros i p H. exists p. repeat split; [|lia].
  rewrite nth_error_app1; [exact H|]. apply nth_error_Some. congruence.
Qed.

Lemma catalog_kept_increment (ps : list Product) (i : nat) :
  catalog_kept ps (update_at i increment_popularity ps).
Proof.
  intros j p H. destruct (Nat.eq_dec i j) as [<-|N].
  - exists (increment_popularity p).
    split; [now apply nth_error_update_at_eq|].
    split; [reflexivity|]. cbn [increment_popularity popularity_score]. lia.
  - exists p. rewrite nth_error_update_at_neq by exact N.
    repeat split; [exact H | lia].
Qed.

Lemma ledger_kept_refl (ps : list Price) : ledger_kept ps ps.
Proof.
  intros j r H. exists r. auto.
Qed.

Lemma ledger_kept_trans (a b c : list Price) :
  ledger_kept a b -> ledger_kept b c -> ledger_kept a c.
Proof.
  intros AB BC j r H.
  destruct (AB j r H) as (q & Hq & I1 & I2 & I3).
  destruct (BC j q Hq) as (s & Hs & J1 & J2 & J3).
  exists s. repeat split; [exact Hs | congruence..].
Qed.

Lemma ledger_kept_app (ps new : list Price) : ledger_kept ps (ps ++ new).
Proof.
  intros j r H. exists r. repeat split.
  rewrite nth_error_app1; [exact H|]. apply nth_error_Some. congruence.
Qed.

Lemma ledger_kept_update (ps : list Price) (j : nat) (x y : Price) :
  nth_error ps j = Some x ->
  price_id y = price_id x -> price_product_id y = price_product_id x ->
  price_vendor_id y = price_vendor_id x ->
  ledger_kept ps (update_at j (fun _ => y) ps).
Proof.
  intros Hx I1 I2 I3 k r H. destruct (Nat.eq_dec j k) as [<-|N].
  - exists y. split; [now apply (nth_error_update_at_eq (fun _ => y) ps j x)|].
    rewrite Hx in H. inversion H. subst. auto.
  - exists r. rewrite nth_error_update_at_neq by exact N. auto.
Qed.

Section StoreInvariants.
Context {fuzz : Fuzz}.
Variable env : Env.
Variable similarity_threshold : Z.

Local Abbreviation find_product := (find_matching_product env similarity_threshold).
Local Abbreviation store := (_store_product_data env similarity_threshold).


Lemma store_keeps_pairs (sp : ScrapedProduct) (vendor : Vendor) (w w' : World) :
  store sp vendor w = Ok w' ->
  (unique_pairs (prices (db w)) -> unique_pairs (prices (db w')))
  /\ ledger_kept (prices (db w)) (prices (db w'))
  /\ (List.length (prices (db w')) <= S (List.length (prices (db w))))%nat.
Proof.
  intro H.
  destruct (find_product sp w) as [[[i product] w0]|e] eqn:F;
    [|rewrite (store_raises _ _ _ _ _ _ F) in H; discriminate].
  destruct (find_matching_product_row _ _ _ _ _ _ _ F) as (_ & Pr & _).
  destruct (find_index (price_of (product_id product) (vendor_id vendor))
              (prices (db w0))) as [[j existing]|] eqn:E.
  - rewrite (store_update _ _ _ _ _ _ _ _ _ _ F E) in H.
    inversion H; subst w'; clear H. cbn [db prices]. rewrite <- Pr.
    destruct (find_index_nth _ _ _ _ E) as [Hn _].
    split; [|split].
    + intros U pid vid.
      rewrite (filter_length_update_at _ _ _ _ _ Hn); [apply U|].
      now apply price_of_same_ids.
    + now apply (ledger_kept_update _ _ existing).
    + rewrite length_update_at. lia.
  - rewrite (store_insert _ _ _ _ _ _ _ _ F E) in H.
    inversion H; subst w'; clear H. cbn [db prices]. rewrite <- Pr.
    split; [|split].
    + intros U pid vid. rewrite filter_app, length_app. cbn [filter].
      match goal with |- context [price_of pid vid ?q] =>
        destruct (price_of pid vid q) eqn:Q end.
      * destruct (price_of_ids _ _ _ Q) as [X1 X2].
        cbn [price_product_id price_vendor_id] in X1, X2. subst pid vid.
        rewrite (find_index_none _ _ E). reflexivity.
      * specialize (U pid vid). simpl. lia.
    + apply ledger_kept_app.
    + rewrite length_app. simpl. lia.
Qed.


End StoreInvariants.

(** A relation between the worlds before and after, kept by every step of
    a run, is kept by the loops and by the whole run. *)
Section RunInvariant.
Context {fuzz : Fuzz}.
Variable env : Env.
Variable similarity_threshold : Z.
Variable R : World -> World -> Prop.
Hypothesis R_refl : forall w, R w w.
Hypothesis R_trans : forall a b c, R a b -> R b c -> R a c.
Hypothesis R_store :
  forall sp vendor w w',
    _store_product_data env similarity_threshold sp vendor w = Ok w' -> R w w'.
Hypothesis R_clock : forall w t, (tick w <= t)%nat -> R w (mkWorld (db w) t).
Hypothesis R_runs :
  forall w rs t, (tick w <= t)%nat -> R w (mkWorld (set_scraper_runs (db w) rs) t).

Lemma store_loop_keeps (vendor : Vendor) (sps : list ScrapedProduct) :
  forall acc w, R w (snd (store_loop env similarity_threshold sps vendor acc w)).
Proof.
  induction sps as [|sp rest IH]; intros acc w; cbn [store_loop].
  - apply R_refl.
  - destruct (_store_product_data env similarity_threshold sp vendor w) as [w'|e] eqn:S.
    + eapply R_trans; [apply (R_store _ _ _ _ S) | apply IH].
    + apply IH.
Qed.

Lemma query_loop_keeps (scraper : Scraper) (vendor : Vendor) (queries : list string) :
  forall acc w,
    R w (snd (query_loop env similarity_threshold scraper vendor queries acc w)).
Proof.
  induction queries as [|q rest IH]; intros acc w; cbn [query_loop].
  - apply R_refl.
  - cbv zeta. eapply R_trans; [apply (R_clock w (S (tick w))); lia|].
    destruct (search_product scraper (tick w) q) as [sps|e].
    + pose proof (store_loop_keeps vendor sps acc (mkWorld (db w) (S (tick w)))) as L.
      destruct (store_loop env similarity_threshold sps vendor acc
                  (mkWorld (db w) (S (tick w)))) as [acc' w2].
      eapply R_trans; [exact L | apply IH].
    + apply IH.
Qed.

Lemma run_vendor_keeps (vendor : Vendor) (scraper : Scraper) (queries : list string)
    (res : results) (w : World) :
  R w (snd (run_vendor env similarity_threshold vendor scraper queries res w)).
Proof.
  unfold run_vendor, _start_scraper_run, _run_vendor_scraper.
  match goal with |- context [query_loop _ _ _ _ _ ?a ?w1] =>
    pose proof (query_loop_keeps scraper vendor queries a w1) as Q;
    destruct (query_loop env similarity_threshold scraper vendor queries a w1)
      as [r w2] eqn:E
  end.
  cbn [snd close_run] in *.
  eapply R_trans; [|eapply R_trans; [exact Q|]].
  - apply R_runs. lia.
  - unfold _complete_scraper_run. apply R_runs. lia.
Qed.

Lemma run_all_scrapers_keeps (scrapers : list (Vendor * Scraper))
    (queries : list string) :
  forall res w,
    R w (snd (run_all_scrapers env similarity_threshold scrapers queries res w)).
Proof.
  induction scrapers as [|[vendor scraper] rest IH]; intros res w;
    cbn [run_all_scrapers].
  - apply R_refl.
  - pose proof (run_vendor_keeps vendor scraper queries res w) as V.
    destruct (run_vendor env similarity_threshold vendor scraper queries res w)
      as [res' w'].
    eapply R_trans; [exact V | apply IH].
Qed.

End RunInvariant.

(** X16. The scraper pipeline keeps the price table free of duplicate
    (product, vendor) pairs: if no pair has two rows before, none has after
    a successful [_store_product_data], and none has after a whole
    [run_all_scrapers], whatever the scrapers return and whichever stores
    fail. *)
Theorem pipeline_keeps_pairs_unique {fuzz : Fuzz} (env : Env) (similarity_threshold : Z)
    (scrapers : list (Vendor * Scraper)) (queries : list string) (res : results)
    (w : World) :
  unique_pairs (prices (db w)) ->
  (forall sp vendor w',
      _store_product_data env similarity_threshold sp vendor w = Ok w' ->
      unique_pairs (prices (db w')))
  /\ unique_pairs
       (prices (db (snd (run_all_scrapers env similarity_threshold scrapers queries
                           res w)))).
Proof.
  intro U. split.
  - intros sp vendor w' H. now apply (store_keeps_pairs env similarity_threshold _ _ _ _ H).
  - revert U.
    apply (run_all_scrapers_keeps env similarity_threshold
             (fun a b => unique_pairs (prices (db a)) -> unique_pairs (prices (db b)))).
    + auto.
    + auto.
    + intros sp vendor a b H. now apply (store_keeps_pairs env similarity_threshold _ _ _ _ H).
    + intros a t _ H. exact H.
    + intros a rs t _ H. exact H.
Qed.

Lemma pipeline_keeps_pairs_unique_witness :
  unique_pairs
    (prices (db (snd (run_all_scrapers (fuzz := Examples.ex_fuzz) Examples.ex_env 80
                        [(Examples.amazon, Examples.flaky)] Examples.ten_queries
                        (mkResults 0 0 []) Examples.ex_world)))).
Proof.
  apply (pipeline_keeps_pairs_unique (fuzz := Examples.ex_fuzz) Examples.ex_env 80
           [(Examples.amazon, Examples.flaky)] Examples.ten_queries (mkResults 0 0 [])
           Examples.ex_world).
  intros pid vid. simpl.
  destruct (price_of pid vid Examples.sony_at_amazon); simpl; lia.
Defined.

(** ** The run records *)

Lemma update_at_last {A : Type} (f : A -> A) (l : list A) (x : A) :
  update_at (List.length l) f (l ++ [x]) = l ++ [f x].
Proof.
  induction l as [|y l IH]; [reflexivity|]. cbn [List.length app update_at].
  now rewrite IH.
Qed.






(** ** Matching again *)

Section MatchAgain.
Context {fuzz : Fuzz}.
Variable similarity_threshold : Z.
Variable name : string.

Local Abbreviation kw := (_extract_product_keywords name).

(** The score of a product depends on its name only. *)
Lemma composite_score_name (kws : list string) (p q : Product) :
  product_name p = product_name q ->
  composite_score name kws p = composite_score name kws q.
Proof.
  intro E. unfold composite_score, measures. now rewrite E.
Qed.

Lemma consider_same_candidate (a b : option (nat * Product) * Q) (i : nat)
    (p q : Product) :
  same_candidate a b -> product_name p = product_name q ->
  same_candidate (consider similarity_threshold name kw a (i, p))
    (consider similarity_threshold name kw b (i, q)).
Proof.
  intros [S C] E. unfold consider. cbn [snd].
  rewrite (composite_score_name kw p q E), S.
  destruct (Qltb (snd b) (composite_score name kw q)
            && Qle_bool (inject_Z similarity_threshold) (composite_score name kw q)).
  - split; [reflexivity | cbn [fst]; auto].
  - split; assumption.
Qed.

Lemma fold_same_candidate (ps qs : list Product) :
  Forall2 (fun p q => product_name p = product_name q) ps qs ->
  forall k a b,
    same_candidate a b ->
    same_candidate
      (fold_left (consider similarity_threshold name kw)
         (combine (seq k (List.length ps)) ps) a)
      (fold_left (consider similarity_threshold name kw)
         (combine (seq k (List.length qs)) qs) b).
Proof.
  induction 1 as [|p q ps qs E F IH]; intros k a b S; cbn [List.length seq combine fold_left].
  - exact S.
  - apply IH. now apply consider_same_candidate.
Qed.

Lemma increment_keeps_names (ps : list Product) (i : nat) :
  Forall2 (fun p q => product_name p = product_name q) ps
    (update_at i increment_popularity ps).
Proof.
  revert i. induction ps as [|p ps IH]; intros [|i]; cbn [update_at]; constructor;
    try reflexivity; auto.
  clear. induction ps; constructor; auto.
Qed.

(** A product matched once is matched again after its popularity was
    incremented. *)
Lemma best_match_again (ps : list Product) (i j : nat) (p : Product) :
  fst (best_match similarity_threshold name ps) = Some (i, p) ->
  fst (best_match similarity_threshold name (update_at j increment_popularity ps))
  = Some (i, match nth_error (update_at j increment_popularity ps) i with
             | Some q => q
             | None => p
             end).
Proof.
  intro B. unfold best_match, enumerate in *.
  pose proof (fold_same_candidate _ _ (increment_keeps_names ps j) 0 (None, 0) (None, 0))
    as S.
  destruct S as [_ S]; [split; [reflexivity | exact I]|].
  rewrite B in S.
  destruct (fst (fold_left (consider similarity_threshold name kw)
                   (combine (seq 0 (List.length (update_at j increment_popularity ps)))
                      (update_at j increment_popularity ps)) (None, 0)))
    as [[i' q]|] eqn:B'; [|contradiction].
  destruct S as [<- _].
  destruct (best_match_some similarity_threshold name _ _ _ B') as [N _].
  now rewrite N.
Qed.

Lemma enumerate_app_last {A : Type} (l : list A) (x : A) (k : nat) :
  combine (seq k (List.length (l ++ [x]))) (l ++ [x])
  = combine (seq k (List.length l)) l ++ [((k + List.length l)%nat, x)].
Proof.
  revert k. induction l as [|y l IH]; intro k; cbn [List.length app seq combine].
  - now rewrite Nat.add_0_r.
  - rewrite IH. now rewrite Nat.add_succ_comm.
Qed.

(** A product created for a name is matched by that name afterwards, when
    the direct comparison of a text with itself reaches the threshold. *)
Lemma best_match_created (ps : list Product) (p : Product) :
  (0 < similarity_threshold)%Z ->
  inject_Z similarity_threshold <= inject_Z (ratio (lower name) (lower name)) ->
  product_name p = name ->
  fst (best_match similarity_threshold name ps) = None ->
  fst (best_match similarity_threshold name (ps ++ [p])) = Some (List.length ps, p).
Proof.
  intros T R E B. unfold best_match, enumerate in *.
  rewrite enumerate_app_last, fold_left_app. cbn [fold_left Nat.add].
  destruct (fold_left (consider similarity_threshold name kw)
              (combine (seq 0 (List.length ps)) ps) (None, 0)) as [b s] eqn:F.
  cbn [fst] in B. subst b.
  destruct (best_match_loop similarity_threshold name _ _ _ _ _ F) as (_ & _ & L).
  destruct L as [[_ ->]|(c & _ & X & _)]; [|discriminate].
  unfold consider. cbn [snd].
  destruct (composite_score_max name kw p) as (M & _). cbv zeta in M.
  rewrite E in M.
  assert (P : 0 < inject_Z similarity_threshold).
  { change 0 with (inject_Z 0). now rewrite <- Zlt_Qlt. }
  assert (Q1 : Qltb 0 (composite_score name kw p) = true) by (apply Qltb_true; lra).
  assert (Q2 : Qle_bool (inject_Z similarity_threshold) (composite_score name kw p) = true)
    by (apply Qle_bool_iff; lra).
  now rewrite Q1, Q2.
Qed.

End MatchAgain.

(** After a successful store the product that the observation resolved
    to is matched again, and its price row for the vendor is found. *)
Lemma store_then_found {fuzz : Fuzz} (env : Env) (similarity_threshold : Z)
    (sp : ScrapedProduct) (vendor : Vendor) (w w1 : World) :
  (0 < similarity_threshold)%Z ->
  (forall a, (similarity_threshold <= ratio a a)%Z) ->
  _store_product_data env similarity_threshold sp vendor w = Ok w1 ->
  exists i product0 w0 j row,
    find_matching_product env similarity_threshold sp w = Ok (i, product0, w0)
    /\ find_matching_product env similarity_threshold sp w1
       = Ok (i, increment_popularity product0, w1)
    /\ find_index (price_of (product_id product0) (vendor_id vendor)) (prices (db w1))
       = Some (j, row)
    /\ price row = sp_price sp.
Proof.
  intros T R H.
  destruct (find_matching_product env similarity_threshold sp w)
    as [[[i p0] w0]|e] eqn:F;
    [|rewrite (store_raises _ _ _ _ _ _ F) in H; discriminate].
  destruct (find_matching_product_row _ _ _ _ _ _ _ F) as (N0 & _).
  exists i, p0, w0.
  assert (Again : products (db w1) = update_at i increment_popularity (products (db w0))
                  -> find_matching_product env similarity_threshold sp w1
                     = Ok (i, increment_popularity p0, w1)).
  { intro P1. generalize F. unfold find_matching_product.
    destruct (sp_name sp) as [name|]; [|discriminate].
    destruct (fst (best_match similarity_threshold name (products (db w))))
      as [[k q]|] eqn:B; intro F'; inversion F'; subst; clear F'.
    - rewrite P1, (best_match_again _ _ _ _ i _ B).
      now rewrite (nth_error_update_at_eq _ _ _ _ N0).
    - rewrite P1. cbn [db products set_products]. rewrite update_at_last.
      rewrite (best_match_created similarity_threshold name); auto.
      rewrite <- Zle_Qle. apply R. }
  destruct (find_index (price_of (product_id p0) (vendor_id vendor)) (prices (db w0)))
    as [[j existing]|] eqn:E.
  - rewrite (store_update _ _ _ _ _ _ _ _ _ _ F E) in H.
    inversion H; subst w1; clear H. cbn [db products prices] in *.
    eexists j, _. split; [reflexivity|]. split; [now apply Again|]. split.
    + apply (find_index_update_at _ _ _ _ _ E).
      destruct (find_index_nth _ _ _ _ E) as [_ Pe]. exact Pe.
    + reflexivity.
  - rewrite (store_insert _ _ _ _ _ _ _ _ F E) in H.
    inversion H; subst w1; clear H. cbn [db products prices] in *.
    eexists _, _. split; [reflexivity|]. split; [now apply Again|]. split.
    + apply (find_index_app_new _ _ _ E).
      unfold price_of. cbn [price_product_id price_vendor_id].
      now rewrite !String.eqb_refl.
    + reflexivity.
Qed.

(** X20. Storing an observation a second time creates nothing.  For a
    positive threshold that the direct comparison of a name with itself
    reaches, after a successful [_store_product_data] a second one of the
    same observation for the same vendor succeeds: it resolves to the
    product of the first at the same position, adds neither a product nor a
    price row, counts the sighting in the popularity, and leaves the price
    row of that product and vendor with the observed price. *)
Theorem store_again_creates_nothing {fuzz : Fuzz} (env : Env) (similarity_threshold : Z)
    (sp : ScrapedProduct) (vendor : Vendor) (w w1 : World) :
  (0 < similarity_threshold)%Z ->
  (forall a, (similarity_threshold <= ratio a a)%Z) ->
  _store_product_data env similarity_threshold sp vendor w = Ok w1 ->
  exists i product0 w0 w2 j row,
    find_matching_product env similarity_threshold sp w = Ok (i, product0, w0)
    /\ find_matching_product env similarity_threshold sp w1
       = Ok (i, increment_popularity product0, w1)
    /\ _store_product_data env similarity_threshold sp vendor w1 = Ok w2
    /\ List.length (products (db w2)) = List.length (products (db w1))
    /\ List.length (prices (db w2)) = List.length (prices (db w1))
    /\ nth_error (products (db w2)) i
       = Some (increment_popularity (increment_popularity product0))
    /\ find_index (price_of (product_id product0) (vendor_id vendor)) (prices (db w2))
       = Some (j, row)
    /\ price row = sp_price sp.
Proof.
  intros T R H.
  destruct (store_then_found env similarity_threshold sp vendor w w1 T R H)
    as (i & p0 & w0 & j & row & F & F1 & E1 & _).
  exists i, p0, w0.
  change (product_id p0) with (product_id (increment_popularity p0)) in E1.
  pose proof (store_update _ _ _ _ _ _ _ _ _ _ F1 E1) as S2.
  destruct (find_matching_product_row _ _ _ _ _ _ _ F1) as (N1 & _).
  eexists _, j, _. split; [exact F|]. split; [exact F1|]. split; [exact S2|].
  cbn [db products prices]. rewrite !length_update_at.
  split; [reflexivity|]. split; [reflexivity|].
  split; [now apply nth_error_update_at_eq|]. split.
  - apply (find_index_update_at _ _ _ _ _ E1).
    destruct (find_index_nth _ _ _ _ E1) as [_ Pe]. exact Pe.
  - reflexivity.
Qed.

Lemma store_again_creates_nothing_witness :
  exists w1 w2,
    _store_product_data (fuzz := Examples.ex_fuzz) Examples.ex_env 80 Examples.xyz
      Examples.amazon Examples.abc_world = Ok w1
    /\ _store_product_data (fuzz := Examples.ex_fuzz) Examples.ex_env 80 Examples.xyz
         Examples.amazon w1 = Ok w2
    /\ List.length (products (db w1)) = 2%nat
    /\ List.length (products (db w2)) = 2%nat
    /\ List.length (prices (db w2)) = 1%nat.
Proof.
  eexists. 
  destruct (store_again_creates_nothing (fuzz := Examples.ex_fuzz) Examples.ex_env 80
              Examples.xyz Examples.amazon Examples.abc_world _ ltac:(lia)
              ltac:(intro a; cbn [ratio Examples.ex_fuzz];
                    unfold Examples.same_or_nothing; rewrite String.eqb_refl; lia)
              eq_refl)
    as (i & p0 & w0 & w2 & j & row & _ & _ & S2 & L1 & L2 & _).
  exists w2. split; [reflexivity|]. split; [exact S2|].
  split; [reflexivity|]. split; [rewrite L1; reflexivity | rewrite L2; reflexivity].
Defined.

(** ** Prices of four digits and more *)

Lemma forall_char_filter (p q : ascii -> bool) (s : string) :
  forall_char p s = true -> forall_char p (filter_chars q s) = true.
Proof.
  induction s as [|c s IH]; cbn [forall_char filter_chars]; [reflexivity|].
  intro H. apply andb_true_iff in H. destruct H as [C H].
  destruct (q c); cbn [forall_char]; rewrite ?C; auto.
Qed.

Lemma forall_char_lstrip (p : ascii -> bool) (s : string) :
  forall_char p s = true -> forall_char p (lstrip s) = true.
Proof.
  induction s as [|c s IH]; cbn [forall_char lstrip]; [reflexivity|].
  intro H. destruct (is_space c); [|exact H].
  apply andb_true_iff in H. now apply IH.
Qed.

Lemma forall_char_rstrip (p : ascii -> bool) (s : string) :
  forall_char p s = true -> forall_char p (rstrip s) = true.
Proof.
  induction s as [|c s IH]; cbn [forall_char rstrip]; [reflexivity|].
  intro H. apply andb_true_iff in H. destruct H as [C H]. specialize (IH H).
  destruct (rstrip s) as [|d r].
  - destruct (is_space c); cbn [forall_char]; rewrite ?C; reflexivity.
  - cbn [forall_char] in *. now rewrite C, IH.
Qed.

Lemma forall_char_clean (p : ascii -> bool) (s : string) :
  forall_char p s = true -> forall_char p (clean s) = true.
Proof.
  intro H. unfold clean, strip.
  now apply forall_char_filter, forall_char_rstrip, forall_char_lstrip.
Qed.

(** What [re.search] finds is a part of the text. *)
Lemma search_part (r : regex) (s m : string) :
  search r s = Some m -> exists pre post, s = (pre ++ m ++ post)%string.
Proof.
  induction s as [|c s IH]; cbn [search].
  - destruct (match_at r EmptyString) as [[m' rest]|] eqn:M; [|discriminate].
    intro H. inversion H. subst m'. exists EmptyString, rest.
    now destruct (match_at_sound _ _ _ _ M).
  - destruct (match_at r (String c s)) as [[m' rest]|] eqn:M.
    + intro H. inversion H. subst m'. exists EmptyString, rest.
      now destruct (match_at_sound _ _ _ _ M).
    + intro H. destruct (IH H) as (pre & post & ->).
      now exists (String c pre), post.
Qed.

Lemma search_keeps (p : ascii -> bool) (r : regex) (s m : string) :
  forall_char p s = true -> search r s = Some m -> forall_char p m = true.
Proof.
  intros H S. destruct (search_part _ _ _ S) as (pre & post & ->).
  rewrite !forall_char_app in H.
  apply andb_true_iff in H. destruct H as [_ H].
  apply andb_true_iff in H. apply H.
Qed.

(** Without a comma there is no group of thousands. *)
Lemma lang_groups_no_comma (m : string) :
  lang (Star (Seq comma digit_3)) m ->
  forall_char (fun c => negb (Ascii.eqb c ","%char)) m = true ->
  m = EmptyString.
Proof.
  intros H N. inversion H as [| | | | | | |r|r a b Ha Hb]; subst; [reflexivity|].
  exfalso. unfold comma in Ha. inversion Ha as [| |r1 r2 x y Hx Hy| | | | | |]; subst.
  inversion Hx as [|q c Hc| | | | | | |]; subst.
  apply Ascii.eqb_eq in Hc. subst c. cbn [append forall_char] in N.
  rewrite Ascii.eqb_refl in N. discriminate.
Qed.

Lemma lang_digit_1_3_length (m : string) :
  lang digit_1_3 m -> (String.length m <= 3)%nat.
Proof.
  unfold digit_1_3, digit. intro H. inv_lang; cbn; lia.
Qed.

Lemma lang_grouped_no_comma (m : string) :
  lang grouped m ->
  forall_char (fun c => negb (Ascii.eqb c ","%char)) m = true ->
  forall_char is_digit m = true /\ m <> EmptyString /\ (String.length m <= 3)%nat.
Proof.
  unfold grouped. intros H N.
  inversion H as [| |r1 r2 a b Ha Hb| | | | | |]; subst.
  rewrite forall_char_app in N. apply andb_true_iff in N. destruct N as [_ N].
  rewrite (lang_groups_no_comma _ Hb N), append_empty_r.
  destruct (lang_digit_1_3 _ Ha). split; [assumption|]. split; [assumption|].
  now apply lang_digit_1_3_length.
Qed.

Lemma digit_value_le (c : ascii) : is_digit c = true -> (0 <= digit_value c <= 9)%Z.
Proof.
  unfold is_digit, digit_value. cbv zeta. intro H.
  apply andb_true_iff in H. destruct H as [A B].
  apply Nat.leb_le in A, B. lia.
Qed.

Lemma digits_value_lt (s : string) :
  forall acc,
    forall_char is_digit s = true -> (0 <= acc)%Z ->
    (digits_value acc s < (acc + 1) * 10 ^ Z.of_nat (String.length s))%Z.
Proof.
  induction s as [|c s IH]; intros acc D A.
  - cbn [digits_value String.length]. change (10 ^ Z.of_nat 0)%Z with 1%Z. lia.
  - cbn [forall_char] in D. apply andb_true_iff in D. destruct D as [C D].
    pose proof (digit_value_le c C) as V.
    cbn [digits_value String.length]. rewrite Nat2Z.inj_succ, Z.pow_succ_r by lia.
    specialize (IH (10 * acc + digit_value c)%Z D ltac:(lia)).
    assert (0 < 10 ^ Z.of_nat (String.length s))%Z by (apply Z.pow_pos_nonneg; lia).
    nia.
Qed.

Lemma ratio_lt (n b : Z) (k : nat) :
  (n < b * 10 ^ Z.of_nat k)%Z -> inject_Z n / inject_Z (10 ^ Z.of_nat k) < inject_Z b.
Proof.
  intro H.
  assert (P : (0 < 10 ^ Z.of_nat k)%Z) by (apply Z.pow_pos_nonneg; lia).
  apply Qlt_shift_div_r.
  - change 0 with (inject_Z 0). now rewrite <- Zlt_Qlt.
  - rewrite <- inject_Z_mult, <- Zlt_Qlt. exact H.
Qed.

Lemma Decimal_digits_below (i : string) :
  forall_char is_digit i = true -> i <> EmptyString -> (String.length i <= 3)%nat ->
  forall d, Decimal i = Ok d -> d < 1000.
Proof.
  intros D N L d. destruct i as [|c t]; [congruence|].
  pose proof D as D'. cbn [forall_char] in D'. apply andb_true_iff in D'.
  destruct D' as [C _].
  rewrite (Decimal_unsigned _ c t eq_refl C). unfold unsigned_decimal.
  destruct (split_point_digits _ D) as [-> _].
  rewrite append_empty_r, D. cbn [forall_char andb String.eqb negb].
  intro H. inversion H. subst d. clear H.
  apply (ratio_lt (digits_value 0 (String c t)) 1000 0).
  pose proof (digits_value_lt (String c t) 0 D ltac:(lia)) as B.
  change (10 ^ Z.of_nat 0)%Z with 1%Z.
  assert ((10 ^ Z.of_nat (String.length (String c t)) <= 10 ^ 3)%Z)
    by (apply Z.pow_le_mono_r; lia).
  lia.
Qed.

Lemma Decimal_fraction_below (i f : string) :
  forall_char is_digit i = true -> i <> EmptyString -> (String.length i <= 3)%nat ->
  forall_char is_digit f = true ->
  forall d, Decimal (i ++ String "."%char f) = Ok d -> d < 1000.
Proof.
  intros D N L F d. destruct i as [|c t]; [congruence|].
  pose proof D as D'. cbn [forall_char] in D'. apply andb_true_iff in D'.
  destruct D' as [C _].
  rewrite (Decimal_unsigned (String c t ++ String "."%char f) c
             (t ++ String "."%char f) eq_refl C).
  unfold unsigned_decimal.
  destruct (split_point_digits _ D) as [_ ->].
  rewrite D, F. cbn [andb append String.eqb negb].
  intro H. inversion H. subst d. clear H.
  apply (ratio_lt (digits_value 0 (String c t ++ f)) 1000 (String.length f)).
  assert (DF : forall_char is_digit (String c (t ++ f)) = true).
  { change (String c (t ++ f)) with (String c t ++ f)%string.
    now rewrite forall_char_app, D, F. }
  pose proof (digits_value_lt _ 0 DF ltac:(lia)) as B.
  change (String c (t ++ f)) with (String c t ++ f)%string in B.
  rewrite length_append, Nat2Z.inj_add, Z.pow_add_r in B by lia.
  assert ((10 ^ Z.of_nat (String.length (String c t)) <= 10 ^ 3)%Z)
    by (apply Z.pow_le_mono_r; lia).
  assert (0 < 10 ^ Z.of_nat (String.length f))%Z by (apply Z.pow_pos_nonneg; lia).
  change (String c (t ++ f)) with (String c t ++ f)%string.
  nia.
Qed.

Lemma remove_commas_no_comma (s : string) :
  forall_char (fun c => negb (Ascii.eqb c ","%char)) s = true -> remove_commas s = s.
Proof.
  unfold remove_commas. induction s as [|c s IH]; cbn [forall_char filter_chars];
    [reflexivity|].
  intro H. apply andb_true_iff in H. destruct H as [C H]. now rewrite C, IH.
Qed.

(** X21. [normalize_price] never returns 1000 or more for a text without a
    comma: of a run of four or more digits it reads at most three, so that
    a price written without thousands separators is cut down. *)
Theorem normalize_price_needs_thousands_separator (price_text : string) (d : Q) :
  forall_char (fun c => negb (Ascii.eqb c ","%char)) price_text = true ->
  normalize_price price_text = Ok (Some d) ->
  0 <= d < 1000.
Proof.
  intros N. unfold normalize_price.
  destruct (String.eqb price_text EmptyString); [discriminate|].
  pose proof (forall_char_clean _ _ N) as NC.
  destruct (exists_char is_digit price_text) eqn:D.
  - pose proof (search_grouped (clean price_text)) as G.
    rewrite exists_digit_clean, D in G. specialize (G eq_refl).
    unfold price_patterns. cbn [first_price].
    destruct (search (Seq grouped (Seq dot digit_2)) (clean price_text))
      as [g1|] eqn:S1.
    + pose proof (search_keeps _ _ _ _ NC S1) as N1.
      rewrite (remove_commas_no_comma _ N1).
      pose proof (search_sound _ _ _ S1) as L.
      inversion L as [| |r1 r2 a b La Lb| | | | | |]; subst.
      inversion Lb as [| |r1 r2 x f Lx Lf| | | | | |]; subst.
      unfold dot in Lx. inversion Lx as [|q c Hc| | | | | | |]; subst.
      apply Ascii.eqb_eq in Hc. subst c.
      rewrite forall_char_app in N1. apply andb_true_iff in N1. destruct N1 as [Na _].
      destruct (lang_grouped_no_comma _ La Na) as (Da & Ea & Len).
      assert (Df : forall_char is_digit f = true).
      { unfold digit_2, digit in Lf. inv_lang. cbn [append forall_char].
        repeat match goal with H : is_digit _ = true |- _ => rewrite H; clear H end.
        reflexivity. }
      cbn [append].
      destruct (Decimal_fraction a f Da Ea Df) as (d0 & E0 & P0).
      rewrite E0. intro H. inversion H. subst d0. split; [exact P0|].
      now apply (Decimal_fraction_below a f Da Ea Len Df).
    + destruct (search grouped (clean price_text)) as [g2|] eqn:S2; [|congruence].
      pose proof (search_keeps _ _ _ _ NC S2) as N2.
      rewrite (remove_commas_no_comma _ N2).
      destruct (lang_grouped_no_comma _ (search_sound _ _ _ S2) N2) as (Dg & Eg & Len).
      destruct (Decimal_digits _ Dg Eg) as (d0 & E0 & P0).
      rewrite E0. intro H. inversion H. subst d0. split; [exact P0|].
      now apply (Decimal_digits_below g2 Dg Eg Len).
  - rewrite (first_price_no_digit price_patterns (clean price_text)
               price_patterns_leading_digit)
      by (now rewrite exists_digit_clean).
    discriminate.
Qed.

Lemma normalize_price_needs_thousands_separator_witness :
  exists d, normalize_price "$1299.99" = Ok (Some d) /\ d == 29999 # 100 /\ d < 1000.
Proof.
  eexists. split; [vm_compute; reflexivity|]. split; [reflexivity|].
  eapply (normalize_price_needs_thousands_separator "$1299.99");
    [reflexivity | vm_compute; reflexivity].
Defined.

(** ** Cleaning up and querying *)

Lemma filter_filter_implied {A : Type} (p q : A -> bool) (l : list A) :
  (forall x, p x = true -> q x = true) -> filter p (filter q l) = filter p l.
Proof.
  intro I. induction l as [|x l IH]; [reflexivity|]. cbn [filter].
  destruct (q x) eqn:Q; cbn [filter].
  - now rewrite IH.
  - destruct (p x) eqn:P; [|exact IH]. rewrite (I x P) in Q. discriminate.
Qed.

(** X22. [cleanup_old_history] takes nothing away from a query of the
    history that looks back no further than the cleanup keeps:
    [get_price_history] returns the same rows, in the same order, after the
    cleanup as before it. *)
Theorem cleanup_keeps_recent_history (env : Env) (days_to_keep : Z) (w : World)
    (now : datetime) (pid vid : string) (days_back : Z) :
  (utcnow env (tick w) - days days_to_keep <= now - days days_back)%Z ->
  PriceQueries.get_price_history now
    (db (snd (PriceQueries.cleanup_old_history env days_to_keep w))) pid vid days_back
  = PriceQueries.get_price_history now (db w) pid vid days_back.
Proof.
  intro L. unfold PriceQueries.get_price_history, PriceQueries.cleanup_old_history.
  cbn [snd db price_history set_price_history]. f_equal.
  apply filter_filter_implied. intros h H.
  apply andb_true_iff in H. destruct H as [_ H]. apply Z.leb_le in H.
  apply negb_true_iff, Z.ltb_ge. lia.
Qed.

Lemma cleanup_keeps_recent_history_witness :
  In MoreExamples.sony_history
    (PriceQueries.get_price_history (101 * hour)%Z
       (db (snd (PriceQueries.cleanup_old_history Examples.ex_env 1
                   MoreExamples.archived_world)))
       "p-sony" "v-amazon" 1).
Proof.
  rewrite (cleanup_keeps_recent_history Examples.ex_env 1 MoreExamples.archived_world
             (101 * hour)%Z "p-sony" "v-amazon" 1).
  - left. reflexivity.
  - vm_compute. discriminate.
Defined.

(** ** Variations *)


(** ** The category and the brand of a new product *)

Lemma category_named_some (d : DB) (n : string) (c : Category) :
  category_named d n = Some c -> In c (categories d) /\ category_name c = n.
Proof.
  unfold category_named. intro H. apply find_some in H.
  destruct H as [I E]. now apply String.eqb_eq in E.
Qed.

Lemma category_named_none (d : DB) (n : string) :
  category_named d n = None ->
  forall c, In c (categories d) -> category_name c <> n.
Proof.
  unfold category_named. intros H c I E.
  pose proof (find_none _ _ H c I) as N. cbv beta in N.
  apply String.eqb_neq in N. contradiction.
Qed.

(** X24. [_determine_category] returns a category of the database named
    laptops, headphones or speakers, one other than laptops only for a name
    that mentions one of its keywords, and returns none only when the
    database has no category named laptops.  When the database has the
    category, a name that mentions a laptop keyword gets laptops, and a name
    that mentions a headphone keyword and no laptop keyword gets
    headphones; a name that mentions no keyword gets laptops, if there is
    such a category. *)
Theorem determine_category_cases (product_name : string) (d : DB) :
  let mentions category :=
    match find (fun e => String.eqb (fst e) category) category_keywords with
    | Some (_, keywords) =>
        existsb (fun keyword => contains keyword (lower product_name)) keywords
    | None => false
    end in
  match _determine_category product_name d with
  | Some c =>
      In c (categories d)
      /\ In (category_name c) ["laptops"; "headphones"; "speakers"]
      /\ (category_name c <> "laptops" -> mentions (category_name c) = true)
  | None => forall c, In c (categories d) -> category_name c <> "laptops"
  end
  /\ (forall c, mentions "laptops" = true -> category_named d "laptops" = Some c ->
        _determine_category product_name d = Some c)
  /\ (mentions "laptops" = false -> mentions "headphones" = false ->
      mentions "speakers" = false ->
      _determine_category product_name d = category_named d "laptops")
  /\ (forall c, mentions "laptops" = false -> mentions "headphones" = true ->
        category_named d "headphones" = Some c ->
        _determine_category product_name d = Some c).
Proof.
  intro mentions. unfold mentions, _determine_category, category_keywords.
  cbn [find fst String.eqb Ascii.eqb Bool.eqb first_category].
  remember (existsb (fun keyword => contains keyword (lower product_name))
              ["laptop"; "macbook"; "notebook"; "ultrabook"; "chromebook"]) as L eqn:EL.
  remember (existsb (fun keyword => contains keyword (lower product_name))
              ["headphone"; "earphone"; "earbud"; "airpods"; "headset"]) as H eqn:EH.
  remember (existsb (fun keyword => contains keyword (lower product_name))
              ["speaker"; "soundbar"; "bluetooth speaker"; "wireless speaker"])
    as S eqn:ES.
  destruct (category_named d "laptops") as [cl|] eqn:El;
    destruct (category_named d "headphones") as [ch|] eqn:Eh;
    destruct (category_named d "speakers") as [cs|] eqn:Es;
    try (destruct (category_named_some _ _ _ El) as [Il Nl]);
    try (destruct (category_named_some _ _ _ Eh) as [Ih Nh]);
    try (destruct (category_named_some _ _ _ Es) as [Is Ns]);
    try (pose proof (category_named_none _ _ El) as Nl);
    destruct L, H, S;
    cbn [find fst String.eqb Ascii.eqb Bool.eqb];
    rewrite ?Nl, ?Nh, ?Ns;
    cbn [find fst String.eqb Ascii.eqb Bool.eqb In];
    rewrite <- ?EL, <- ?EH, <- ?ES;
    repeat split; auto; try tauto; try congruence;
    try (intros ? ? X; inversion X; reflexivity);
    try (intros ? ? ? X; inversion X; reflexivity).
Qed.

Lemma brand_of_words_spec (name_words : list string) :
  match brand_of_words name_words with
  | Some brand =>
      In brand common_brands
      /\ exists before word after,
           name_words = before ++ word :: after
           /\ lower word = lower brand
           /\ (forall w b, In w before -> In b common_brands -> lower w <> lower b)
           /\ (forall b, In b common_brands -> lower word = lower b ->
                 exists pre post, common_brands = pre ++ brand :: post
                                  /\ forall b', In b' pre -> lower word <> lower b')
  | None => forall w b, In w name_words -> In b common_brands -> lower w <> lower b
  end.
Proof.
  induction name_words as [|word rest IH]; cbn [brand_of_words].
  - intros w b [].
  - destruct (find (fun brand => String.eqb (lower word) (lower brand)) common_brands)
      as [brand|] eqn:F.
    + pose proof (find_some _ _ F) as [I E]. apply String.eqb_eq in E.
      split; [exact I|]. exists [], word, rest.
      split; [reflexivity|]. split; [exact E|]. split; [intros w b []|].
      intros b Ib Eb. clear I IH.
      revert F. generalize common_brands as l.
      induction l as [|x l IHl]; cbn [find]; [discriminate|].
      destruct (String.eqb (lower word) (lower x)) eqn:X.
      * intro H. inversion H. subst x. exists [], l. split; [reflexivity|]. intros b' [].
      * intro H. destruct (IHl H) as (pre & post & -> & N).
        exists (x :: pre), post. split; [reflexivity|].
        intros b' [<-|Hb]; [now apply String.eqb_neq | now apply N].
    + assert (N : forall b, In b common_brands -> lower word <> lower b).
      { intros b Ib. pose proof (find_none _ _ F b Ib) as X. cbv beta in X.
        now apply String.eqb_neq. }
      destruct (brand_of_words rest) as [brand|].
      * destruct IH as (I & before & w0 & after & -> & E & B & P).
        split; [exact I|]. exists (word :: before), w0, after.
        split; [reflexivity|]. split; [exact E|]. split; [|exact P].
        intros w b [<-|Hw] Ib; [now apply N | now apply B].
      * intros w b [<-|Hw] Ib; [now apply N | now apply IH].
Qed.

(** X25. [_extract_brand] returns the brand, in the spelling of its list,
    that the first word of the name equal to a listed brand without regard
    to letter case stands for; when no word is a listed brand it returns
    the first word of the name as it is, and "Unknown" for a name without
    words. *)
Theorem extract_brand_cases (product_name : string) :
  let name_words := split product_name in
  let brand := _extract_brand product_name in
  let listed w := exists b, In b common_brands /\ lower w = lower b in
  ((exists w, In w name_words /\ listed w) ->
   In brand common_brands
   /\ exists before word after,
        name_words = before ++ word :: after
        /\ lower word = lower brand
        /\ forall w, In w before -> ~ listed w)
  /\ ((forall w, In w name_words -> ~ listed w) ->
      brand = match name_words with w :: _ => w | [] => "Unknown" end)
  /\ (name_words = [] -> brand = "Unknown").
Proof.
  intros name_words brand listed. unfold brand, _extract_brand. fold name_words.
  pose proof (brand_of_words_spec name_words) as S.
  destruct (brand_of_words name_words) as [b|].
  - destruct S as (I & before & word & after & E & L & B & _).
    split; [|split].
    + intros _. split; [exact I|]. exists before, word, after.
      split; [exact E|]. split; [exact L|].
      intros w Hw (b' & Ib & Eb). exact (B w b' Hw Ib Eb).
    + intro N. exfalso. apply (N word).
      * rewrite E. apply in_or_app. right. now left.
      * now exists b.
    + intro N. rewrite N in E. now destruct before.
  - split; [|split].
    + intros (w & Hw & b & Ib & Eb). exfalso. exact (S w b Hw Ib Eb).
    + reflexivity.
    + now intros ->.
Qed.

(** ** The range of the scores *)

Lemma common_count_le (a b : list string) :
  (common_count a b <= Nat.max (List.length a) (List.length b))%nat.
Proof.
  unfold common_count.
  eapply Nat.le_trans; [|apply Nat.le_max_l].
  eapply Nat.le_trans; [|apply (filter_length_le (fun k => existsb (String.eqb k) b) a)].
  apply NoDup_incl_length; [apply NoDup_nodup|].
  intros x Hx. now apply nodup_In in Hx.
Qed.

Lemma keyword_score_range (a b : list string) :
  a <> [] -> 0 <= keyword_score a b <= 100.
Proof.
  intro N. unfold keyword_score.
  pose proof (common_count_le a b) as L.
  set (c := common_count a b) in *.
  set (m := Nat.max (List.length a) (List.length b)) in *.
  assert (M : (0 < m)%nat).
  { unfold m. destruct a; [congruence | cbn [List.length]; lia]. }
  assert (Mq : 0 < inject_Z (Z.of_nat m)).
  { change 0 with (inject_Z 0). rewrite <- Zlt_Qlt. lia. }
  assert (Cq : 0 <= inject_Z (Z.of_nat c)).
  { change 0 with (inject_Z 0). rewrite <- Zle_Qle. lia. }
  assert (Lq : inject_Z (Z.of_nat c) <= inject_Z (Z.of_nat m)).
  { rewrite <- Zle_Qle. lia. }
  assert (0 <= inject_Z (Z.of_nat c) / inject_Z (Z.of_nat m)).
  { apply Qle_shift_div_l; [exact Mq | lra]. }
  assert (inject_Z (Z.of_nat c) / inject_Z (Z.of_nat m) <= 1).
  { apply Qle_shift_div_r; [exact Mq | lra]. }
  lra.
Qed.

(** X26. When the three text measures lie between 0 and 100, so does the
    composite score of every candidate; a matcher whose threshold is above
    100 then never matches: every observation with a name creates a new
    product, even one that is already in the catalog under that name. *)
Theorem threshold_above_100_always_creates {fuzz : Fuzz} (env : Env)
    (similarity_threshold : Z) (sp : ScrapedProduct) (name : string) (w : World) :
  (forall a b, (0 <= ratio a b <= 100)%Z /\ (0 <= token_sort_ratio a b <= 100)%Z
               /\ (0 <= partial_ratio a b <= 100)%Z) ->
  sp_name sp = Some name ->
  (forall p, 0 <= composite_score name (_extract_product_keywords name) p <= 100)
  /\ ((100 < similarity_threshold)%Z ->
      find_matching_product env similarity_threshold sp w
      = Ok (_create_new_product env name sp w)
      /\ List.length
           (products (db (snd (_create_new_product env name sp w))))
         = S (List.length (products (db w)))).
Proof.
  intros R N.
  assert (Range : forall p,
             0 <= composite_score name (_extract_product_keywords name) p <= 100).
  { intro p.
    destruct (composite_score_max name (_extract_product_keywords name) p)
      as (M1 & _ & _ & _ & C). cbv zeta in *.
    destruct (R (lower name) (lower (product_name p))) as (R1 & R2 & R3).
    assert (Z : forall z, (0 <= z <= 100)%Z -> 0 <= inject_Z z <= 100).
    { intros z [A B]. split.
      - change 0 with (inject_Z 0). now rewrite <- Zle_Qle.
      - change 100 with (inject_Z 100). now rewrite <- Zle_Qle. }
    destruct C as [->|[->|[->|(K1 & _ & ->)]]]; auto.
    now apply keyword_score_range. }
  split; [exact Range|]. intro T.
  unfold find_matching_product. rewrite N.
  destruct (fst (best_match similarity_threshold name (products (db w))))
    as [[i p]|] eqn:B.
  - exfalso. destruct (best_match_some similarity_threshold name _ _ _ B) as (_ & S & _).
    destruct (Range p) as [_ U].
    assert (inject_Z 100 < inject_Z similarity_threshold) by now rewrite <- Zlt_Qlt.
    change (inject_Z 100) with 100 in *. lra.
  - split; [reflexivity|].
    unfold _create_new_product. cbn [snd db products set_products].
    rewrite length_app. cbn [List.length]. lia.
Qed.

Lemma threshold_above_100_always_creates_witness :
  find_matching_product (fuzz := Examples.ex_fuzz) Examples.ex_env 101
    Examples.sony_again Examples.ex_world
  = Ok (_create_new_product Examples.ex_env "Sony WH-1000XM4" Examples.sony_again
          Examples.ex_world).
Proof.
  apply (threshold_above_100_always_creates (fuzz := Examples.ex_fuzz) Examples.ex_env
           101 Examples.sony_again "Sony WH-1000XM4" Examples.ex_world).
  - intros a b. cbn [ratio token_sort_ratio partial_ratio Examples.ex_fuzz].
    unfold Examples.same_or_nothing. destruct (String.eqb a b); lia.
  - reflexivity.
  - lia.
Defined.

(* ================================================================== *)

(** * The pipeline on a session whose commits can fail *)

Section SessionFacts.
Context {fuzz : Fuzz}.
Variable env : Env.
Variable commit_error : nat -> option string.
Variable similarity_threshold : Z.

Local Abbreviation store := (Session._store_product_data env commit_error similarity_threshold).

(** The store of [RunScrapers] is the matcher followed by
    [apply_observation]. *)
Lemma store_is_find_then_apply (sp : ScrapedProduct) (vendor : Vendor) (w : World) :
  RunScrapers._store_product_data env similarity_threshold sp vendor w
  = match RunScrapers.find_matching_product env similarity_threshold sp w with
    | Ok (i, product, w0) => Ok (Session.apply_observation env i product sp vendor w0)
    | Raise e => Raise e
    end.
Proof.
  unfold RunScrapers._store_product_data, Session.apply_observation.
  destruct (RunScrapers.find_matching_product env similarity_threshold sp w)
    as [[[i product] w0]|e]; reflexivity.
Qed.

(** On an inactive session every store raises and changes nothing. *)
Lemma store_on_inactive (sp : ScrapedProduct) (vendor : Vendor) (s : Session.session) :
  Session.inactive s = true ->
  exists e, store sp vendor s = (Raise e, s).
Proof.
  intro I. unfold Session._store_product_data, Session.find_matching_product.
  destruct (sp_name sp); rewrite ?I; eauto.
Qed.

Lemma store_loop_on_inactive (vendor : Vendor) (sps : list ScrapedProduct) :
  forall acc s,
    Session.inactive s = true ->
    Session.store_loop env commit_error similarity_threshold sps vendor acc s
    = (mkVendorResults (vr_products_scraped acc)
         (vr_errors acc + Z.of_nat (List.length sps)), s).
Proof.
  induction sps as [|sp rest IH]; intros acc s I; cbn [Session.store_loop List.length].
  - destruct acc. cbn [vr_products_scraped vr_errors]. f_equal. f_equal. lia.
  - destruct (store_on_inactive sp vendor s I) as [e ->].
    rewrite IH by exact I. cbn [vr_products_scraped vr_errors]. f_equal. f_equal. lia.
Qed.

(** On an inactive session a run can be closed neither as completed nor as
    failed. *)
Lemma close_on_inactive (ix : nat) (s : Session.session) :
  Session.inactive s = true ->
  (forall r, exists s',
      Session._complete_scraper_run env commit_error ix r s
      = (Raise Session.pending_rollback, s')
      /\ Session.stored s' = Session.stored s /\ Session.inactive s' = true)
  /\ (forall e, exists s',
        Session._fail_scraper_run env commit_error ix e s
        = (Raise Session.pending_rollback, s')
        /\ Session.stored s' = Session.stored s /\ Session.inactive s' = true).
Proof.
  intro I. unfold Session._complete_scraper_run, Session._fail_scraper_run.
  rewrite I. split; intros; eexists; repeat split.
Qed.

(** A store leaves the session inactive exactly when it was inactive or one
    of its commits failed. *)
Lemma commit_cases (s : Session.session) (pending : Session.Database) (t : nat) :
  Session.inactive s = false ->
  match commit_error (Session.commits s) with
  | None =>
      Session.commit commit_error s pending t
      = (Ok tt, Session.mkSession pending t false (S (Session.commits s)))
  | Some e =>
      Session.commit commit_error s pending t
      = (Raise e, Session.mkSession (Session.stored s) t true (S (Session.commits s)))
  end.
Proof.
  intro A. unfold Session.commit. rewrite A.
  destruct (commit_error (Session.commits s)); reflexivity.
Qed.

(** *** A session whose commits all succeed *)

Hypothesis reliable : forall n, commit_error n = None.

Lemma commit_reliable (s : Session.session) (pending : Session.Database) (t : nat) :
  Session.inactive s = false ->
  Session.commit commit_error s pending t
  = (Ok tt, Session.mkSession pending t false (S (Session.commits s))).
Proof.
  intro A. unfold Session.commit. now rewrite A, reliable.
Qed.

(** The session [s'] holds the world [w] and the vendors of [s]. *)
Local Abbreviation holds s' w s :=
  (Session.world s' = w /\ Session.inactive s' = false
   /\ Session.vendors (Session.stored s') = Session.vendors (Session.stored s)).

Lemma find_on_reliable (sp : ScrapedProduct) (s : Session.session) :
  Session.inactive s = false ->
  match RunScrapers.find_matching_product env similarity_threshold sp (Session.world s) with
  | Ok (i, product, w0) =>
      exists s',
        Session.find_matching_product env commit_error similarity_threshold sp s
        = (Ok (i, product), s')
        /\ holds s' w0 s
  | Raise e =>
      Session.find_matching_product env commit_error similarity_threshold sp s
      = (Raise e, s)
  end.
Proof.
  intro A. unfold RunScrapers.find_matching_product, Session.find_matching_product.
  destruct (sp_name sp) as [name|]; [|reflexivity]. rewrite A.
  cbn [Session.world db].
  destruct (fst (best_match similarity_threshold name
                   (products (Session.tables (Session.stored s))))) as [[i p]|].
  - exists s. auto.
  - unfold Session._create_new_product. rewrite A.
    unfold RunScrapers._create_new_product. rewrite commit_reliable by exact A.
    eexists. split; [reflexivity|]. repeat split.
Qed.

Lemma store_on_reliable (sp : ScrapedProduct) (vendor : Vendor) (s : Session.session) :
  Session.inactive s = false ->
  match RunScrapers._store_product_data env similarity_threshold sp vendor
          (Session.world s) with
  | Ok w' => exists s', store sp vendor s = (Ok tt, s') /\ holds s' w' s
  | Raise e => store sp vendor s = (Raise e, s)
  end.
Proof.
  intro A. rewrite store_is_find_then_apply. unfold Session._store_product_data.
  pose proof (find_on_reliable sp s A) as F.
  destruct (RunScrapers.find_matching_product env similarity_threshold sp
              (Session.world s)) as [[[i p] w0]|e].
  - destruct F as (s1 & -> & W & A1 & V). rewrite A1.
    rewrite commit_reliable by exact A1. rewrite W.
    eexists. split; [reflexivity|]. repeat split.
    unfold Session.with_tables. cbn [Session.stored Session.vendors]. exact V.
  - now rewrite F.
Qed.

Lemma store_loop_on_reliable (vendor : Vendor) (sps : list ScrapedProduct) :
  forall acc s,
    Session.inactive s = false ->
    exists s',
      Session.store_loop env commit_error similarity_threshold sps vendor acc s
      = (fst (RunScrapers.store_loop env similarity_threshold sps vendor acc
                (Session.world s)), s')
      /\ holds s'
           (snd (RunScrapers.store_loop env similarity_threshold sps vendor acc
                   (Session.world s))) s.
Proof.
  induction sps as [|sp rest IH]; intros acc s A;
    cbn [Session.store_loop RunScrapers.store_loop].
  - exists s. auto.
  - pose proof (store_on_reliable sp vendor s A) as S.
    destruct (RunScrapers._store_product_data env similarity_threshold sp vendor
                (Session.world s)) as [w'|e].
    + destruct S as (s1 & -> & W & A1 & V).
      destruct (IH (mkVendorResults (vr_products_scraped acc + 1) (vr_errors acc)) s1 A1)
        as (s2 & E & W2 & A2 & V2).
      rewrite W in E, W2. exists s2. split; [exact E|].
      repeat split; [exact W2 | exact A2 | congruence].
    + rewrite S. apply IH. exact A.
Qed.

Lemma query_loop_on_reliable (scraper : Scraper) (vendor : Vendor)
    (queries : list string) :
  forall acc s,
    Session.inactive s = false ->
    exists s',
      Session.query_loop env commit_error similarity_threshold scraper vendor queries
        acc s
      = (Ok (fst (RunScrapers.query_loop env similarity_threshold scraper vendor
                    queries acc (Session.world s))), s')
      /\ holds s'
           (snd (RunScrapers.query_loop env similarity_threshold scraper vendor
                   queries acc (Session.world s))) s.
Proof.
  induction queries as [|q rest IH]; intros acc s A;
    cbn [Session.query_loop RunScrapers.query_loop].
  - exists s. auto.
  - rewrite A. cbv zeta. cbn [Session.world tick db].
    set (s1 := Session.mkSession (Session.stored s) (S (Session.clock s)) false
                 (Session.commits s)).
    change (mkWorld (Session.tables (Session.stored s)) (S (Session.clock s)))
      with (Session.world s1).
    destruct (search_product scraper (Session.clock s) q) as [sps|e].
    + destruct (store_loop_on_reliable vendor sps acc s1 eq_refl)
        as (s2 & E & W2 & A2 & V2).
      rewrite E.
      destruct (RunScrapers.store_loop env similarity_threshold sps vendor acc
                  (Session.world s1)) as [acc' w2].
      cbn [fst snd] in *.
      destruct (IH acc' s2 A2) as (s3 & E3 & W3 & A3 & V3).
      rewrite W2 in E3, W3. exists s3. split; [exact E3|].
      repeat split; [exact W3 | exact A3 | now rewrite V3, V2].
    + destruct (IH (mkVendorResults (vr_products_scraped acc) (vr_errors acc + 1))
                  s1 eq_refl) as (s3 & E3 & W3 & A3 & V3).
      exists s3. auto.
Qed.

(** On a session whose commits succeed, the body of the loop of
    [run_all_scrapers] is [RunScrapers.run_vendor] on the vendor that the
    name stands for. *)
Lemma run_vendor_on_reliable (name : string) (vendor : Vendor) (scraper : Scraper)
    (queries : list string) (res : results) (s : Session.session) :
  Session.inactive s = false ->
  find (fun v => String.eqb (vendor_name v) name) (Session.vendors (Session.stored s))
  = Some vendor ->
  exists s',
    Session.run_vendor env commit_error similarity_threshold name scraper queries res s
    = (Ok (fst (RunScrapers.run_vendor env similarity_threshold vendor scraper queries
                  res (Session.world s))), s')
    /\ holds s'
         (snd (RunScrapers.run_vendor env similarity_threshold vendor scraper queries
                 res (Session.world s))) s.
Proof.
  intros A F. unfold Session.run_vendor, RunScrapers.run_vendor. rewrite A, F.
  assert (N : vendor_name vendor = name).
  { apply find_some in F. destruct F as [_ F]. now apply String.eqb_eq in F. }
  unfold Session._start_scraper_run, RunScrapers._start_scraper_run.
  rewrite commit_reliable by exact A.
  unfold Session._run_vendor_scraper, RunScrapers._run_vendor_scraper.
  match goal with
  | |- context [Session.query_loop _ _ _ _ _ _ ?a ?s1] =>
      match goal with
      | |- context [RunScrapers.query_loop _ _ _ _ _ a ?w1] =>
          destruct (query_loop_on_reliable scraper vendor queries a s1 eq_refl)
            as (s2 & E & W2 & A2 & V2);
          change (Session.world s1) with w1 in E, W2
      end
  end.
  rewrite E.
  destruct (RunScrapers.query_loop env similarity_threshold scraper vendor queries _ _)
    as [r w2].
  cbn [fst snd] in *.
  unfold Session._complete_scraper_run. rewrite A2, commit_reliable by exact A2.
  rewrite W2. cbn [RunScrapers.close_run fst snd]. rewrite N.
  eexists. split; [reflexivity|]. repeat split.
  unfold Session.with_tables. cbn [Session.stored Session.vendors]. exact V2.
Qed.

End SessionFacts.

(** A relation between the sessions before and after that every commit and
    every tick of the clock keeps is kept by every function of the
    pipeline. *)
Section SessionInvariant.
Context {fuzz : Fuzz}.
Variable env : Env.
Variable commit_error : nat -> option string.
Variable similarity_threshold : Z.
Variable R : Session.session -> Session.session -> Prop.
Variable good : Session.Database -> Session.Database -> Prop.
Hypothesis R_refl : forall s, R s s.
Hypothesis R_trans : forall a b c, R a b -> R b c -> R a c.
Hypothesis R_commit :
  forall s pending t,
    (Session.clock s <= t)%nat -> good (Session.stored s) pending ->
    R s (snd (Session.commit commit_error s pending t)).
Hypothesis R_tick :
  forall s t,
    (Session.clock s <= t)%nat ->
    R s (Session.mkSession (Session.stored s) t (Session.inactive s) (Session.commits s)).
Hypothesis good_create :
  forall name sp s,
    good (Session.stored s)
      (Session.with_tables s
         (snd (RunScrapers._create_new_product env name sp (Session.world s)))).
Hypothesis good_apply :
  forall i product sp vendor s,
    good (Session.stored s)
      (Session.with_tables s
         (Session.apply_observation env i product sp vendor (Session.world s))).
Hypothesis good_runs :
  forall s w,
    categories (db w) = categories (Session.tables (Session.stored s)) ->
    products (db w) = products (Session.tables (Session.stored s)) ->
    prices (db w) = prices (Session.tables (Session.stored s)) ->
    price_history (db w) = price_history (Session.tables (Session.stored s)) ->
    good (Session.stored s) (Session.with_tables s w).
Hypothesis good_ensure :
  forall s vs cs,
    (exists added,
        vs = Session.vendors (Session.stored s) ++ added
        /\ forall v, In v added -> In (vendor_name v) Session.vendors_data) ->
    (exists added,
        cs = categories (Session.tables (Session.stored s)) ++ added
        /\ forall c, In c added -> In (category_name c) Session.categories_data) ->
    good (Session.stored s)
      (Session.mkDatabase vs
         (mkDB cs (products (Session.tables (Session.stored s)))
            (prices (Session.tables (Session.stored s)))
            (price_history (Session.tables (Session.stored s)))
            (scraper_runs (Session.tables (Session.stored s))))).

Lemma apply_observation_tick (i : nat) (product : Product) (sp : ScrapedProduct)
    (vendor : Vendor) (w : World) :
  (tick w <= tick (Session.apply_observation env i product sp vendor w))%nat.
Proof.
  unfold Session.apply_observation.
  destruct (find_index _ _) as [[j existing]|]; cbn [tick]; lia.
Qed.

Lemma create_keeps (name : string) (sp : ScrapedProduct) (s : Session.session) :
  R s (snd (Session._create_new_product env commit_error name sp s)).
Proof.
  unfold Session._create_new_product.
  destruct (Session.inactive s); [apply R_refl|].
  pose proof (good_create name sp s) as G.
  unfold RunScrapers._create_new_product in *. cbn [snd] in G.
  match goal with |- context [Session.commit _ _ ?p ?t] =>
    pose proof (R_commit s p t) as C;
    destruct (Session.commit commit_error s p t) as [[u|e] s']
  end; cbn [snd] in *; apply C; auto; cbn [tick Session.world]; lia.
Qed.

Lemma find_keeps (sp : ScrapedProduct) (s : Session.session) :
  R s (snd (Session.find_matching_product env commit_error similarity_threshold sp s)).
Proof.
  unfold Session.find_matching_product.
  destruct (sp_name sp) as [name|]; [|apply R_refl].
  destruct (Session.inactive s); [apply R_refl|].
  destruct (fst (best_match similarity_threshold name _)) as [[i p]|];
    [apply R_refl | apply create_keeps].
Qed.

Lemma store_keeps_session (sp : ScrapedProduct) (vendor : Vendor) (s : Session.session) :
  R s (snd (Session._store_product_data env commit_error similarity_threshold sp vendor s)).
Proof.
  unfold Session._store_product_data.
  pose proof (find_keeps sp s) as F.
  destruct (Session.find_matching_product env commit_error similarity_threshold sp s)
    as [[[i p]|e] s1]; cbn [snd] in *; [|exact F].
  destruct (Session.inactive s1); [exact F|].
  eapply R_trans; [exact F|]. cbv zeta. apply R_commit; [|apply good_apply].
  apply (apply_observation_tick i p sp vendor (Session.world s1)).
Qed.

Lemma store_loop_keeps_session (vendor : Vendor) (sps : list ScrapedProduct) :
  forall acc s,
    R s (snd (Session.store_loop env commit_error similarity_threshold sps vendor acc s)).
Proof.
  induction sps as [|sp rest IH]; intros acc s; cbn [Session.store_loop].
  - apply R_refl.
  - pose proof (store_keeps_session sp vendor s) as S.
    destruct (Session._store_product_data env commit_error similarity_threshold sp
                vendor s) as [[u|e] s1]; cbn [snd] in S;
      (eapply R_trans; [exact S | apply IH]).
Qed.

Lemma query_loop_keeps_session (scraper : Scraper) (vendor : Vendor)
    (queries : list string) :
  forall acc s,
    R s (snd (Session.query_loop env commit_error similarity_threshold scraper vendor
                queries acc s)).
Proof.
  induction queries as [|q rest IH]; intros acc s; cbn [Session.query_loop].
  - apply R_refl.
  - destruct (Session.inactive s) eqn:A; [apply R_refl|]. cbv zeta.
    assert (T : R s (Session.mkSession (Session.stored s) (S (Session.clock s)) false
                       (Session.commits s))).
    { rewrite <- A. apply R_tick. lia. }
    eapply R_trans; [exact T|].
    destruct (search_product scraper (Session.clock s) q) as [sps|e]; [|apply IH].
    match goal with |- context [Session.store_loop _ _ _ sps vendor acc ?s1] =>
      pose proof (store_loop_keeps_session vendor sps acc s1) as L;
      destruct (Session.store_loop env commit_error similarity_threshold sps vendor acc s1)
        as [acc' s2]
    end.
    cbn [snd] in L. eapply R_trans; [exact L | apply IH].
Qed.

Lemma ensure_appends {A : Type} (name_of : A -> string) (make : string -> string -> A)
    (rows : list A) (names : list string) :
  forall acc t,
    exists added,
      fst (fold_left
             (fun acc name =>
                if existsb (fun row => String.eqb (name_of row) name) rows then acc
                else (fst acc ++ [make (uuid4 env (snd acc)) name], S (snd acc)))
             names (acc, t))
      = acc ++ added
      /\ (forall r, In r added -> exists n id, In n names /\ r = make id n)
      /\ (t <= snd (fold_left
                      (fun acc name =>
                         if existsb (fun row => String.eqb (name_of row) name) rows
                         then acc
                         else (fst acc ++ [make (uuid4 env (snd acc)) name],
                               S (snd acc)))
                      names (acc, t)))%nat.
Proof.
  induction names as [|n names IH]; intros acc t; cbn [fold_left].
  - exists []. cbn [fst snd]. rewrite app_nil_r. repeat split; [intros r []|lia].
  - destruct (existsb (fun row => String.eqb (name_of row) n) rows).
    + destruct (IH acc t) as (added & E & N & T). exists added.
      split; [exact E|]. split; [|exact T].
      intros r Hr. destruct (N r Hr) as (m & id & Hm & ->). exists m, id.
      split; [now right | reflexivity].
    + cbn [fst snd].
      destruct (IH (acc ++ [make (uuid4 env t) n]) (S t)) as (added & E & N & T).
      exists (make (uuid4 env t) n :: added).
      split; [rewrite E, <- app_assoc; reflexivity|]. split; [|lia].
      intros r [<-|Hr].
      * exists n, (uuid4 env t). split; [now left | reflexivity].
      * destruct (N r Hr) as (m & id & Hm & ->). exists m, id.
        split; [now right | reflexivity].
Qed.

Lemma ensure_keeps (s : Session.session) :
  R s (snd (Session._ensure_vendors_exist env commit_error s)).
Proof.
  unfold Session._ensure_vendors_exist, Session.ensure.
  destruct (Session.inactive s); [apply R_refl|].
  destruct (ensure_appends vendor_name mkVendor (Session.vendors (Session.stored s))
              Session.vendors_data (Session.vendors (Session.stored s))
              (Session.clock s)) as (va & Ev & Nv & Tv).
  destruct (fold_left _ Session.vendors_data _) as [vs t1]. cbn [fst snd] in *.
  destruct (ensure_appends category_name mkCategory
              (categories (Session.tables (Session.stored s)))
              Session.categories_data
              (categories (Session.tables (Session.stored s))) t1)
    as (ca & Ec & Nc & Tc).
  destruct (fold_left _ Session.categories_data _) as [cs t2]. cbn [fst snd] in *.
  apply R_commit; [lia|]. apply good_ensure.
  - exists va. split; [exact Ev|]. intros v Hv.
    destruct (Nv v Hv) as (n & id & Hn & ->). exact Hn.
  - exists ca. split; [exact Ec|]. intros c Hc.
    destruct (Nc c Hc) as (n & id & Hn & ->). exact Hn.
Qed.

Lemma start_keeps (vendor : Vendor) (s : Session.session) :
  R s (snd (Session._start_scraper_run env commit_error vendor s)).
Proof.
  unfold Session._start_scraper_run, RunScrapers._start_scraper_run.
  match goal with |- context [Session.commit _ _ ?p ?t] =>
    pose proof (R_commit s p t) as C;
    destruct (Session.commit commit_error s p t) as [[u|e] s']
  end; cbn [snd] in *; apply C; try (cbn [tick Session.world]; lia);
    apply good_runs; reflexivity.
Qed.

Lemma complete_keeps (ix : nat) (r : vendor_results) (s : Session.session) :
  R s (snd (Session._complete_scraper_run env commit_error ix r s)).
Proof.
  unfold Session._complete_scraper_run.
  destruct (Session.inactive s) eqn:A.
  - cbn [snd]. rewrite <- A. apply R_tick. lia.
  - cbv zeta. apply R_commit.
    + unfold RunScrapers._complete_scraper_run. cbn [tick Session.world]. lia.
    + apply good_runs; reflexivity.
Qed.

Lemma fail_keeps (ix : nat) (e : string) (s : Session.session) :
  R s (snd (Session._fail_scraper_run env commit_error ix e s)).
Proof.
  unfold Session._fail_scraper_run.
  destruct (Session.inactive s) eqn:A.
  - cbn [snd]. rewrite <- A. apply R_tick. lia.
  - cbv zeta. apply R_commit.
    + unfold RunScrapers._fail_scraper_run. cbn [tick Session.world]. lia.
    + apply good_runs; reflexivity.
Qed.

Lemma run_vendor_keeps_session (name : string) (scraper : Scraper)
    (queries : list string) (res : results) (s : Session.session) :
  R s (snd (Session.run_vendor env commit_error similarity_threshold name scraper
              queries res s)).
Proof.
  unfold Session.run_vendor.
  destruct (Session.inactive s); [apply R_refl|].
  destruct (find _ _) as [vendor|]; [|apply R_refl].
  pose proof (start_keeps vendor s) as S.
  destruct (Session._start_scraper_run env commit_error vendor s) as [[ix|e] s1];
    cbn [snd] in S; [|exact S].
  eapply R_trans; [exact S|]. unfold Session._run_vendor_scraper.
  pose proof (query_loop_keeps_session scraper vendor queries (mkVendorResults 0 0) s1)
    as Q.
  destruct (Session.query_loop env commit_error similarity_threshold scraper vendor
              queries (mkVendorResults 0 0) s1) as [[r|e] s2]; cbn [snd] in Q.
  - pose proof (complete_keeps ix r s2) as C.
    destruct (Session._complete_scraper_run env commit_error ix r s2) as [[u|e] s3];
      cbn [snd] in C.
    + eapply R_trans; [exact Q | exact C].
    + pose proof (fail_keeps ix e s3) as F.
      destruct (Session._fail_scraper_run env commit_error ix e s3) as [[u|e'] s4];
        cbn [snd] in F;
        (eapply R_trans; [exact Q|]; eapply R_trans; [exact C | exact F]).
  - pose proof (fail_keeps ix e s2) as F.
    destruct (Session._fail_scraper_run env commit_error ix e s2) as [[u|e'] s4];
      cbn [snd] in F; (eapply R_trans; [exact Q | exact F]).
Qed.

Lemma run_vendors_keeps_session (scrapers : list (string * Scraper))
    (queries : list string) :
  forall res s,
    R s (snd (Session.run_vendors env commit_error similarity_threshold scrapers
                queries res s)).
Proof.
  induction scrapers as [|[name scraper] rest IH]; intros res s;
    cbn [Session.run_vendors].
  - apply R_refl.
  - pose proof (run_vendor_keeps_session name scraper queries res s) as V.
    destruct (Session.run_vendor env commit_error similarity_threshold name scraper
                queries res s) as [[res'|e] s1]; cbn [snd] in V; [|exact V].
    eapply R_trans; [exact V | apply IH].
Qed.

Lemma run_all_scrapers_keeps_session (scrapers : list (string * Scraper))
    (queries : list string) (s : Session.session) :
  R (Session.mkSession (Session.stored s) (Session.clock s) false (Session.commits s))
    (snd (Session.run_all_scrapers env commit_error similarity_threshold scrapers
            queries s)).
Proof.
  unfold Session.run_all_scrapers.
  set (s0 := Session.mkSession (Session.stored s) (Session.clock s) false
               (Session.commits s)).
  pose proof (ensure_keeps s0) as E.
  destruct (Session._ensure_vendors_exist env commit_error s0) as [[u|e] s1];
    cbn [snd] in E; [|exact E].
  eapply R_trans; [exact E | apply run_vendors_keeps_session].
Qed.

End SessionInvariant.

(** *** No rollback: a failed commit is never recovered from *)

Lemma advanced_refl (commit_error : nat -> option string) (s : Session.session) :
  advanced commit_error s s.
Proof.
  unfold advanced. repeat split; auto. intros. lia.
Qed.

Lemma advanced_trans (commit_error : nat -> option string) (a b c : Session.session) :
  advanced commit_error a b -> advanced commit_error b c -> advanced commit_error a c.
Proof.
  intros (A1 & A2 & A3) (B1 & B2 & B3). unfold advanced.
  split; [lia|]. split.
  - intro I. destruct (A2 I) as [Ib Cb]. destruct (B2 Ib) as [Ic Cc].
    split; [exact Ic | lia].
  - intros I k K.
    assert (Ib : Session.inactive b = false).
    { destruct (Session.inactive b) eqn:X; [|reflexivity].
      destruct (B2 eq_refl) as [Y _]. congruence. }
    destruct (Nat.lt_ge_cases k (Session.commits b)).
    + apply A3; [exact Ib | lia].
    + apply B3; [exact I | lia].
Qed.

Lemma advanced_commit (commit_error : nat -> option string) (s : Session.session)
    (pending : Session.Database) (t : nat) :
  advanced commit_error s (snd (Session.commit commit_error s pending t)).
Proof.
  unfold Session.commit, advanced.
  destruct (Session.inactive s) eqn:A; cbn [snd Session.commits Session.inactive].
  - repeat split; auto. discriminate.
  - destruct (commit_error (Session.commits s)) eqn:C;
      cbn [snd Session.commits Session.inactive].
    + repeat split; try lia; discriminate.
    + split; [lia|]. split; [discriminate|].
      intros _ k K. assert (k = Session.commits s) as -> by lia. exact C.
Qed.

Lemma advanced_tick (commit_error : nat -> option string) (s : Session.session)
    (t : nat) :
  advanced commit_error s
    (Session.mkSession (Session.stored s) t (Session.inactive s) (Session.commits s)).
Proof.
  unfold advanced. cbn [Session.commits Session.inactive].
  repeat split; auto. intros. lia.
Qed.

Section Escapes.
Context {fuzz : Fuzz}.
Variable env : Env.
Variable commit_error : nat -> option string.
Variable similarity_threshold : Z.

Lemma run_all_scrapers_advanced (scrapers : list (string * Scraper))
    (queries : list string) (s : Session.session) :
  advanced commit_error
    (Session.mkSession (Session.stored s) (Session.clock s) false (Session.commits s))
    (snd (Session.run_all_scrapers env commit_error similarity_threshold scrapers
            queries s)).
Proof.
  apply (run_all_scrapers_keeps_session env commit_error similarity_threshold
           (advanced commit_error) (fun _ _ => True)); auto.
  - apply advanced_refl.
  - apply advanced_trans.
  - intros. apply advanced_commit.
  - intros. apply advanced_tick.
Qed.

Lemma commit_ok_active (s s' : Session.session) (pending : Session.Database)
    (t : nat) (u : unit) :
  Session.commit commit_error s pending t = (Ok u, s') -> Session.inactive s' = false.
Proof.
  unfold Session.commit. destruct (Session.inactive s); [discriminate|].
  destruct (commit_error (Session.commits s)); [discriminate|].
  intro H. inversion H. reflexivity.
Qed.

(** The body of the loop returns only on a session that is active. *)
Lemma run_vendor_ok_active (name : string) (scraper : Scraper) (queries : list string)
    (res res' : results) (s s' : Session.session) :
  Session.run_vendor env commit_error similarity_threshold name scraper queries res s
  = (Ok res', s') ->
  Session.inactive s' = false.
Proof.
  unfold Session.run_vendor.
  destruct (Session.inactive s); [discriminate|].
  destruct (find _ _) as [vendor|]; [|discriminate].
  destruct (Session._start_scraper_run env commit_error vendor s) as [[ix|e] s1];
    [|discriminate].
  destruct (Session._run_vendor_scraper env commit_error similarity_threshold scraper
              vendor queries s1) as [[r|e] s2].
  - unfold Session._complete_scraper_run.
    destruct (Session.inactive s2) eqn:A2.
    + unfold Session._fail_scraper_run. cbn [Session.inactive]. discriminate.
    + cbv zeta.
      destruct (Session.commit commit_error s2 _ _) as [[u|e] s3] eqn:C.
      * intro H. inversion H. subst. exact (commit_ok_active _ _ _ _ _ C).
      * unfold Session._fail_scraper_run.
        destruct (Session.inactive s3) eqn:A3; [discriminate|]. cbv zeta.
        destruct (Session.commit commit_error s3 _ _) as [[u|e'] s4] eqn:C';
          [|discriminate].
        intro H. inversion H. subst. exact (commit_ok_active _ _ _ _ _ C').
  - unfold Session._fail_scraper_run.
    destruct (Session.inactive s2) eqn:A2; [discriminate|]. cbv zeta.
    destruct (Session.commit commit_error s2 _ _) as [[u|e'] s4] eqn:C';
      [|discriminate].
    intro H. inversion H. subst. exact (commit_ok_active _ _ _ _ _ C').
Qed.

Lemma run_vendors_ok_active (scrapers : list (string * Scraper))
    (queries : list string) :
  forall res res' s s',
    Session.inactive s = false ->
    Session.run_vendors env commit_error similarity_threshold scrapers queries res s
    = (Ok res', s') ->
    Session.inactive s' = false.
Proof.
  induction scrapers as [|[name scraper] rest IH]; intros res res' s s' A;
    cbn [Session.run_vendors].
  - intro H. inversion H. subst. exact A.
  - destruct (Session.run_vendor env commit_error similarity_threshold name scraper
                queries res s) as [[r|e] s1] eqn:V; [|discriminate].
    apply IH. exact (run_vendor_ok_active _ _ _ _ _ _ _ V).
Qed.

Lemma run_all_scrapers_ok_active (scrapers : list (string * Scraper))
    (queries : list string) (res : results) (s s' : Session.session) :
  Session.run_all_scrapers env commit_error similarity_threshold scrapers queries s
  = (Ok res, s') ->
  Session.inactive s' = false.
Proof.
  unfold Session.run_all_scrapers, Session._ensure_vendors_exist.
  cbn [Session.inactive].
  destruct (Session.ensure env vendor_name mkVendor _ _ _) as [vs t1].
  destruct (Session.ensure env category_name mkCategory _ _ _) as [cs t2].
  destruct (Session.commit commit_error _ _ _) as [[u|e] s1] eqn:C; [|discriminate].
  apply run_vendors_ok_active. exact (commit_ok_active _ _ _ _ _ C).
Qed.

End Escapes.

(** C4. The failure of a store is caught and counted only as long as the
    database accepts the commits.  When [db.commit()] of a store raises,
    the handler of [_run_vendor_scraper] does not roll the session back, as
    [PriceService.update_or_create_price] does: every later store of the
    run raises, the run can be closed neither as completed nor as failed,
    and the exception leaves [run_all_scrapers], with every later vendor not
    run.  For two vendors, one query and two observations, with the commit
    of the first store failing: the result is [PendingRollbackError], the
    run of the first vendor is left "running" with no count and the second
    vendor has no run, where the same input without the failure completes
    both runs with two products each. *)
Theorem commit_failure_escapes_the_run :
  (forall (fuzz : Fuzz) (env : Env) (commit_error : nat -> option string)
          (similarity_threshold : Z) (scrapers : list (string * Scraper))
          (queries : list string) (s : Session.session) (k : nat) (e : string),
      let out :=
        Session.run_all_scrapers env commit_error similarity_threshold scrapers
          queries s in
      (Session.commits s <= k < Session.commits (snd out))%nat ->
      commit_error k = Some e ->
      (exists e', fst out = Raise e') /\ Session.inactive (snd out) = true)
  /\ (forall (fuzz : Fuzz) (env : Env) (commit_error : nat -> option string)
             (similarity_threshold : Z) (s : Session.session),
        Session.inactive s = true ->
        (forall sp vendor,
            exists e,
              Session._store_product_data env commit_error similarity_threshold sp
                vendor s = (Raise e, s))
        /\ (forall ix r,
              fst (Session._complete_scraper_run env commit_error ix r s)
              = Raise "PendingRollbackError")
        /\ (forall ix e,
              fst (Session._fail_scraper_run env commit_error ix e s)
              = Raise "PendingRollbackError"))
  /\ (let run commit_error :=
        Session.run_all_scrapers (fuzz := Examples.ex_fuzz) Examples.ex_env
          commit_error 80
          [("amazon", MoreExamples.two_products);
           ("bestbuy", MoreExamples.two_products)]
          ["q0"] MoreExamples.empty_session in
      (exists res s' run1 run2,
          run MoreExamples.never_fails = (Ok res, s')
          /\ scraper_runs (Session.tables (Session.stored s')) = [run1; run2]
          /\ status run1 = "completed" /\ products_scraped run1 = 2%Z
          /\ errors_count run1 = 0%Z
          /\ status run2 = "completed" /\ products_scraped run2 = 2%Z
          /\ errors_count run2 = 0%Z)
      /\ (exists s' run1 product,
            run (MoreExamples.fails_at 3) = (Raise "PendingRollbackError", s')
            /\ scraper_runs (Session.tables (Session.stored s')) = [run1]
            /\ status run1 = "running" /\ products_scraped run1 = 0%Z
            /\ errors_count run1 = 0%Z /\ completed_at run1 = None
            /\ products (Session.tables (Session.stored s')) = [product]
            /\ product_name product = "xyz"
            /\ prices (Session.tables (Session.stored s')) = [])).
Proof.
  split; [|split].
  - intros fuzz env commit_error similarity_threshold scrapers queries s k e out K F.
    pose proof (run_all_scrapers_advanced env commit_error similarity_threshold
                  scrapers queries s) as (_ & _ & A).
    fold out in A. cbn [Session.commits] in A.
    assert (I : Session.inactive (snd out) = true).
    { destruct (Session.inactive (snd out)) eqn:X; [reflexivity|].
      rewrite (A eq_refl k K) in F. discriminate. }
    split; [|exact I].
    destruct out as [[res|e'] s'] eqn:O; [|now exists e'].
    cbn [snd] in I.
    rewrite (run_all_scrapers_ok_active env commit_error similarity_threshold
               scrapers queries res s s' O) in I. discriminate.
  - intros fuzz env commit_error similarity_threshold s I. split; [|split].
    + intros sp vendor.
      exact (store_on_inactive env commit_error similarity_threshold sp vendor s I).
    + intros ix r. unfold Session._complete_scraper_run. now rewrite I.
    + intros ix e. unfold Session._fail_scraper_run. now rewrite I.
  - cbv zeta. split.
    + do 4 eexists. split; [vm_compute; reflexivity|]. repeat split.
    + do 3 eexists. split; [vm_compute; reflexivity|]. repeat split.
Qed.

(** *** What a run keeps *)

Lemma database_kept_refl (d : Session.Database) : database_kept d d.
Proof.
  unfold database_kept.
  split; [apply catalog_kept_refl|]. split; [apply ledger_kept_refl|].
  split; [reflexivity|].
  split; exists []; rewrite app_nil_r; (split; [reflexivity | intros ? []]).
Qed.

Lemma database_kept_trans (a b c : Session.Database) :
  database_kept a b -> database_kept b c -> database_kept a c.
Proof.
  intros (A1 & A2 & A3 & (ca & A4 & A4') & (va & A5 & A5'))
         (B1 & B2 & B3 & (cb & B4 & B4') & (vb & B5 & B5')).
  unfold database_kept.
  split; [eapply catalog_kept_trans; eauto|].
  split; [eapply ledger_kept_trans; eauto|].
  split; [congruence|]. split.
  - exists (ca ++ cb). split; [rewrite B4, A4, app_assoc; reflexivity|].
    intros x Hx. apply in_app_or in Hx. destruct Hx; auto.
  - exists (va ++ vb). split; [rewrite B5, A5, app_assoc; reflexivity|].
    intros x Hx. apply in_app_or in Hx. destruct Hx; auto.
Qed.

(** The tables of a world that keeps what the tables of the session hold,
    with the categories as they are. *)
Lemma database_kept_tables (s : Session.session) (w : World) :
  catalog_kept (products (Session.tables (Session.stored s))) (products (db w)) ->
  ledger_kept (prices (Session.tables (Session.stored s))) (prices (db w)) ->
  price_history (db w) = price_history (Session.tables (Session.stored s)) ->
  categories (db w) = categories (Session.tables (Session.stored s)) ->
  database_kept (Session.stored s) (Session.with_tables s w).
Proof.
  intros C L H K. unfold database_kept, Session.with_tables.
  cbn [Session.tables Session.vendors].
  split; [exact C|]. split; [exact L|]. split; [exact H|].
  split; exists []; rewrite app_nil_r; (split; [auto | intros ? []]).
Qed.

Lemma apply_observation_keeps (env : Env) (i : nat) (product : Product)
    (sp : ScrapedProduct) (vendor : Vendor) (w : World) :
  catalog_kept (products (db w))
    (products (db (Session.apply_observation env i product sp vendor w)))
  /\ ledger_kept (prices (db w))
       (prices (db (Session.apply_observation env i product sp vendor w)))
  /\ price_history (db (Session.apply_observation env i product sp vendor w))
     = price_history (db w)
  /\ categories (db (Session.apply_observation env i product sp vendor w))
     = categories (db w).
Proof.
  unfold Session.apply_observation.
  destruct (find_index (price_of (product_id product) (vendor_id vendor))
              (prices (db w))) as [[j existing]|] eqn:E;
    cbn [db products prices price_history categories set_products set_prices].
  - destruct (find_index_nth _ _ _ _ E) as [N _].
    split; [apply catalog_kept_increment|].
    split; [now apply (ledger_kept_update _ _ existing)|]. auto.
  - split; [apply catalog_kept_increment|].
    split; [apply ledger_kept_app|]. auto.
Qed.

Section Kept.
Context {fuzz : Fuzz}.
Variable env : Env.
Variable commit_error : nat -> option string.
Variable similarity_threshold : Z.

Local Abbreviation kept :=
  (fun a b => database_kept (Session.stored a) (Session.stored b)
              /\ (Session.clock a <= Session.clock b)%nat).

Lemma kept_refl (a : Session.session) : kept a a.
Proof.
  split; [apply database_kept_refl | lia].
Qed.

Lemma kept_trans (a b c : Session.session) : kept a b -> kept b c -> kept a c.
Proof.
  intros [A1 A2] [B1 B2]. split; [eapply database_kept_trans; eauto | lia].
Qed.

Lemma kept_commit (a : Session.session) (pending : Session.Database) (t : nat) :
  (Session.clock a <= t)%nat -> database_kept (Session.stored a) pending ->
  kept a (snd (Session.commit commit_error a pending t)).
Proof.
  intros T G. unfold Session.commit.
  destruct (Session.inactive a); [|destruct (commit_error (Session.commits a))];
    cbn [snd Session.stored Session.clock];
    (split; [first [exact G | apply database_kept_refl] | exact T]).
Qed.

Lemma kept_tick (a : Session.session) (t : nat) :
  (Session.clock a <= t)%nat ->
  kept a (Session.mkSession (Session.stored a) t (Session.inactive a)
            (Session.commits a)).
Proof.
  intro T. cbn [Session.stored Session.clock].
  split; [apply database_kept_refl | exact T].
Qed.

Lemma kept_create (name : string) (sp : ScrapedProduct) (a : Session.session) :
  database_kept (Session.stored a)
    (Session.with_tables a
       (snd (RunScrapers._create_new_product env name sp (Session.world a)))).
Proof.
  unfold RunScrapers._create_new_product. cbn [snd].
  apply database_kept_tables;
    cbn [db products prices price_history categories set_products Session.world];
    [apply catalog_kept_app | apply ledger_kept_refl | reflexivity | reflexivity].
Qed.

Lemma kept_apply (i : nat) (product : Product) (sp : ScrapedProduct) (vendor : Vendor)
    (a : Session.session) :
  database_kept (Session.stored a)
    (Session.with_tables a
       (Session.apply_observation env i product sp vendor (Session.world a))).
Proof.
  destruct (apply_observation_keeps env i product sp vendor (Session.world a))
    as (C & L & H & K).
  now apply database_kept_tables.
Qed.

Lemma kept_runs (a : Session.session) (w : World) :
  categories (db w) = categories (Session.tables (Session.stored a)) ->
  products (db w) = products (Session.tables (Session.stored a)) ->
  prices (db w) = prices (Session.tables (Session.stored a)) ->
  price_history (db w) = price_history (Session.tables (Session.stored a)) ->
  database_kept (Session.stored a) (Session.with_tables a w).
Proof.
  intros C P L H. apply database_kept_tables.
  - rewrite P. apply catalog_kept_refl.
  - rewrite L. apply ledger_kept_refl.
  - exact H.
  - exact C.
Qed.

Lemma kept_ensure (a : Session.session) (vs : list Vendor) (cs : list Category) :
  (exists added,
      vs = Session.vendors (Session.stored a) ++ added
      /\ forall v, In v added -> In (vendor_name v) Session.vendors_data) ->
  (exists added,
      cs = categories (Session.tables (Session.stored a)) ++ added
      /\ forall c, In c added -> In (category_name c) Session.categories_data) ->
  database_kept (Session.stored a)
    (Session.mkDatabase vs
       (mkDB cs (products (Session.tables (Session.stored a)))
          (prices (Session.tables (Session.stored a)))
          (price_history (Session.tables (Session.stored a)))
          (scraper_runs (Session.tables (Session.stored a))))).
Proof.
  intros (va & Ev & Nv) (ca & Ec & Nc). unfold database_kept.
  cbn [Session.tables Session.vendors products prices price_history categories].
  split; [apply catalog_kept_refl|]. split; [apply ledger_kept_refl|].
  split; [reflexivity|]. split; [now exists ca | now exists va].
Qed.

Lemma run_vendors_keeps_database (scrapers : list (string * Scraper))
    (queries : list string) (res : results) (s : Session.session) :
  kept s (snd (Session.run_vendors env commit_error similarity_threshold scrapers
                 queries res s)).
Proof.
  apply (run_vendors_keeps_session env commit_error similarity_threshold kept
           database_kept kept_refl kept_trans kept_commit kept_tick kept_create
           kept_apply kept_runs).
Qed.

Lemma run_all_scrapers_keeps_database (scrapers : list (string * Scraper))
    (queries : list string) (s : Session.session) :
  kept s (snd (Session.run_all_scrapers env commit_error similarity_threshold scrapers
                 queries s)).
Proof.
  apply (run_all_scrapers_keeps_session env commit_error similarity_threshold kept
           database_kept kept_refl kept_trans kept_commit kept_tick kept_create
           kept_apply kept_runs kept_ensure).
Qed.

(** After [ensure] every name of the list has a row. *)
Lemma ensure_present {A : Type} (name_of : A -> string) (make : string -> string -> A)
    (rows : list A) (names : list string) (t : nat) :
  (forall id n, name_of (make id n) = n) ->
  forall n, In n names ->
    exists r, In r (fst (Session.ensure env name_of make rows names t))
              /\ name_of r = n.
Proof.
  intro M. unfold Session.ensure.
  assert (G : forall acc t,
             (forall r, In r rows -> In r acc) ->
             forall n, In n names ->
               exists r,
                 In r (fst (fold_left
                              (fun acc name =>
                                 if existsb (fun row => String.eqb (name_of row) name)
                                      rows
                                 then acc
                                 else (fst acc ++ [make (uuid4 env (snd acc)) name],
                                       S (snd acc)))
                              names (acc, t)))
                 /\ name_of r = n).
  { clear t. induction names as [|m names IH]; intros acc t I n Hn; [destruct Hn|].
    cbn [fold_left fst snd].
    destruct (existsb (fun row => String.eqb (name_of row) m) rows) eqn:X.
    - destruct Hn as [<-|Hn]; [|now apply IH].
      apply existsb_exists in X. destruct X as (r & Hr & E).
      apply String.eqb_eq in E. exists r. split; [|exact E].
      destruct (ensure_appends env name_of make rows names acc t) as (added & -> & _).
      apply in_or_app. left. now apply I.
    - destruct Hn as [<-|Hn].
      + exists (make (uuid4 env t) m). split; [|apply M].
        destruct (ensure_appends env name_of make rows names
                    (acc ++ [make (uuid4 env t) m]) (S t)) as (added & -> & _).
        apply in_or_app. left. apply in_or_app. right. now left.
      + apply IH; [|exact Hn]. intros r Hr. apply in_or_app. left. now apply I. }
  apply G. auto.
Qed.

End Kept.

(** X17. A run of the pipeline only adds, whether it returns or raises.
    After [run_all_scrapers] every product is still at its position with
    its id, name, brand, category and image, and a popularity that has not
    decreased; every price row is still at its position with its id,
    product and vendor; no history row is written or removed; the
    categories and the vendors are those of before, followed by rows named
    in the lists of [_ensure_vendors_exist]; the clock has not gone back.
    After a run that returns, every name of these lists has its row. *)
Theorem pipeline_only_adds {fuzz : Fuzz} (env : Env)
    (commit_error : nat -> option string) (similarity_threshold : Z)
    (scrapers : list (string * Scraper)) (queries : list string)
    (s : Session.session) :
  let out :=
    Session.run_all_scrapers env commit_error similarity_threshold scrapers queries s in
  let before := Session.stored s in
  let after := Session.stored (snd out) in
  catalog_kept (products (Session.tables before)) (products (Session.tables after))
  /\ ledger_kept (prices (Session.tables before)) (prices (Session.tables after))
  /\ price_history (Session.tables after) = price_history (Session.tables before)
  /\ (exists added,
        categories (Session.tables after) = categories (Session.tables before) ++ added
        /\ forall c, In c added -> In (category_name c) Session.categories_data)
  /\ (exists added,
        Session.vendors after = Session.vendors before ++ added
        /\ forall v, In v added -> In (vendor_name v) Session.vendors_data)
  /\ (Session.clock s <= Session.clock (snd out))%nat
  /\ (forall res,
        fst out = Ok res ->
        (forall n, In n Session.categories_data ->
           exists c, In c (categories (Session.tables after)) /\ category_name c = n)
        /\ (forall n, In n Session.vendors_data ->
              exists v, In v (Session.vendors after) /\ vendor_name v = n)).
Proof.
  intros out before after.
  destruct (run_all_scrapers_keeps_database env commit_error similarity_threshold
              scrapers queries s) as [K T].
  fold out in K, T. fold before after in K.
  destruct K as (K1 & K2 & K3 & K4 & K5).
  repeat (split; [assumption|]).
  intros res O. unfold after, out in *. clear K1 K2 K3 K4 K5 T.
  unfold Session.run_all_scrapers, Session._ensure_vendors_exist in *.
  cbn [Session.inactive Session.stored Session.clock Session.commits] in *.
  pose proof (ensure_present env vendor_name mkVendor
                (Session.vendors (Session.stored s)) Session.vendors_data
                (Session.clock s) (fun _ _ => eq_refl)) as PV.
  destruct (Session.ensure env vendor_name mkVendor _ _ _) as [vs t1].
  pose proof (ensure_present env category_name mkCategory
                (categories (Session.tables (Session.stored s)))
                Session.categories_data t1 (fun _ _ => eq_refl)) as PC.
  destruct (Session.ensure env category_name mkCategory _ _ _) as [cs t2].
  cbn [fst] in PV, PC.
  unfold Session.commit in *. cbn [Session.inactive Session.commits] in *.
  destruct (commit_error (Session.commits s)); [discriminate|].
  match goal with |- context [Session.run_vendors _ _ _ _ _ ?r ?s1] =>
    destruct (run_vendors_keeps_database env commit_error similarity_threshold
                scrapers queries r s1) as [(_ & _ & _ & (ca & Ec & _) & (va & Ev & _)) _]
  end.
  cbn [Session.stored Session.tables Session.vendors categories] in Ec, Ev.
  split.
  - intros n Hn. destruct (PC n Hn) as (c & Hc & E). exists c.
    split; [|exact E]. rewrite Ec. apply in_or_app. now left.
  - intros n Hn. destruct (PV n Hn) as (v & Hv & E). exists v.
    split; [|exact E]. rewrite Ev. apply in_or_app. now left.
Qed.
